(** * GoldHEN plugin-reactivation fix: a shallow embedding and its properties

    The development follows the three source files of the repository:
    - [goldhen_plugins_fix.mjs]   (configuration upsert, reload sequence, gate),
    - [goldhen_config_manager.mjs] (canonical configuration and validation),
    - [auto_goldhen_fix.mjs]      (orchestrator and verifier).

    JavaScript strings are modelled as [string] (one [ascii] per code unit:
    the texts handled here are read from a byte buffer), JavaScript integers
    as [Z], the two web storages as [gmap string string], and the raw
    system-call capability [chain.sysi] as an oracle whose answers are
    recorded, together with every log line and delay, in a trace. *)

From stdpp Require Import gmap strings list pretty.
From Stdlib Require Import Ascii ZArith Lia DecimalString.

Local Open Scope string_scope.
Local Open Scope list_scope.

(** ** JavaScript string primitives *)

Module JS.

(** The line terminator written ['\n'] in the source. *)
Definition nl : ascii := "010"%char.

(** [s.startsWith(p)] *)
Definition startsWith (s p : string) : bool := String.prefix p s.

(** [s.includes(needle)]: [needle] occurs at some position of [s]. *)
Fixpoint includes (s needle : string) : bool :=
  String.prefix needle s ||
  match s with
  | EmptyString => false
  | String _ s' => includes s' needle
  end.

(** [s.split('\n')]: never empty, [''.split('\n')] is [['']]. *)
Fixpoint split (s : string) : list string :=
  match s with
  | EmptyString => [EmptyString]
  | String c s' =>
      if decide (c = nl) then EmptyString :: split s'
      else match split s' with
           | [] => [String c EmptyString]
           | l :: ls => String c l :: ls
           end
  end.

(** [lines.join('\n')] *)
Fixpoint join (ls : list string) : string :=
  match ls with
  | [] => EmptyString
  | [l] => l
  | l :: ls' => l +:+ String nl (join ls')
  end.

(** White space and line terminators removed by [trim], restricted to
    the code units below 256: TAB, LF, VT, FF, CR, SP and NBSP. *)
Definition is_white (c : ascii) : bool :=
  match c with
  | "009" | "010" | "011" | "012" | "013" | " " | "160" => true
  | _ => false
  end%char.

Fixpoint trimStart (s : string) : string :=
  match s with
  | EmptyString => EmptyString
  | String c s' => if is_white c then trimStart s' else s
  end.

Fixpoint trimEnd (s : string) : string :=
  match s with
  | EmptyString => EmptyString
  | String c s' =>
      match trimEnd s' with
      | EmptyString => if is_white c then EmptyString else String c EmptyString
      | t => String c t
      end
  end.

(** [s.trim()] *)
Definition trim (s : string) : string := trimEnd (trimStart s).

(** Truthiness of a string: every string but [''] is truthy. *)
Definition truthy (s : string) : bool :=
  match s with EmptyString => false | _ => true end.

(** [s.length] *)
Definition length (s : string) : Z := Z.of_nat (String.length s).

(** Text with one line per list element, every line ended by ['\n']
    (used to write the multi-line literals of the source). *)
Definition unlines (ls : list string) : string :=
  foldr (fun l acc => l +:+ String nl acc) EmptyString ls.

End JS.

(** ** goldhen_plugins_fix.mjs: pure part *)

(** The template literal [`${setting}=${value}`]. *)
Definition setting_line (setting value : string) : string :=
  setting +:+ "=" +:+ value.

(** The search loop of [updateConfigSetting]: [i] runs from its start
    value while [i < lines.length] ([n] counts the iterations left); the
    first line that includes [setting] is overwritten and the loop left. *)
Fixpoint update_loop (n : nat) (i : nat) (lines : list string)
    (setting value : string) : list string * bool :=
  match n with
  | O => (lines, false)
  | S n' =>
      match lines !! i with
      | Some line =>
          if JS.includes line setting
          then (<[i := setting_line setting value]> lines, true)
          else update_loop n' (S i) lines setting value
      | None => (lines, false)
      end
  end.

Definition updateConfigSetting (config_text setting value : string) : string :=
  let lines := JS.split config_text in
  let '(lines, found) :=
    update_loop (List.length lines) 0 lines setting value in
  let lines :=
    if negb found then lines ++ [setting_line setting value] else lines in
  JS.join lines.

(** [parsePluginsList]: the loop body pushes the trimmed line when it
    passes the four tests. *)
Definition plugin_line_step (plugin_paths : list string) (line : string)
    : list string :=
  let trimmed := JS.trim line in
  if JS.truthy trimmed
     && negb (JS.startsWith trimmed "[")
     && negb (JS.startsWith trimmed "#")
     && JS.includes trimmed ".prx"
  then plugin_paths ++ [trimmed]
  else plugin_paths.

Definition parsePluginsList (plugins_text : string) : list string :=
  let lines := JS.split plugins_text in
  foldl plugin_line_step [] lines.

(** ** goldhen_config_manager.mjs *)

(** [OPTIMAL_GOLDHEN_CONFIG], in insertion order (the order in which
    [Object.entries] enumerates it). *)
Definition OPTIMAL_GOLDHEN_CONFIG : list (string * string) :=
  [ ("enable_plugins_loader", "1");
    ("enable_game_patch_plugin", "1");
    ("enable_homebrew_blocker", "0");
    ("enable_rest_mode_patch", "1");
    ("enable_app_browser_patch", "1");
    ("enable_ftp_server", "1");
    ("ftp_port", "2121");
    ("enable_network_dump", "0");
    ("enable_bin_loader", "1");
    ("bin_loader_port", "9020");
    ("enable_game_compatibility_patch", "1");
    ("enable_legacy_game_support", "1");
    ("enable_cpu_temp_patch", "1");
    ("enable_fan_control", "0");
    ("enable_debug_log", "0");
    ("enable_crash_dumps", "1") ].

(** [DEFAULT_PLUGINS_CONFIG] *)
Definition DEFAULT_PLUGINS_CONFIG : string :=
  JS.unlines
    [ "[default]";
      "/data/GoldHEN/plugins/game_patch.prx";
      "/data/GoldHEN/plugins/cheat_manager.prx";
      "";
      "[CUSA00000]";
      "# Example game-specific plugin configuration";
      "# /data/GoldHEN/plugins/special_patch.prx" ].

(** *** [new Date().toISOString()]

    A point in time is given by its UTC calendar fields; the text is
    [YYYY-MM-DDTHH:mm:ss.sssZ], with a sign and six digits for a year
    outside 0..9999. *)
Record Date := {
  year : Z;
  month : N;
  day : N;
  hours : N;
  minutes : N;
  seconds : N;
  milliseconds : N
}.

Definition decimal (n : N) : string := NilZero.string_of_uint (N.to_uint n).

Fixpoint zeros (n : nat) : string :=
  match n with O => EmptyString | S n' => String "0" (zeros n') end.

(** [String(n).padStart(width, '0')] *)
Definition pad (width : nat) (n : N) : string :=
  let d := decimal n in
  zeros (width - String.length d) +:+ d.

Definition iso_year (y : Z) : string :=
  if ((0 <=? y) && (y <=? 9999))%Z then pad 4 (Z.to_N y)
  else (if (y <? 0)%Z then "-" else "+") +:+ pad 6 (Z.abs_N y).

Definition toISOString (d : Date) : string :=
  iso_year (year d) +:+ "-" +:+ pad 2 (month d) +:+ "-" +:+ pad 2 (day d)
  +:+ "T" +:+ pad 2 (hours d) +:+ ":" +:+ pad 2 (minutes d)
  +:+ ":" +:+ pad 2 (seconds d) +:+ "." +:+ pad 3 (milliseconds d) +:+ "Z".

(** The text built by [createOptimalConfig] when [new Date()] is [now]. *)
Definition optimal_config_text (now : Date) : string :=
  let config_content := "[Settings]" +:+ String JS.nl "" in
  let config_content :=
    foldl (fun acc '(key, value) =>
             acc +:+ key +:+ "=" +:+ value +:+ String JS.nl "")
          config_content OPTIMAL_GOLDHEN_CONFIG in
  let config_content :=
    config_content +:+ String JS.nl ("[Advanced]" +:+ String JS.nl "") in
  let config_content :=
    config_content
    +:+ "# Auto-generated optimal configuration for PSFree + GoldHEN"
    +:+ String JS.nl "" in
  let config_content :=
    config_content
    +:+ "# This configuration optimizes plugin loading for better game compatibility"
    +:+ String JS.nl "" in
  let config_content :=
    config_content +:+ "# Generated on: " +:+ toISOString now
    +:+ String JS.nl "" in
  config_content.

Record ValidationReport := {
  isValid : bool;
  issues : list string;
  score : Z
}.

(** [if (cond) issues.push(msg)] *)
Definition push_if (cond : bool) (msg : string) (issues : list string)
    : list string :=
  if cond then issues ++ [msg] else issues.

Definition validateGoldHENConfig (config_text : string) : ValidationReport :=
  let issues := [] in
  let issues :=
    push_if (negb (JS.includes config_text "enable_plugins_loader=1"))
      "Plugins loader disabled - games may not work properly" issues in
  let issues :=
    push_if (negb (JS.includes config_text "enable_game_patch_plugin=1"))
      "Game patch plugin disabled - compatibility issues expected" issues in
  let issues :=
    push_if (JS.includes config_text "enable_homebrew_blocker=1")
      "Homebrew blocker enabled - may cause conflicts" issues in
  let issues :=
    push_if (negb (JS.includes config_text "enable_ftp_server=1"))
      "FTP server disabled - remote management unavailable" issues in
  {| isValid := bool_decide (List.length issues = 0%nat);
     issues := issues;
     score := Z.max 0 (100 - Z.of_nat (List.length issues) * 20) |}.

(** ** The environment of the scripts *)

(** The system calls issued through [chain.sysi(name, ...args)]. The
    address of the read buffer is left out: only its size is kept. *)
Inductive syscall :=
| sys_open (path : string) (flags : Z)
| sys_read (fd : Z) (size : Z)
| sys_lseek (fd : Z) (offset : Z) (whence : Z)
| sys_ftruncate (fd : Z) (len : Z)
| sys_write (fd : Z) (data : string) (len : Z)
| sys_close (fd : Z)
| sys_dynlib_get_list (plugin : string) (arg : Z)
| sys_dynlib_unload_prx (handle : Z)
| sys_dynlib_load_prx (path : string) (arg : Z).

(** What a call does: it returns an integer, leaving [stored] in the buffer
    it was given (for [read]), or it throws; [error] is the text that
    [`${error}`] yields. *)
Inductive outcome :=
| Returns (retval : Z) (stored : string)
| Throws (error : string).

Inductive event :=
| Syscall (call : syscall) (res : outcome)
| Sleep (ms : Z)
| Log (msg : string).

(** The capability handed to every function as [chain]: what a call
    answers may depend on everything that happened before. A call acts on
    files and plugins only: it never touches the two storages, and
    neither do [log] and [sleep], which always return. *)
Record Chain := { answer : list event -> syscall -> outcome }.

Record world := {
  localStorage : gmap string string;
  sessionStorage : gmap string string;
  clock : list event -> Date;
  trace : list event
}.

Definition record (e : event) (w : world) : world :=
  {| localStorage := localStorage w;
     sessionStorage := sessionStorage w;
     clock := clock w;
     trace := trace w ++ [e] |}.

Definition with_local (f : gmap string string -> gmap string string)
    (w : world) : world :=
  {| localStorage := f (localStorage w);
     sessionStorage := sessionStorage w;
     clock := clock w;
     trace := trace w |}.

Definition with_session (f : gmap string string -> gmap string string)
    (w : world) : world :=
  {| localStorage := localStorage w;
     sessionStorage := f (sessionStorage w);
     clock := clock w;
     trace := trace w |}.

(** *** Computations: state passing with exceptions *)

Inductive result (A : Type) :=
| Ok (a : A)
| Exn (error : string).
Arguments Ok {A} a.
Arguments Exn {A} error.

Definition M (A : Type) : Type := world -> result A * world.

Definition ret {A} (a : A) : M A := fun w => (Ok a, w).

Definition bind {A B} (m : M A) (k : A -> M B) : M B :=
  fun w =>
    match m w with
    | (Ok a, w') => k a w'
    | (Exn e, w') => (Exn e, w')
    end.

Notation "x <- m ;; k" := (bind m (fun x => k))
  (at level 100, m at next level, right associativity).
Notation "m ;;; k" := (bind m (fun _ => k))
  (at level 100, right associativity).

(** [try { m } catch (error) { handler error }] *)
Definition try_catch {A} (m : M A) (handler : string -> M A) : M A :=
  fun w =>
    match m w with
    | (Ok a, w') => (Ok a, w')
    | (Exn e, w') => handler e w'
    end.

(** [for (const x of xs) body(x)] *)
Fixpoint for_of {A} (xs : list A) (body : A -> M unit) : M unit :=
  match xs with
  | [] => ret tt
  | x :: xs' => body x ;;; for_of xs' body
  end.

Definition log (msg : string) : M unit := fun w => (Ok tt, record (Log msg) w).

(** [await sleep(ms)] *)
Definition sleep (ms : Z) : M unit := fun w => (Ok tt, record (Sleep ms) w).

(** [chain.sysi(...)], with the text left in the buffer. *)
Definition sysi_buf (chain : Chain) (call : syscall) : M (Z * string) :=
  fun w =>
    let res := answer chain (trace w) call in
    let w' := record (Syscall call res) w in
    match res with
    | Returns retval stored => (Ok (retval, stored), w')
    | Throws error => (Exn error, w')
    end.

(** [chain.sysi(...)] *)
Definition sysi (chain : Chain) (call : syscall) : M Z :=
  r <- sysi_buf chain call ;; ret (fst r).

(** [buffer.read_string(n)]: the first [n] code units of the buffer. *)
Definition read_string (buffer : string) (n : Z) : string :=
  String.substring 0 (Z.to_nat n) buffer.

Definition local_getItem (key : string) : M (option string) :=
  fun w => (Ok (localStorage w !! key), w).
Definition local_setItem (key value : string) : M unit :=
  fun w => (Ok tt, with_local (insert key value) w).
Definition local_removeItem (key : string) : M unit :=
  fun w => (Ok tt, with_local (delete key) w).

Definition session_getItem (key : string) : M (option string) :=
  fun w => (Ok (sessionStorage w !! key), w).
Definition session_setItem (key value : string) : M unit :=
  fun w => (Ok tt, with_session (insert key value) w).
Definition session_removeItem (key : string) : M unit :=
  fun w => (Ok tt, with_session (delete key) w).

(** [new Date()] *)
Definition new_Date : M Date := fun w => (Ok (clock w (trace w)), w).

(** [x === 'true'] and the like, for the result of [getItem]. *)
Definition is_item (x : option string) (s : string) : bool :=
  bool_decide (x = Some s).

(** [createOptimalConfig] *)
Definition createOptimalConfig : M string :=
  log "Creating optimal GoldHEN configuration..." ;;;
  now <- new_Date ;;
  ret (optimal_config_text now).

(** ** goldhen_plugins_fix.mjs: effectful part *)

(** An element of [fix_sequence]; an absent property is [None]. As in
    the sequence of the code, settings and values are strings and a
    delay is an integer: [pretty] prints it as a template literal prints
    an integer that a JavaScript number holds exactly. *)
Record operation := {
  setting : option string;
  value : option string;
  delay : option Z
}.

Definition set_op (s v : string) : operation :=
  {| setting := Some s; value := Some v; delay := None |}.
Definition delay_op (ms : Z) : operation :=
  {| setting := None; value := None; delay := Some ms |}.

Record fix_payload := {
  config_path : string;
  plugins_path : string;
  operations : list operation
}.

Definition createPluginFixPayload : fix_payload :=
  let GOLDHEN_CONFIG_PATH := "/data/GoldHEN/config.ini" in
  let PLUGINS_INI_PATH := "/data/GoldHEN/plugins.ini" in
  let fix_sequence :=
    [ set_op "enable_plugins_loader" "0";
      set_op "enable_game_patch_plugin" "0";
      delay_op 100;
      set_op "enable_plugins_loader" "1";
      set_op "enable_game_patch_plugin" "1" ] in
  {| config_path := GOLDHEN_CONFIG_PATH;
     plugins_path := PLUGINS_INI_PATH;
     operations := fix_sequence |}.

(** An absent property read into a template literal or passed to
    [includes] reads ['undefined']. *)
Definition str (o : option string) : string := default "undefined" o.

(** [if (operation.delay)]: the delay when it is present and not zero. *)
Definition truthy_delay (o : option Z) : option Z :=
  match o with
  | Some ms => if decide (ms = 0%Z) then None else Some ms
  | None => None
  end.

Definition modifyGoldHENSetting (chain : Chain)
    (config_path setting value : string) : M bool :=
  log ("Setting " +:+ setting +:+ " = " +:+ value) ;;;
  try_catch
    (fd <- sysi chain (sys_open config_path 0x602) ;;
     if (fd <? 0)%Z then
       log ("Warning: Could not open config file: " +:+ config_path) ;;;
       ret false
     else
       r <- sysi_buf chain (sys_read fd 0x4000) ;;
       let '(bytes_read, buffer) := r in
       (if (0 <? bytes_read)%Z then
          let config_text := read_string buffer bytes_read in
          let updated_config := updateConfigSetting config_text setting value in
          sysi chain (sys_lseek fd 0 0) ;;;
          sysi chain (sys_ftruncate fd 0) ;;;
          sysi chain (sys_write fd updated_config (JS.length updated_config)) ;;;
          ret tt
        else ret tt) ;;;
       sysi chain (sys_close fd) ;;;
       ret true)
    (fun error =>
       log ("Error modifying GoldHEN setting: " +:+ error) ;;;
       ret false).

Definition plugins_to_unload : list string :=
  [ "game_patch.prx"; "cheat_manager.prx"; "browser_patch.prx" ].

Definition unloadPlugins (chain : Chain) : M unit :=
  for_of plugins_to_unload (fun plugin =>
    try_catch
      (handle <- sysi chain (sys_dynlib_get_list plugin 0) ;;
       if (0 <? handle)%Z then
         sysi chain (sys_dynlib_unload_prx handle) ;;;
         log ("Unloaded plugin: " +:+ plugin)
       else ret tt)
      (fun _ => ret tt)).

Definition loadPlugins (chain : Chain) (plugins_path : string) : M unit :=
  try_catch
    (fd <- sysi chain (sys_open plugins_path 0) ;;
     if (0 <=? fd)%Z then
       r <- sysi_buf chain (sys_read fd 0x1000) ;;
       let '(bytes_read, buffer) := r in
       sysi chain (sys_close fd) ;;;
       if (0 <? bytes_read)%Z then
         let plugins_text := read_string buffer bytes_read in
         let plugin_paths := parsePluginsList plugins_text in
         for_of plugin_paths (fun plugin_path =>
           try_catch
             (handle <- sysi chain (sys_dynlib_load_prx plugin_path 0) ;;
              if (0 <? handle)%Z then log ("Loaded plugin: " +:+ plugin_path)
              else ret tt)
             (fun error =>
                log ("Error loading plugin " +:+ plugin_path +:+ ": " +:+ error)))
       else ret tt
     else ret tt)
    (fun error => log ("Error loading plugins: " +:+ error)).

Definition forcePluginsReload (chain : Chain) (payload : fix_payload) : M bool :=
  log "Force reloading GoldHEN plugins..." ;;;
  try_catch
    (unloadPlugins chain ;;;
     sleep 200 ;;;
     loadPlugins chain (plugins_path payload) ;;;
     sleep 200 ;;;
     log "Plugins reload completed" ;;;
     ret true)
    (fun error =>
       log ("Error during plugins reload: " +:+ error) ;;;
       ret false).

Definition reactivatePlugins (chain : Chain) (payload : fix_payload) : M unit :=
  log "Starting plugins reactivation sequence..." ;;;
  for_of (operations payload) (fun operation =>
    match truthy_delay (delay operation) with
    | Some ms =>
        log ("Waiting " +:+ pretty ms +:+ "ms for plugin state change...") ;;;
        sleep ms
    | None =>
        modifyGoldHENSetting chain (config_path payload)
          (str (setting operation)) (str (value operation)) ;;;
        sleep 50
    end) ;;;
  forcePluginsReload chain payload ;;;
  log "Plugins reactivation sequence completed".

Definition fixGoldHENPlugins (chain : Chain) : M bool :=
  log "Applying GoldHEN plugins auto-reactivation fix..." ;;;
  try_catch
    (let goldhen_config_fix := createPluginFixPayload in
     reactivatePlugins chain goldhen_config_fix ;;;
     log "GoldHEN plugins fix applied successfully!" ;;;
     ret true)
    (fun error =>
       log ("Error applying GoldHEN plugins fix: " +:+ error) ;;;
       ret false).

Definition flag_key : string := "goldhen_plugins_fixed".

Definition shouldApplyPluginsFix : M bool :=
  l <- local_getItem flag_key ;;
  if is_item l "true" then ret false
  else
    s <- session_getItem flag_key ;;
    if is_item s "true" then ret false
    else ret true.

Definition markPluginsFixApplied : M unit :=
  local_setItem flag_key "true" ;;;
  session_setItem flag_key "true" ;;;
  log "GoldHEN plugins fix flag set - no need to reapply until reboot".

Definition resetPluginsFixFlag : M unit :=
  local_removeItem flag_key ;;;
  session_removeItem flag_key ;;;
  log "GoldHEN plugins fix flag reset".

(** ** auto_goldhen_fix.mjs *)

Module VerificationCheck.
Record t := { name : string; success : bool; details : string }.
End VerificationCheck.

Module VerificationReport.
Record t := {
  success : bool;
  checks : list VerificationCheck.t;
  issues : list VerificationCheck.t
}.
End VerificationReport.

(** The object returned by [autoFixGoldHEN]; a property that the returned
    object does not have is [None]. *)
Module FixResult.
Record t := {
  success : bool;
  skipped : option bool;
  pluginsFix : option bool;
  configOptimized : option bool;
  verified : option VerificationReport.t;
  issues : option (list VerificationCheck.t);
  error : option string
}.
End FixResult.

Definition optimizeGoldHENConfig (chain : Chain) : M bool :=
  try_catch
    (optimalConfig <- createOptimalConfig ;;
     let configPath := "/data/GoldHEN/config.ini" in
     fd <- sysi chain (sys_open configPath 0x601) ;;
     if (0 <=? fd)%Z then
       sysi chain (sys_write fd optimalConfig (JS.length optimalConfig)) ;;;
       sysi chain (sys_close fd) ;;;
       log "GoldHEN configuration optimized" ;;;
       ret true
     else
       log "Warning: Could not write optimal configuration" ;;;
       ret false)
    (fun error =>
       log ("Error optimizing config: " +:+ error) ;;;
       ret false).

(** [verifyFixApplication]. Reading a storage does not throw here, so the
    [catch] branch of the source is never entered and is not shown. *)
Definition verifyFixApplication : M VerificationReport.t :=
  let checks := [] in
  l <- local_getItem flag_key ;;
  let localStorageFlag := is_item l "true" in
  let checks := checks ++
    [ {| VerificationCheck.name := "LocalStorage flag";
         VerificationCheck.success := localStorageFlag;
         VerificationCheck.details :=
           if localStorageFlag then "Set correctly" else "Not set" |} ] in
  s <- session_getItem flag_key ;;
  let sessionStorageFlag := is_item s "true" in
  let checks := checks ++
    [ {| VerificationCheck.name := "SessionStorage flag";
         VerificationCheck.success := sessionStorageFlag;
         VerificationCheck.details :=
           if sessionStorageFlag then "Set correctly" else "Not set" |} ] in
  e <- local_getItem "ExploitLoaded" ;;
  let goldhenLoaded := is_item e "yes" in
  let checks := checks ++
    [ {| VerificationCheck.name := "GoldHEN loaded";
         VerificationCheck.success := goldhenLoaded;
         VerificationCheck.details :=
           if goldhenLoaded then "Loaded successfully" else "Not loaded" |} ] in
  let allSuccess := forallb VerificationCheck.success checks in
  let issues :=
    List.filter (fun check => negb (VerificationCheck.success check)) checks in
  ret {| VerificationReport.success := allSuccess;
         VerificationReport.checks := checks;
         VerificationReport.issues := issues |}.

(** The text of [displaySuccessMessage]; its characters beyond ASCII stand
    here as their UTF-8 bytes. *)
Definition success_message : string := "
✅ GoldHEN Auto-Fix Applied Successfully!

🎮 Игры теперь должны запускаться с первого раза без зависания.

🔧 Проблемные игры исправлены:
• Need for Speed Heat
• God of War: Ragnarök  
• Cyberpunk 2077
• И другие...

⚡ Плагины автоматически переактивированы.
📋 Конфигурация оптимизирована.

Наслаждайтесь игрой!
    ".

Definition displaySuccessMessage : M unit :=
  let message := success_message in
  log message ;;;
  session_setItem "goldhen_fix_message" message.

Definition autoFixGoldHEN (chain : Chain) : M FixResult.t :=
  log "=== Starting Auto GoldHEN Fix ===" ;;;
  try_catch
    (should <- shouldApplyPluginsFix ;;
     if negb should then
       log "GoldHEN plugins fix already applied this session, skipping..." ;;;
       ret {| FixResult.success := true; FixResult.skipped := Some true;
              FixResult.pluginsFix := None; FixResult.configOptimized := None;
              FixResult.verified := None; FixResult.issues := None;
              FixResult.error := None |}
     else
       log "Waiting for GoldHEN to fully initialize..." ;;;
       sleep 1500 ;;;
       log "Applying plugins reactivation fix..." ;;;
       fixResult <- fixGoldHENPlugins chain ;;
       (if negb fixResult
        then log "Warning: Plugins fix failed, but continuing..."
        else ret tt) ;;;
       log "Optimizing GoldHEN configuration..." ;;;
       optimizeGoldHENConfig chain ;;;
       log "Verifying fix application..." ;;;
       verifyResult <- verifyFixApplication ;;
       if VerificationReport.success verifyResult then
         markPluginsFixApplied ;;;
         log "=== Auto GoldHEN Fix Completed Successfully ===" ;;;
         displaySuccessMessage ;;;
         ret {| FixResult.success := true; FixResult.skipped := None;
                FixResult.pluginsFix := Some fixResult;
                FixResult.configOptimized := Some true;
                FixResult.verified := Some verifyResult;
                FixResult.issues := None; FixResult.error := None |}
       else
         log "=== Auto GoldHEN Fix Completed with Issues ===" ;;;
         ret {| FixResult.success := false; FixResult.skipped := None;
                FixResult.pluginsFix := None; FixResult.configOptimized := None;
                FixResult.verified := None;
                FixResult.issues := Some (VerificationReport.issues verifyResult);
                FixResult.error := None |})
    (fun error =>
       log ("Error in auto GoldHEN fix: " +:+ error) ;;;
       ret {| FixResult.success := false; FixResult.skipped := None;
              FixResult.pluginsFix := None; FixResult.configOptimized := None;
              FixResult.verified := None; FixResult.issues := None;
              FixResult.error := Some error |}).

Definition forceReapplyFix (chain : Chain) : M FixResult.t :=
  log "Force reapplying GoldHEN fix..." ;;;
  resetPluginsFixFlag ;;;
  local_removeItem "ExploitLoaded" ;;;
  session_removeItem "ExploitLoaded" ;;;
  autoFixGoldHEN chain.

(** ** goldhen_config_manager.mjs: backup, recommendations and reports *)

(** [PROBLEMATIC_GAMES]; the o with diaeresis of the second title is the
    code unit 246. *)
Definition PROBLEMATIC_GAMES : list string :=
  [ "Need for Speed Heat";
    "God of War: Ragnar" +:+ String "246" "k";
    "Cyberpunk 2077";
    "Horizon Zero Dawn";
    "The Last of Us Part II";
    "Ghost of Tsushima";
    "Marvel's Spider-Man";
    "Red Dead Redemption 2";
    "Death Stranding";
    "Final Fantasy VII Remake" ].

Module Backup.
Record t := { filename : string; content : string }.
End Backup.

(** [s.replace(/[:.]/g, '-')] *)
Fixpoint replace_colon_dot (s : string) : string :=
  match s with
  | EmptyString => EmptyString
  | String c s' =>
      String (if bool_decide (c = ":"%char) || bool_decide (c = "."%char)
              then "-"%char else c)
             (replace_colon_dot s')
  end.

Definition createConfigBackup (config_text : string) : M Backup.t :=
  now <- new_Date ;;
  let timestamp := replace_colon_dot (toISOString now) in
  let backup_content :=
    ("# GoldHEN Configuration Backup - " +:+ timestamp +:+ String JS.nl "")
    +:+ config_text in
  ret {| Backup.filename := "goldhen_config_backup_" +:+ timestamp +:+ ".ini";
         Backup.content := backup_content |}.

Module Recommendation.
Record t := { setting : string; value : string; reason : string }.
End Recommendation.

(** [if (cond) recommendations.push(rec)] *)
Definition recommend_if (cond : bool) (rec : Recommendation.t)
    (recommendations : list Recommendation.t) : list Recommendation.t :=
  if cond then recommendations ++ [rec] else recommendations.

Definition getOptimizationRecommendations (config_text : string)
    : list Recommendation.t :=
  let recommendations := [] in
  let recommendations :=
    recommend_if (negb (JS.includes config_text "enable_rest_mode_patch=1"))
      {| Recommendation.setting := "enable_rest_mode_patch";
         Recommendation.value := "1";
         Recommendation.reason := "Improves system stability in rest mode" |}
      recommendations in
  let recommendations :=
    recommend_if (negb (JS.includes config_text "enable_app_browser_patch=1"))
      {| Recommendation.setting := "enable_app_browser_patch";
         Recommendation.value := "1";
         Recommendation.reason := "Better browser compatibility for PSFree" |}
      recommendations in
  let recommendations :=
    recommend_if (JS.includes config_text "enable_debug_log=1")
      {| Recommendation.setting := "enable_debug_log";
         Recommendation.value := "0";
         Recommendation.reason := "Debug logging can slow down performance" |}
      recommendations in
  recommendations.

Module CriticalSettings.
Record t := {
  plugins_loader : bool;
  game_patch : bool;
  ftp_server : bool;
  bin_loader : bool
}.
End CriticalSettings.

Module ConfigReport.
Record t := {
  timestamp : string;
  validation : ValidationReport;
  recommendations : list Recommendation.t;
  config_size : Z;
  critical_settings : CriticalSettings.t
}.
End ConfigReport.

Definition generateConfigReport (config_text : string) : M ConfigReport.t :=
  let validation := validateGoldHENConfig config_text in
  let recommendations := getOptimizationRecommendations config_text in
  now <- new_Date ;;
  let report :=
    {| ConfigReport.timestamp := toISOString now;
       ConfigReport.validation := validation;
       ConfigReport.recommendations := recommendations;
       ConfigReport.config_size := JS.length config_text;
       ConfigReport.critical_settings :=
         {| CriticalSettings.plugins_loader :=
              JS.includes config_text "enable_plugins_loader=1";
            CriticalSettings.game_patch :=
              JS.includes config_text "enable_game_patch_plugin=1";
            CriticalSettings.ftp_server :=
              JS.includes config_text "enable_ftp_server=1";
            CriticalSettings.bin_loader :=
              JS.includes config_text "enable_bin_loader=1" |} |} in
  ret report.

Module ConfigExport.
Record t := {
  config : string;
  backup : Backup.t;
  report : ConfigReport.t;
  export_date : string;
  psfree_version : string
}.
End ConfigExport.

Definition exportConfiguration (config_text : string) : M ConfigExport.t :=
  report <- generateConfigReport config_text ;;
  backup <- createConfigBackup config_text ;;
  now <- new_Date ;;
  ret {| ConfigExport.config := config_text;
         ConfigExport.backup := backup;
         ConfigExport.report := report;
         ConfigExport.export_date := toISOString now;
         ConfigExport.psfree_version := "1.5.0b" |}.

(** ** auto_goldhen_fix.mjs: title test and debug report *)

(** [c.toLowerCase()] on a code unit below 256: the letters A to Z and the
    accented capitals 192 to 222, the multiplication sign 215 apart, move
    up by 32. *)
Definition lower_char (c : ascii) : ascii :=
  let n := N_of_ascii c in
  if ((65 <=? n) && (n <=? 90)
      || (192 <=? n) && (n <=? 222) && negb (n =? 215))%N
  then ascii_of_N (n + 32)
  else c.

(** [s.toLowerCase()] *)
Fixpoint toLowerCase (s : string) : string :=
  match s with
  | EmptyString => EmptyString
  | String c s' => String (lower_char c) (toLowerCase s')
  end.

Definition isProblematicGame (gameTitle : string) : bool :=
  existsb (fun problematicGame =>
             JS.includes (toLowerCase gameTitle) (toLowerCase problematicGame))
          PROBLEMATIC_GAMES.

(** [`${x}`] for the result of [getItem]: an absent item reads ['null']. *)
Definition item_text (x : option string) : string := default "null" x.

(** [array.forEach((x, index) => body(x, index))] *)
Fixpoint forEach_from {A} (index : nat) (xs : list A)
    (body : A -> nat -> M unit) : M unit :=
  match xs with
  | [] => ret tt
  | x :: xs' => body x index ;;; forEach_from (S index) xs' body
  end.

Definition debugGoldHENIssues (chain : Chain) : M unit :=
  log "=== GoldHEN Debug Information ===" ;;;
  exploitLoaded <- local_getItem "ExploitLoaded" ;;
  log ("Exploit loaded: " +:+ item_text exploitLoaded) ;;;
  pluginsFixed <- local_getItem flag_key ;;
  log ("Plugins fix applied: " +:+ item_text pluginsFixed) ;;;
  sessionExploit <- session_getItem "ExploitLoaded" ;;
  sessionPlugins <- session_getItem flag_key ;;
  log ("Session exploit: " +:+ item_text sessionExploit) ;;;
  log ("Session plugins fix: " +:+ item_text sessionPlugins) ;;;
  try_catch
    (let configPath := "/data/GoldHEN/config.ini" in
     fd <- sysi chain (sys_open configPath 0) ;;
     if (0 <=? fd)%Z then
       log "GoldHEN config file accessible" ;;;
       sysi chain (sys_close fd) ;;;
       ret tt
     else
       log "Warning: GoldHEN config file not accessible")
    (fun error => log ("Error checking config: " +:+ error)) ;;;
  log "Problematic games list:" ;;;
  forEach_from 0 PROBLEMATIC_GAMES (fun game index =>
    log ("  " +:+ pretty (index + 1)%nat +:+ ". " +:+ game)) ;;;
  log "=== End Debug Information ===".

(** ** Notions used to state the properties *)

(** A line defines [key] when it is the [key=value] pair of that key. *)
Definition defines (key line : string) : bool :=
  String.prefix (key +:+ "=") line.

(** The index of the first line in which [setting] occurs. *)
Definition first_match (setting : string) (lines : list string) : option nat :=
  fst <$> list_find (fun line => JS.includes line setting = true) lines.

(** What the loop of [updateConfigSetting] and the [push] after it do to
    the array of lines. *)
Definition upsert_lines (lines : list string) (setting value : string)
    : list string :=
  match first_match setting lines with
  | Some i => <[i := setting_line setting value]> lines
  | None => lines ++ [setting_line setting value]
  end.

(** The text has no line break. *)
Definition one_line (s : string) : Prop :=
  JS.includes s (String JS.nl EmptyString) = false.

(** The upsert as the specification words it: the line that defines
    [key] is replaced in place, and without such a line the pair is
    appended; [result] is the text obtained. *)
Definition upsert_of_defining_line (text key value result : string) : Prop :=
  let lines := JS.split text in
  (exists i line, lines !! i = Some line /\ defines key line = true
     /\ result = JS.join (<[i := setting_line key value]> lines))
  \/ ((forall line, line ∈ lines -> defines key line = false)
      /\ result = JS.join (lines ++ [setting_line key value])).

(** Exactly one line of [text] defines [key], and it gives it [value]. *)
Definition exactly_one_definition (key value text : string) : Prop :=
  List.filter (defines key) (JS.split text) = [setting_line key value].

(** A configuration whose comment names the key set on the next line. *)
Definition commented_config : string :=
  "# enable_plugins_loader switch" +:+ String JS.nl "enable_plugins_loader=0".

(** A value that spans two lines. *)
Definition two_line_value : string := "1" +:+ String JS.nl "mode".

(** The checks of [validateGoldHENConfig]: whether each is violated by
    the text, and the issue it reports. *)
Definition required_checks (config_text : string) : list (bool * string) :=
  [ (negb (JS.includes config_text "enable_plugins_loader=1"),
     "Plugins loader disabled - games may not work properly");
    (negb (JS.includes config_text "enable_game_patch_plugin=1"),
     "Game patch plugin disabled - compatibility issues expected");
    (JS.includes config_text "enable_homebrew_blocker=1",
     "Homebrew blocker enabled - may cause conflicts");
    (negb (JS.includes config_text "enable_ftp_server=1"),
     "FTP server disabled - remote management unavailable") ].

(** The settings that the validation requires of a document, as the
    specification lists them: the plugins loader, the game patch plugin
    and the FTP server, each enabled. *)
Definition required_settings : list (string * string) :=
  [ ("enable_plugins_loader", "1");
    ("enable_game_patch_plugin", "1");
    ("enable_ftp_server", "1") ].

(** The document has the line [key=value]. *)
Definition has_setting (config_text key value : string) : bool :=
  existsb (fun line => String.eqb line (setting_line key value))
    (JS.split config_text).

(** The number of required settings that the document is missing. *)
Definition missing_required (config_text : string) : nat :=
  length (List.filter
            (fun '(key, value) => negb (has_setting config_text key value))
            required_settings).

(** The document has the line that enables the homebrew blocker. *)
Definition blocker_enabled (config_text : string) : bool :=
  has_setting config_text "enable_homebrew_blocker" "1".

(** The text [s] occurs in the document only as a whole line. *)
Definition on_own_line (s config_text : string) : bool :=
  forallb (fun line => implb (JS.includes line s) (String.eqb line s))
    (JS.split config_text).

(** Each of the four texts that the validation searches for occurs in
    the document only as a whole line. *)
Definition settings_on_own_lines (config_text : string) : bool :=
  forallb (fun s => on_own_line s config_text)
    [ "enable_plugins_loader=1"; "enable_game_patch_plugin=1";
      "enable_homebrew_blocker=1"; "enable_ftp_server=1" ].

(** A document with the three required settings and the blocker, one
    with the loader set to 10, and one with the loader and the blocker
    only. *)
Definition blocked_config : string :=
  JS.join [ "enable_plugins_loader=1"; "enable_game_patch_plugin=1";
            "enable_ftp_server=1"; "enable_homebrew_blocker=1" ].

Definition loader_ten_config : string := "enable_plugins_loader=10".

Definition partial_config : string :=
  JS.join [ "[Settings]"; "enable_plugins_loader=1";
            "enable_homebrew_blocker=1" ].

(** A manifest line that names a plugin: not blank once trimmed, not a
    section header, not a comment, and with the plugin suffix. *)
Definition plugin_entry (line : string) : Prop :=
  let trimmed := JS.trim line in
  trimmed <> EmptyString
  /\ JS.startsWith trimmed "[" = false
  /\ JS.startsWith trimmed "#" = false
  /\ JS.includes trimmed ".prx" = true.

#[global] Instance plugin_entry_dec line : Decision (plugin_entry line).
Proof. unfold plugin_entry. apply _. Defined.

(** A manifest with a section header, a comment, a blank line and two
    plugin paths. *)
Definition sample_manifest : string :=
  JS.join
    [ "[default]";
      "# plugins loaded for every title";
      "";
      "/data/GoldHEN/plugins/game_patch.prx";
      "/data/GoldHEN/plugins/cheat_manager.prx" ].

(** The characters of an ISO 8601 time stamp. *)
Definition iso_char (c : ascii) : bool :=
  match c with
  | "0" | "1" | "2" | "3" | "4" | "5" | "6" | "7" | "8" | "9"
  | "-" | "+" | "T" | ":" | "." | "Z" => true
  | _ => false
  end%char.

Fixpoint all_chars (p : ascii -> bool) (s : string) : bool :=
  match s with
  | EmptyString => true
  | String c s' => p c && all_chars p s'
  end.

(** The canonical text up to the blank that precedes the time stamp. *)
Definition optimal_head : string :=
  foldl (fun acc '(key, value) =>
           acc +:+ key +:+ "=" +:+ value +:+ String JS.nl "")
        ("[Settings]" +:+ String JS.nl "") OPTIMAL_GOLDHEN_CONFIG
  +:+ String JS.nl ("[Advanced]" +:+ String JS.nl "")
  +:+ "# Auto-generated optimal configuration for PSFree + GoldHEN"
  +:+ String JS.nl ""
  +:+ "# This configuration optimizes plugin loading for better game compatibility"
  +:+ String JS.nl ""
  +:+ "# Generated on:".

(** The world after the events [t] have been recorded. *)
Definition append_trace (w : world) (t : list event) : world :=
  {| localStorage := localStorage w;
     sessionStorage := sessionStorage w;
     clock := clock w;
     trace := trace w ++ t |}.

(** The line that [markPluginsFixApplied] logs. *)
Definition mark_message : string :=
  "GoldHEN plugins fix flag set - no need to reapply until reboot".

(** Classes of events: every event but the log line of
    [markPluginsFixApplied]; every event but a call that loads a plugin;
    every event but a call that looks up or unloads a plugin. *)
Definition quiet (e : event) : bool :=
  match e with
  | Log msg => negb (String.eqb msg mark_message)
  | _ => true
  end.

Definition no_load (e : event) : bool :=
  match e with
  | Syscall (sys_dynlib_load_prx _ _) _ => false
  | _ => true
  end.

Definition no_unload (e : event) : bool :=
  match e with
  | Syscall (sys_dynlib_get_list _ _) _
  | Syscall (sys_dynlib_unload_prx _) _ => false
  | _ => true
  end.

(** A computation that only records events of class [P]; it may throw. *)
Definition only (P : event -> bool) {A} (m : M A) : Prop :=
  forall w, exists r t, m w = (r, append_trace w t) /\ forallb P t = true.

(** A computation that only records events of class [P] and returns. *)
Definition safe (P : event -> bool) {A} (m : M A) : Prop :=
  forall w, exists a t, m w = (Ok a, append_trace w t) /\ forallb P t = true.

(** Events of the functions that only touch files. *)
Definition file_io (e : event) : bool := quiet e && no_load e && no_unload e.

(** Events of the unloading phase, and of the loading phase. *)
Definition unload_io (e : event) : bool := quiet e && no_load e.
Definition load_io (e : event) : bool := quiet e && no_unload e.

(** The first two checks of the verifier, when they fail. *)
Definition local_flag_not_set : VerificationCheck.t :=
  {| VerificationCheck.name := "LocalStorage flag";
     VerificationCheck.success := false;
     VerificationCheck.details := "Not set" |}.

Definition session_flag_not_set : VerificationCheck.t :=
  {| VerificationCheck.name := "SessionStorage flag";
     VerificationCheck.success := false;
     VerificationCheck.details := "Not set" |}.

(** [shouldApplyPluginsFix] with the two storages asked in the other
    order. *)
Definition shouldApplyPluginsFix_session_first : M bool :=
  s <- session_getItem flag_key ;;
  if is_item s "true" then ret false
  else
    l <- local_getItem flag_key ;;
    if is_item l "true" then ret false
    else ret true.

(** What the scripts can do to the two storages. *)
Inductive gate_action :=
| DoShouldApply
| DoMark
| DoReset
| DoVerify
| DoDisplaySuccess
| DoAutoFix (chain : Chain)
| DoForceReapply (chain : Chain).

Definition run_action (a : gate_action) (w : world) : world :=
  match a with
  | DoShouldApply => snd (shouldApplyPluginsFix w)
  | DoMark => snd (markPluginsFixApplied w)
  | DoReset => snd (resetPluginsFixFlag w)
  | DoVerify => snd (verifyFixApplication w)
  | DoDisplaySuccess => snd (displaySuccessMessage w)
  | DoAutoFix chain => snd (autoFixGoldHEN chain w)
  | DoForceReapply chain => snd (forceReapplyFix chain w)
  end.

(** The actions that run [resetPluginsFixFlag]. *)
Definition resets (a : gate_action) : bool :=
  match a with
  | DoReset | DoForceReapply _ => true
  | _ => false
  end.

Definition run_actions (acts : list gate_action) (w : world) : world :=
  foldl (fun w a => run_action a w) w acts.

(** One of the two storages holds the flag. *)
Definition marked (w : world) : Prop :=
  localStorage w !! flag_key = Some "true"
  \/ sessionStorage w !! flag_key = Some "true".

(** A chain whose calls all return 0, and a world with empty storages. *)
Definition idle_chain : Chain :=
  {| answer := fun _ _ => Returns 0 EmptyString |}.

Definition epoch : Date :=
  {| year := 1970; month := 1; day := 1;
     hours := 0; minutes := 0; seconds := 0; milliseconds := 0 |}.

Definition fresh_world : world :=
  {| localStorage := ∅; sessionStorage := ∅;
     clock := fun _ => epoch; trace := [] |}.

(** The line that [modifyGoldHENSetting] logs first. *)
Definition setting_message (setting value : string) : string :=
  "Setting " +:+ setting +:+ " = " +:+ value.

(** An event records a call that threw. *)
Definition threw (e : event) : bool :=
  match e with
  | Syscall _ (Throws _) => true
  | _ => false
  end.

(** An event records a call of [close] on [fd]. *)
Definition closes (fd : Z) (e : event) : bool :=
  match e with
  | Syscall (sys_close fd') _ => bool_decide (fd' = fd)
  | _ => false
  end.

(** An event records a call of [write]. *)
Definition writes (e : event) : bool :=
  match e with
  | Syscall (sys_write _ _ _) _ => true
  | _ => false
  end.

(** An event records a call that moves the file offset, truncates the
    file or writes to it. *)
Definition rewrites (e : event) : bool :=
  match e with
  | Syscall (sys_lseek _ _ _) _
  | Syscall (sys_ftruncate _ _) _
  | Syscall (sys_write _ _ _) _ => true
  | _ => false
  end.

(** The trace holds a call that writes [text]. *)
Definition rewrites_with (text : string) (t : list event) : Prop :=
  exists fd len res, Syscall (sys_write fd text len) res ∈ t.

(** A chain on which [open] returns descriptor 3 and [read] throws. *)
Definition read_fault_chain : Chain :=
  {| answer := fun _ call =>
       match call with
       | sys_open _ _ => Returns 3 EmptyString
       | sys_read _ _ => Throws "Error: syscall(read) errno: 5"
       | _ => Returns 0 EmptyString
       end |}.

(** A chain on which [open] returns descriptor 3 and [read] finds the
    file empty. *)
Definition empty_file_chain : Chain :=
  {| answer := fun _ call =>
       match call with
       | sys_open _ _ => Returns 3 EmptyString
       | _ => Returns 0 EmptyString
       end |}.

(** What [modifyGoldHENSetting] records after a [read] that returned no
    byte: the four events up to [close], and the error line when [close]
    throws. *)
Definition skipped_rewrite (path k v : string) (fd : Z) (buf : string)
    (n : Z) (data : string) (res : outcome) : list event :=
  [ Log (setting_message k v);
    Syscall (sys_open path 0x602) (Returns fd buf);
    Syscall (sys_read fd 0x4000) (Returns n data);
    Syscall (sys_close fd) res ]
  ++ match res with
     | Returns _ _ => []
     | Throws e => [Log ("Error modifying GoldHEN setting: " +:+ e)]
     end.

(** What one setting operation of the sequence records: the line of
    [modifyGoldHENSetting], its file events [s], and the pause. *)
Definition setting_events (k v : string) (s : list event) : list event :=
  Log (setting_message k v) :: s ++ [Sleep 50].

(** What one unload attempt records: [res] answers the look-up, [res']
    the unloading. *)
Definition attempt_events (plugin : string) (res res' : outcome)
    : list event :=
  Syscall (sys_dynlib_get_list plugin 0) res ::
  match res with
  | Returns handle _ =>
      if (0 <? handle)%Z then
        Syscall (sys_dynlib_unload_prx handle) res' ::
        match res' with
        | Returns _ _ => [Log ("Unloaded plugin: " +:+ plugin)]
        | Throws _ => []
        end
      else []
  | Throws _ => []
  end.

(** The unload attempts for the three plugins of [unloadPlugins], in the
    order of its list. *)
Definition unload_phase (u : list event) : Prop :=
  exists r1 r1' r2 r2' r3 r3',
    u = attempt_events "game_patch.prx" r1 r1'
        ++ attempt_events "cheat_manager.prx" r2 r2'
        ++ attempt_events "browser_patch.prx" r3 r3'.

(** The events of the reactivation sequence up to the end of the unload
    phase, and those after the pause that follows it. *)
Definition before_reload (s1 s2 s3 s4 u : list event) : list event :=
  [Log "Starting plugins reactivation sequence..."]
  ++ setting_events "enable_plugins_loader" "0" s1
  ++ setting_events "enable_game_patch_plugin" "0" s2
  ++ [Log "Waiting 100ms for plugin state change..."; Sleep 100]
  ++ setting_events "enable_plugins_loader" "1" s3
  ++ setting_events "enable_game_patch_plugin" "1" s4
  ++ [Log "Force reloading GoldHEN plugins..."]
  ++ u.

Definition after_unload (l : list event) : list event :=
  l ++ [ Sleep 200; Log "Plugins reload completed";
         Log "Plugins reactivation sequence completed" ].

(** What one operation of a sequence records: the wait of a delay, or
    the events of a setting whose file events are [s]. *)
Definition operation_events (op : operation) (s : list event) : list event :=
  match truthy_delay (delay op) with
  | Some ms =>
      [ Log ("Waiting " +:+ pretty ms +:+ "ms for plugin state change...");
        Sleep ms ]
  | None => setting_events (str (setting op)) (str (value op)) s
  end.

(** The events of the operations [ops], one after the other; [ss] gives
    the file events of each. *)
Fixpoint sequence_events (ops : list operation) (ss : list (list event))
    : list event :=
  match ops, ss with
  | op :: ops', s :: ss' => operation_events op s ++ sequence_events ops' ss'
  | _, _ => []
  end.

(** The characters of the time stamp of a backup. *)
Definition stamp_char (c : ascii) : bool :=
  iso_char c && negb (bool_decide (c = ":"%char))
  && negb (bool_decide (c = "."%char)).

(** What [trimStart] returns: nothing, or a text whose first character
    is not white space. *)
Definition trimStart_shape (s : string) : Prop :=
  JS.trimStart s = EmptyString
  \/ exists c t, JS.trimStart s = String c t /\ JS.is_white c = false.

(** The path that an event asks to load, and the plugin that an event
    looks up. *)
Definition loaded_path (e : event) : option string :=
  match e with
  | Syscall (sys_dynlib_load_prx path _) _ => Some path
  | _ => None
  end.

Definition looked_up (e : event) : option string :=
  match e with
  | Syscall (sys_dynlib_get_list plugin _) _ => Some plugin
  | _ => None
  end.

(** The handle that an event asks to unload. *)
Definition unloaded_handle (e : event) : option Z :=
  match e with
  | Syscall (sys_dynlib_unload_prx handle) _ => Some handle
  | _ => None
  end.

(** An event records a call that returned. *)
Definition returned (e : event) : bool :=
  match e with
  | Syscall _ (Returns _ _) => true
  | _ => false
  end.

(** An event is a log line. *)
Definition is_log (e : event) : bool :=
  match e with
  | Log _ => true
  | _ => false
  end.

(** The events with which [modifyGoldHENSetting] reaches its [write]. *)
Definition rewrite_events (path k v : string) (fd : Z) (buf : string)
    (n : Z) (data : string) (r1 r2 : Z) (b1 b2 : string) (res : outcome)
    : list event :=
  let updated := updateConfigSetting (read_string data n) k v in
  [ Log (setting_message k v);
    Syscall (sys_open path 0x602) (Returns fd buf);
    Syscall (sys_read fd 0x4000) (Returns n data);
    Syscall (sys_lseek fd 0 0) (Returns r1 b1);
    Syscall (sys_ftruncate fd 0) (Returns r2 b2);
    Syscall (sys_write fd updated (JS.length updated)) res ].

(** The events of [loadPlugins] up to its loop: [open], [read] and
    [close] have returned, and something was read. *)
Definition manifest_read (path : string) (fd : Z) (buf : string) (n : Z)
    (data : string) (r : Z) (b : string) : list event :=
  [ Syscall (sys_open path 0) (Returns fd buf);
    Syscall (sys_read fd 0x1000) (Returns n data);
    Syscall (sys_close fd) (Returns r b) ].

(** The third check of the verifier, when it fails. *)
Definition exploit_not_loaded : VerificationCheck.t :=
  {| VerificationCheck.name := "GoldHEN loaded";
     VerificationCheck.success := false;
     VerificationCheck.details := "Not loaded" |}.

(** The result of [autoFixGoldHEN] when the gate is closed, and when the
    verification reports [issues]. *)
Definition skipped_result : FixResult.t :=
  {| FixResult.success := true; FixResult.skipped := Some true;
     FixResult.pluginsFix := None; FixResult.configOptimized := None;
     FixResult.verified := None; FixResult.issues := None;
     FixResult.error := None |}.

Definition issues_result (issues : list VerificationCheck.t) : FixResult.t :=
  {| FixResult.success := false; FixResult.skipped := None;
     FixResult.pluginsFix := None; FixResult.configOptimized := None;
     FixResult.verified := None; FixResult.issues := Some issues;
     FixResult.error := None |}.

(** The events with which [debugGoldHENIssues] probes the configuration
    file: [res] answers [open], [res'] answers [close]. *)
Definition probe_events (res res' : outcome) : list event :=
  Syscall (sys_open "/data/GoldHEN/config.ini" 0) res ::
  match res with
  | Returns fd _ =>
      if (0 <=? fd)%Z then
        [ Log "GoldHEN config file accessible"; Syscall (sys_close fd) res' ]
        ++ match res' with
           | Returns _ _ => []
           | Throws e => [Log ("Error checking config: " +:+ e)]
           end
      else [Log "Warning: GoldHEN config file not accessible"]
  | Throws e => [Log ("Error checking config: " +:+ e)]
  end.

(** The lines that [debugGoldHENIssues] logs before and after the probe. *)
Definition debug_header (w : world) : list event :=
  [ Log "=== GoldHEN Debug Information ===";
    Log ("Exploit loaded: " +:+ item_text (localStorage w !! "ExploitLoaded"));
    Log ("Plugins fix applied: " +:+ item_text (localStorage w !! flag_key));
    Log ("Session exploit: "
         +:+ item_text (sessionStorage w !! "ExploitLoaded"));
    Log ("Session plugins fix: "
         +:+ item_text (sessionStorage w !! flag_key)) ].

Definition debug_footer : list event :=
  [ Log "Problematic games list:";
    Log "  1. Need for Speed Heat";
    Log ("  2. God of War: Ragnar" +:+ String "246" "k");
    Log "  3. Cyberpunk 2077";
    Log "  4. Horizon Zero Dawn";
    Log "  5. The Last of Us Part II";
    Log "  6. Ghost of Tsushima";
    Log "  7. Marvel's Spider-Man";
    Log "  8. Red Dead Redemption 2";
    Log "  9. Death Stranding";
    Log "  10. Final Fantasy VII Remake";
    Log "=== End Debug Information ===" ].

(** The line that the [catch] branch of [modifyGoldHENSetting] logs. *)
Definition modify_error (e : string) : event :=
  Log ("Error modifying GoldHEN setting: " +:+ e).

(** What the [close] of [modifyGoldHENSetting] records, and what is
    returned after it: [res] answers the call. *)
Definition close_events (fd : Z) (res : outcome) : list event :=
  Syscall (sys_close fd) res ::
  match res with
  | Returns _ _ => []
  | Throws e => [modify_error e]
  end.

(** The runs of [modifyGoldHENSetting]: the value returned and the events
    recorded, by the answers that the calls get. *)
Inductive modify_run (path k v : string) : bool -> list event -> Prop :=
| run_open_throws e :
    modify_run path k v false
      [ Log (setting_message k v);
        Syscall (sys_open path 0x602) (Throws e);
        modify_error e ]
| run_open_fails fd buf :
    (fd < 0)%Z ->
    modify_run path k v false
      [ Log (setting_message k v);
        Syscall (sys_open path 0x602) (Returns fd buf);
        Log ("Warning: Could not open config file: " +:+ path) ]
| run_read_throws fd buf e :
    (0 <= fd)%Z ->
    modify_run path k v false
      [ Log (setting_message k v);
        Syscall (sys_open path 0x602) (Returns fd buf);
        Syscall (sys_read fd 0x4000) (Throws e);
        modify_error e ]
| run_nothing_read fd buf n data res :
    (0 <= fd)%Z -> (n <= 0)%Z ->
    modify_run path k v (negb (threw (Syscall (sys_close fd) res)))
      ([ Log (setting_message k v);
         Syscall (sys_open path 0x602) (Returns fd buf);
         Syscall (sys_read fd 0x4000) (Returns n data) ]
       ++ close_events fd res)
| run_lseek_throws fd buf n data e :
    (0 <= fd)%Z -> (0 < n)%Z ->
    modify_run path k v false
      [ Log (setting_message k v);
        Syscall (sys_open path 0x602) (Returns fd buf);
        Syscall (sys_read fd 0x4000) (Returns n data);
        Syscall (sys_lseek fd 0 0) (Throws e);
        modify_error e ]
| run_ftruncate_throws fd buf n data r1 b1 e :
    (0 <= fd)%Z -> (0 < n)%Z ->
    modify_run path k v false
      [ Log (setting_message k v);
        Syscall (sys_open path 0x602) (Returns fd buf);
        Syscall (sys_read fd 0x4000) (Returns n data);
        Syscall (sys_lseek fd 0 0) (Returns r1 b1);
        Syscall (sys_ftruncate fd 0) (Throws e);
        modify_error e ]
| run_write_throws fd buf n data r1 b1 r2 b2 e :
    (0 <= fd)%Z -> (0 < n)%Z ->
    modify_run path k v false
      (rewrite_events path k v fd buf n data r1 r2 b1 b2 (Throws e)
       ++ [modify_error e])
| run_written fd buf n data r1 b1 r2 b2 r3 b3 res :
    (0 <= fd)%Z -> (0 < n)%Z ->
    modify_run path k v (negb (threw (Syscall (sys_close fd) res)))
      (rewrite_events path k v fd buf n data r1 r2 b1 b2 (Returns r3 b3)
       ++ close_events fd res).

(** An event is a log line or a call that loads a plugin. *)
Definition load_or_log (e : event) : bool :=
  match e with
  | Log _ | Syscall (sys_dynlib_load_prx _ _) _ => true
  | _ => false
  end.

(** The report of the verifier, from what its three tests find. *)
Definition report_of (localStorageFlag sessionStorageFlag goldhenLoaded : bool)
    : VerificationReport.t :=
  let checks :=
    [ {| VerificationCheck.name := "LocalStorage flag";
         VerificationCheck.success := localStorageFlag;
         VerificationCheck.details :=
           if localStorageFlag then "Set correctly" else "Not set" |};
      {| VerificationCheck.name := "SessionStorage flag";
         VerificationCheck.success := sessionStorageFlag;
         VerificationCheck.details :=
           if sessionStorageFlag then "Set correctly" else "Not set" |};
      {| VerificationCheck.name := "GoldHEN loaded";
         VerificationCheck.success := goldhenLoaded;
         VerificationCheck.details :=
           if goldhenLoaded then "Loaded successfully" else "Not loaded" |} ] in
  {| VerificationReport.success := forallb VerificationCheck.success checks;
     VerificationReport.checks := checks;
     VerificationReport.issues :=
       List.filter (fun check => negb (VerificationCheck.success check))
         checks |}.

(** The world in which [markPluginsFixApplied] has run once. *)
Definition marked_world : world := snd (markPluginsFixApplied fresh_world).


(** The lines of the canonical text when the time stamp reads [stamp]. *)
Definition optimal_lines (stamp : string) : list string :=
  ["[Settings]"]
  ++ map (fun '(key, value) => setting_line key value) OPTIMAL_GOLDHEN_CONFIG
  ++ [ "";
       "[Advanced]";
       "# Auto-generated optimal configuration for PSFree + GoldHEN";
       "# This configuration optimizes plugin loading for better game compatibility";
       "# Generated on: " +:+ stamp;
       "" ].

(** The text that an event reads into the buffer of
    [modifyGoldHENSetting] (a [read] of 0x4000 bytes that returned some),
    and the text that an event writes. *)
Definition config_read (e : event) : option string :=
  match e with
  | Syscall (sys_read _ size) res =>
      if (size =? 0x4000)%Z then
        match res with
        | Returns n data =>
            if (0 <? n)%Z then Some (read_string data n) else None
        | Throws _ => None
        end
      else None
  | _ => None
  end.

Definition written_text (e : event) : option string :=
  match e with
  | Syscall (sys_write _ text _) _ => Some text
  | _ => None
  end.

(** An event that neither reads the configuration nor writes. *)
Definition no_config_io (e : event) : bool :=
  match config_read e, written_text e with
  | None, None => true
  | _, _ => false
  end.

(** The events that a computation adds to the trace of [w]. *)
Definition events_of {A} (m : M A) (w : world) : list event :=
  drop (length (trace w)) (trace (snd (m w))).

(** A chain on which [open] returns descriptor 3 and every [read] finds
    the text last written, or [initial] before any write. *)
Definition file_chain (initial : string) : Chain :=
  {| answer := fun t call =>
       match call with
       | sys_open _ _ => Returns 3 EmptyString
       | sys_read _ _ =>
           let text := default initial (last (omap written_text t)) in
           Returns (JS.length text) text
       | _ => Returns 0 EmptyString
       end |}.

(** The first lines of a document in which both plugins are enabled. *)
Definition enabled_head (rest : string) : string :=
  "[Settings]" +:+ String JS.nl
    ("enable_plugins_loader=1" +:+ String JS.nl
       ("enable_game_patch_plugin=1" +:+ String JS.nl rest)).

(** A delay that the model prints as the code does: an integer that a
    JavaScript number holds exactly ([Number.isSafeInteger]); a template
    literal prints it in decimal digits, as [pretty] does. *)
Definition safe_integer (ms : Z) : bool := (Z.abs ms <=? 2 ^ 53 - 1)%Z.

Definition integer_delays (payload : fix_payload) : bool :=
  forallb (fun op =>
             match delay op with
             | Some ms => safe_integer ms
             | None => true
             end)
    (operations payload).

(** A payload with a delay of 0, a delay and a setting. *)
Definition sample_payload : fix_payload :=
  {| config_path := "/data/GoldHEN/config.ini";
     plugins_path := "/data/GoldHEN/plugins.ini";
     operations :=
       [ delay_op 0; delay_op 250; set_op "enable_ftp_server" "1" ] |}.

(** ** Strings: splitting, joining, searching *)

Section Strings.

Lemma app_cons c (s t : string) : String c s +:+ t = String c (s +:+ t).
Proof. reflexivity. Qed.

Lemma app_empty_l (t : string) : EmptyString +:+ t = t.
Proof. reflexivity. Qed.

Lemma app_empty_r (s : string) : s +:+ EmptyString = s.
Proof. induction s as [|c s IH]; [done|]. by rewrite app_cons, IH. Qed.

Lemma app_assoc' (a b c : string) : (a +:+ b) +:+ c = a +:+ (b +:+ c).
Proof. induction a as [|x a IH]; [done|]. by rewrite !app_cons, IH. Qed.

Lemma prefix_empty (s : string) : String.prefix EmptyString s = true.
Proof. by destruct s. Qed.

Lemma prefix_cons c d (p s : string) :
  String.prefix (String c p) (String d s)
  = bool_decide (c = d) && String.prefix p s.
Proof.
  simpl. destruct (ascii_dec c d) as [->|Hne].
  - by rewrite bool_decide_eq_true_2.
  - by rewrite bool_decide_eq_false_2.
Qed.

Lemma prefix_app_self (p s : string) : String.prefix p (p +:+ s) = true.
Proof.
  induction p as [|c p IH]; [apply prefix_empty|].
  rewrite app_cons, prefix_cons, IH. by rewrite bool_decide_eq_true_2.
Qed.

Lemma prefix_app_l (p q s : string) :
  String.prefix (p +:+ q) s = true -> String.prefix p s = true.
Proof.
  revert s. induction p as [|c p IH]; intros s; [by rewrite prefix_empty|].
  destruct s as [|d s]; [done|].
  rewrite app_cons, !prefix_cons. intros [-> H]%andb_true_iff.
  by rewrite (IH _ H).
Qed.

Lemma includes_prefix (s needle : string) :
  String.prefix needle s = true -> JS.includes s needle = true.
Proof. intros H. destruct s; simpl in *; by rewrite H. Qed.

Lemma includes_setting_line (k v : string) :
  JS.includes (setting_line k v) k = true.
Proof. apply includes_prefix, prefix_app_self. Qed.

Lemma defines_setting_line (k v : string) : defines k (setting_line k v) = true.
Proof.
  unfold defines, setting_line. rewrite <- app_assoc'. apply prefix_app_self.
Qed.

Lemma defines_includes (k line : string) :
  defines k line = true -> JS.includes line k = true.
Proof. intros H. by apply includes_prefix, prefix_app_l with "=". Qed.

Lemma split_not_nil (s : string) : JS.split s <> [].
Proof.
  induction s as [|c s IH]; cbn [JS.split]; [done|].
  case_decide; [done|]. by destruct (JS.split s).
Qed.

Lemma join_cons_char c (l : string) (ls : list string) :
  JS.join (String c l :: ls) = String c (JS.join (l :: ls)).
Proof. by destruct ls. Qed.

Lemma join_split (s : string) : JS.join (JS.split s) = s.
Proof.
  induction s as [|c s IH]; [done|]. cbn [JS.split].
  pose proof (split_not_nil s) as Hne.
  case_decide as Hc.
  - subst c. destruct (JS.split s) as [|l ls] eqn:E; [done|].
    change (JS.join (EmptyString :: l :: ls))
      with (EmptyString +:+ String JS.nl (JS.join (l :: ls))).
    by rewrite IH.
  - destruct (JS.split s) as [|l ls] eqn:E; [done|].
    by rewrite join_cons_char, IH.
Qed.

Lemma one_line_cons c (s : string) :
  one_line (String c s) <-> c <> JS.nl /\ one_line s.
Proof.
  unfold one_line. cbn [JS.includes]. rewrite prefix_cons, prefix_empty.
  rewrite orb_false_iff, andb_true_r, bool_decide_eq_false.
  split; intros [? ?]; split; congruence.
Qed.

Lemma one_line_empty : one_line EmptyString.
Proof. done. Qed.

Lemma one_line_app (a b : string) :
  one_line (a +:+ b) <-> one_line a /\ one_line b.
Proof.
  induction a as [|c a IH].
  - rewrite app_empty_l. split; [by split|by intros [_ ?]].
  - rewrite app_cons, !one_line_cons, IH. tauto.
Qed.

Lemma split_one_line (s : string) : one_line s -> JS.split s = [s].
Proof.
  induction s as [|c s IH]; [done|].
  intros [Hc Hs]%one_line_cons. cbn [JS.split]. rewrite decide_False by done.
  by rewrite (IH Hs).
Qed.

Lemma split_app_nl (l r : string) :
  one_line l -> JS.split (l +:+ String JS.nl r) = l :: JS.split r.
Proof.
  induction l as [|c l IH].
  - intros _. rewrite app_empty_l. cbn [JS.split]. by rewrite decide_True.
  - intros [Hc Hl]%one_line_cons. rewrite app_cons. cbn [JS.split].
    rewrite decide_False by done. by rewrite (IH Hl).
Qed.

Lemma split_join (ls : list string) :
  ls <> [] -> Forall one_line ls -> JS.split (JS.join ls) = ls.
Proof.
  induction ls as [|l ls IH]; [done|]. intros _ Hall.
  apply Forall_cons in Hall as [Hl Hls].
  destruct ls as [|l' ls]; [by apply split_one_line|].
  change (JS.join (l :: l' :: ls)) with (l +:+ String JS.nl (JS.join (l' :: ls))).
  rewrite split_app_nl by done. by rewrite IH.
Qed.

Lemma split_lines_one_line (s : string) : Forall one_line (JS.split s).
Proof.
  induction s as [|c s IH]; cbn [JS.split].
  - by repeat constructor.
  - case_decide as Hc.
    + constructor; [done|apply IH].
    + destruct (JS.split s) as [|l ls].
      * constructor; [by apply one_line_cons|constructor].
      * apply Forall_cons in IH as [Hl Hls]. constructor; [|done].
        by apply one_line_cons.
Qed.

End Strings.

(** ** The upsert of [updateConfigSetting] *)

Section Upsert.

Implicit Types (lines : list string) (k v : string).

Lemma first_match_nil k : first_match k [] = None.
Proof. reflexivity. Qed.

Lemma first_match_cons k line lines :
  first_match k (line :: lines)
  = if JS.includes line k then Some 0%nat else S <$> first_match k lines.
Proof.
  unfold first_match. cbn [list_find].
  destruct (JS.includes line k) eqn:E.
  - by rewrite decide_True.
  - rewrite decide_False by congruence.
    by destruct (list_find _ lines) as [[? ?]|].
Qed.

Lemma upsert_lines_nil k v : upsert_lines [] k v = [setting_line k v].
Proof. reflexivity. Qed.

Lemma upsert_lines_cons k v line lines :
  upsert_lines (line :: lines) k v
  = if JS.includes line k then setting_line k v :: lines
    else line :: upsert_lines lines k v.
Proof.
  unfold upsert_lines. rewrite first_match_cons.
  destruct (JS.includes line k); [done|].
  by destruct (first_match k lines).
Qed.

(** The first match, spelled out. *)
Lemma first_match_Some k lines i :
  first_match k lines = Some i <->
  exists line, lines !! i = Some line /\ JS.includes line k = true
    /\ forall j l, (j < i)%nat -> lines !! j = Some l -> JS.includes l k = false.
Proof.
  unfold first_match. split.
  - destruct (list_find _ lines) as [[i' line]|] eqn:E; [|done].
    intros [= <-]. apply list_find_Some in E as (Hi & Hin & Hbefore).
    exists line. repeat split; [done..|].
    intros j l Hj Hl. specialize (Hbefore j l Hl Hj).
    by destruct (JS.includes l k).
  - intros (line & Hi & Hin & Hbefore).
    assert (list_find (fun l => JS.includes l k = true) lines = Some (i, line))
      as ->; [|done].
    apply list_find_Some. repeat split; [done..|].
    intros j l Hl Hj. rewrite (Hbefore j l Hj Hl). done.
Qed.

Lemma first_match_None k lines :
  first_match k lines = None <->
  forall line, line ∈ lines -> JS.includes line k = false.
Proof.
  unfold first_match.
  destruct (list_find _ lines) as [[i' line]|] eqn:E.
  - apply list_find_Some in E as (Hi & Hin & _). split; [done|].
    intros H. apply list_elem_of_lookup_2 in Hi. rewrite (H _ Hi) in Hin. done.
  - split; [|done]. intros _ line Hin.
    apply list_find_None in E. rewrite Forall_forall in E.
    specialize (E line Hin). by destruct (JS.includes line k).
Qed.

(** The loop, started at the end of [pre], finds the first match of the
    lines still to be visited. *)
Lemma update_loop_from (pre rest : list string) k v :
  update_loop (length rest) (length pre) (pre ++ rest) k v
  = match first_match k rest with
    | Some j => (pre ++ <[j := setting_line k v]> rest, true)
    | None => (pre ++ rest, false)
    end.
Proof.
  revert pre. induction rest as [|line rest IH]; intros pre; [done|].
  cbn [length update_loop].
  rewrite lookup_app_r, Nat.sub_diag by lia. cbn [lookup list_lookup].
  rewrite first_match_cons. destruct (JS.includes line k) eqn:E.
  - f_equal. rewrite <- (Nat.add_0_r (length pre)) at 1.
    by rewrite insert_app_r.
  - specialize (IH (pre ++ [line])).
    rewrite length_app, Nat.add_1_r, <- app_assoc in IH. cbn [app] in IH.
    rewrite IH. destruct (first_match k rest) as [j|]; [|done].
    by rewrite <- app_assoc.
Qed.

Lemma updateConfigSetting_upsert (text k v : string) :
  updateConfigSetting text k v = JS.join (upsert_lines (JS.split text) k v).
Proof.
  unfold updateConfigSetting, upsert_lines.
  pose proof (update_loop_from [] (JS.split text) k v) as H.
  cbn [length app] in H. rewrite H.
  by destruct (first_match k (JS.split text)).
Qed.

Lemma upsert_lines_not_nil lines k v : upsert_lines lines k v <> [].
Proof.
  destruct lines as [|l ls]; [done|]. rewrite upsert_lines_cons.
  by destruct (JS.includes l k).
Qed.

Lemma upsert_lines_one_line lines k v :
  one_line k -> one_line v -> Forall one_line lines ->
  Forall one_line (upsert_lines lines k v).
Proof.
  intros Hk Hv. assert (one_line (setting_line k v)) as Hkv.
  { unfold setting_line. rewrite !one_line_app. by repeat split. }
  induction lines as [|l ls IH]; intros Hall.
  - rewrite upsert_lines_nil. by constructor.
  - apply Forall_cons in Hall as [Hl Hls]. rewrite upsert_lines_cons.
    destruct (JS.includes l k); constructor; auto.
Qed.

(** The last write wins on the array of lines. *)
Lemma upsert_lines_twice lines k v1 v2 :
  upsert_lines (upsert_lines lines k v1) k v2 = upsert_lines lines k v2.
Proof.
  induction lines as [|l ls IH].
  - rewrite !upsert_lines_nil, upsert_lines_cons.
    by rewrite includes_setting_line.
  - rewrite !(upsert_lines_cons _ _ l). destruct (JS.includes l k) eqn:E.
    + by rewrite upsert_lines_cons, includes_setting_line.
    + by rewrite upsert_lines_cons, E, IH.
Qed.

Lemma filter_none (f : string -> bool) lines :
  (forall line, line ∈ lines -> f line = false) -> List.filter f lines = [].
Proof.
  induction lines as [|l ls IH]; intros H; [done|]. cbn [List.filter].
  rewrite (H l) by apply list_elem_of_here. apply IH.
  intros line Hin. apply H. by apply list_elem_of_further.
Qed.

(** When a defining line can only be the first match, the upsert leaves
    exactly one defining line. *)
Lemma upsert_lines_single lines k v :
  (forall i line, lines !! i = Some line -> defines k line = true ->
     forall j l, (j < i)%nat -> lines !! j = Some l -> JS.includes l k = false) ->
  List.filter (defines k) (upsert_lines lines k v) = [setting_line k v].
Proof.
  induction lines as [|l ls IH]; intros H.
  - rewrite upsert_lines_nil. cbn [List.filter].
    by rewrite defines_setting_line.
  - rewrite upsert_lines_cons. destruct (JS.includes l k) eqn:E.
    + cbn [List.filter]. rewrite defines_setting_line. f_equal.
      apply filter_none. intros line Hin.
      destruct (defines k line) eqn:D; [|done].
      apply list_elem_of_lookup in Hin as [i Hi].
      specialize (H (S i) line Hi D 0%nat l (Nat.lt_0_succ _) eq_refl).
      congruence.
    + cbn [List.filter]. destruct (defines k l) eqn:D.
      { apply defines_includes in D. congruence. }
      apply IH. intros i line Hi Hd j l' Hj Hl'.
      apply (H (S i) line Hi Hd (S j) l'); [lia|done].
Qed.

End Upsert.

(** ** Properties of the configuration document *)

(** C2 (amended). For every document text and every (key, value): if some
    line contains [key] as a substring, the first such line is replaced in
    place by [key=value]; otherwise [key=value] is appended as a new last
    line; no other line is changed. *)
Theorem updateConfigSetting_first_match (text k v : string) :
  let lines := JS.split text in
  (exists i line,
      lines !! i = Some line /\ JS.includes line k = true
      /\ (forall j l, (j < i)%nat -> lines !! j = Some l -> JS.includes l k = false)
      /\ updateConfigSetting text k v = JS.join (<[i := setting_line k v]> lines))
  \/ ((forall line, line ∈ lines -> JS.includes line k = false)
      /\ updateConfigSetting text k v = JS.join (lines ++ [setting_line k v])).
Proof.
  intros lines. rewrite updateConfigSetting_upsert. fold lines.
  unfold upsert_lines. destruct (first_match k lines) as [i|] eqn:E.
  - left. apply first_match_Some in E as (line & Hi & Hin & Hbefore).
    exists i, line. auto.
  - right. split; [|done]. by apply first_match_None.
Qed.

(** C2 (as stated) fails: the comment line that merely mentions the key is
    overwritten, and the line that defines the key is left as it was. *)
Lemma updateConfigSetting_overwrites_comment :
  updateConfigSetting commented_config "enable_plugins_loader" "1"
  = "enable_plugins_loader=1" +:+ String JS.nl "enable_plugins_loader=0"
  /\ ~ upsert_of_defining_line commented_config "enable_plugins_loader" "1"
        (updateConfigSetting commented_config "enable_plugins_loader" "1").
Proof.
  split; [by vm_compute|].
  intros [(i & line & Hi & Hd & Hres) | [Hnone _]].
  - destruct i as [|[|i]]; vm_compute in Hi; [| |done].
    + injection Hi as <-. vm_compute in Hd. done.
    + vm_compute in Hres. done.
  - specialize (Hnone "enable_plugins_loader=0").
    assert (defines "enable_plugins_loader" "enable_plugins_loader=0" = true)
      as Hd by (by vm_compute).
    rewrite Hnone in Hd; [done|].
    vm_compute. apply list_elem_of_further, list_elem_of_here.
Qed.

(** C3 (amended). For every document text and every key and values
    without a line break: upserting (key, value1) twice gives the same
    document as upserting it once; upserting (key, value1) and then
    (key, value2) gives the same document as upserting (key, value2)
    alone; and when a line of the document that defines the key can
    only be the first line containing it, the result has exactly one line
    defining the key, with value2. *)
Theorem upsert_idempotent_last_wins (text k v1 v2 : string) :
  one_line k -> one_line v1 -> one_line v2 ->
  updateConfigSetting (updateConfigSetting text k v1) k v1
  = updateConfigSetting text k v1
  /\ updateConfigSetting (updateConfigSetting text k v1) k v2
     = updateConfigSetting text k v2
  /\ ((forall i line, JS.split text !! i = Some line -> defines k line = true ->
         forall j l, (j < i)%nat -> JS.split text !! j = Some l ->
                     JS.includes l k = false) ->
      exactly_one_definition k v2
        (updateConfigSetting (updateConfigSetting text k v1) k v2)).
Proof.
  intros Hk Hv1 Hv2.
  assert (forall v, one_line v ->
            updateConfigSetting (updateConfigSetting text k v1) k v
            = updateConfigSetting text k v) as Htwice.
  { intros v Hv. rewrite !updateConfigSetting_upsert.
    rewrite split_join.
    - by rewrite upsert_lines_twice.
    - apply upsert_lines_not_nil.
    - apply upsert_lines_one_line; [done..|]. apply split_lines_one_line. }
  split; [by apply Htwice|]. split; [by apply Htwice|].
  intros Hfirst. unfold exactly_one_definition.
  rewrite (Htwice v2 Hv2), updateConfigSetting_upsert, split_join.
  - by apply upsert_lines_single.
  - apply upsert_lines_not_nil.
  - apply upsert_lines_one_line; [done..|]. apply split_lines_one_line.
Qed.

Lemma upsert_idempotent_last_wins_witness :
  let text := "ftp_port=21" +:+ String JS.nl "enable_ftp_server=0" in
  (one_line "enable_ftp_server" /\ one_line "0" /\ one_line "1")
  /\ updateConfigSetting (updateConfigSetting text "enable_ftp_server" "0")
       "enable_ftp_server" "0"
     = updateConfigSetting text "enable_ftp_server" "0"
  /\ updateConfigSetting (updateConfigSetting text "enable_ftp_server" "0")
       "enable_ftp_server" "1"
     = updateConfigSetting text "enable_ftp_server" "1"
  /\ exactly_one_definition "enable_ftp_server" "1"
       (updateConfigSetting (updateConfigSetting text "enable_ftp_server" "0")
          "enable_ftp_server" "1").
Proof.
  intros text. split; [by vm_compute|].
  destruct (upsert_idempotent_last_wins text "enable_ftp_server" "0" "1")
    as (H1 & H2 & H3); [by vm_compute..|].
  split; [exact H1|]. split; [exact H2|]. apply H3.
  intros i line Hi Hd j l Hj Hl.
  destruct i as [|[|i]]; vm_compute in Hi; [| |done].
  - injection Hi as <-. vm_compute in Hd. done.
  - destruct j as [|j]; [|lia]. vm_compute in Hl. injection Hl as <-.
    by vm_compute.
Defined.

(** C3 (as stated) fails twice: a value holding a line break is not
    upserted idempotently, and a document whose comment names the key
    ends with two lines defining it. *)
Lemma upsert_twice_not_single :
  updateConfigSetting (updateConfigSetting "x" "mode" two_line_value)
    "mode" two_line_value
  <> updateConfigSetting "x" "mode" two_line_value
  /\ ~ exactly_one_definition "enable_plugins_loader" "1"
        (updateConfigSetting
           (updateConfigSetting commented_config "enable_plugins_loader" "0")
           "enable_plugins_loader" "1").
Proof. split; by vm_compute. Qed.

(** ** Searching a text with a separator *)

Section Search.

Implicit Types (a b s needle : string) (c : ascii).

Lemma includes_char_cons c x s :
  JS.includes (String x s) (String c EmptyString)
  = bool_decide (c = x) || JS.includes s (String c EmptyString).
Proof. cbn [JS.includes]. by rewrite prefix_cons, prefix_empty, andb_true_r. Qed.

(** A needle without [c] cannot reach across an occurrence of [c]. *)
Lemma prefix_before_sep needle a c b :
  JS.includes needle (String c EmptyString) = false ->
  String.prefix needle (a +:+ String c b) = String.prefix needle a.
Proof.
  revert needle. induction a as [|x a IH]; intros needle Hc.
  - rewrite app_empty_l. destruct needle as [|d n]; [done|].
    rewrite includes_char_cons in Hc. apply orb_false_iff in Hc as [Hd _].
    apply bool_decide_eq_false in Hd.
    by rewrite prefix_cons, bool_decide_eq_false_2 by congruence.
  - rewrite app_cons. destruct needle as [|d n]; [done|].
    rewrite includes_char_cons in Hc. apply orb_false_iff in Hc as [_ Hn].
    by rewrite !prefix_cons, IH.
Qed.

Lemma includes_app_sep needle a c b :
  JS.includes needle (String c EmptyString) = false ->
  JS.includes (a +:+ String c b) needle
  = JS.includes a needle || JS.includes b needle.
Proof.
  intros Hc. induction a as [|x a IH].
  - rewrite app_empty_l. cbn [JS.includes].
    rewrite <- (app_empty_l (String c b)), prefix_before_sep by done.
    by rewrite orb_false_r.
  - rewrite app_cons. cbn [JS.includes].
    rewrite <- app_cons, prefix_before_sep, IH by done.
    by rewrite orb_assoc.
Qed.

(** A needle occurs only where its first character does. *)
Lemma includes_first_char s c needle :
  JS.includes s (String c EmptyString) = false ->
  JS.includes s (String c needle) = false.
Proof.
  induction s as [|x s IH]; [done|].
  rewrite includes_char_cons. intros [Hx Hs]%orb_false_iff.
  cbn [JS.includes]. by rewrite prefix_cons, Hx, IH.
Qed.

Lemma all_chars_app p a b :
  all_chars p (a +:+ b) = all_chars p a && all_chars p b.
Proof.
  induction a as [|x a IH]; [done|].
  rewrite app_cons. cbn [all_chars]. by rewrite IH, andb_assoc.
Qed.

Lemma all_chars_excludes p s c :
  p c = false -> all_chars p s = true ->
  JS.includes s (String c EmptyString) = false.
Proof.
  intros Hc. induction s as [|x s IH]; [done|].
  cbn [all_chars]. intros [Hx Hs]%andb_true_iff.
  rewrite includes_char_cons, (IH Hs), orb_false_r.
  apply bool_decide_eq_false. intros ->. congruence.
Qed.

End Search.

(** ** The time stamp *)

Section TimeStamp.

Lemma all_chars_zeros n : all_chars iso_char (zeros n) = true.
Proof. induction n as [|n IH]; [done|]. exact IH. Qed.

Lemma all_chars_uint (u : Decimal.uint) :
  all_chars iso_char (NilEmpty.string_of_uint u) = true.
Proof. induction u; done. Qed.

Lemma all_chars_decimal (n : N) : all_chars iso_char (decimal n) = true.
Proof.
  unfold decimal, NilZero.string_of_uint.
  destruct (N.to_uint n) eqn:E; [done|..]; apply all_chars_uint.
Qed.

Lemma all_chars_pad width n : all_chars iso_char (pad width n) = true.
Proof.
  unfold pad. by rewrite all_chars_app, all_chars_zeros, all_chars_decimal.
Qed.

Lemma all_chars_iso_year y : all_chars iso_char (iso_year y) = true.
Proof.
  unfold iso_year. destruct (_ && _); [apply all_chars_pad|].
  rewrite all_chars_app, all_chars_pad. by destruct (y <? 0)%Z.
Qed.

Lemma all_chars_toISOString (d : Date) :
  all_chars iso_char (toISOString d) = true.
Proof.
  unfold toISOString.
  by rewrite !all_chars_app, all_chars_iso_year, !all_chars_pad.
Qed.

Lemma optimal_config_text_head (now : Date) :
  optimal_config_text now
  = optimal_head +:+ String " " (toISOString now +:+ String JS.nl "").
Proof. reflexivity. Qed.

End TimeStamp.

(** ** Properties of the configuration manager *)

(** C6. For every manifest text, [parsePluginsList] returns exactly the
    lines that are not blank once trimmed, do not start with '[' or '#'
    and contain '.prx', each trimmed, in the order of the file; a
    manifest with a '[default]' header, a '#' comment, a blank line and
    two '.prx' paths yields those two paths in order. *)
Theorem parsePluginsList_entries (plugins_text : string) :
  parsePluginsList plugins_text
  = JS.trim <$> filter plugin_entry (JS.split plugins_text)
  /\ parsePluginsList sample_manifest
     = [ "/data/GoldHEN/plugins/game_patch.prx";
         "/data/GoldHEN/plugins/cheat_manager.prx" ]
  /\ parsePluginsList DEFAULT_PLUGINS_CONFIG
     = [ "/data/GoldHEN/plugins/game_patch.prx";
         "/data/GoldHEN/plugins/cheat_manager.prx" ].
Proof.
  split; [|split; by vm_compute].
  unfold parsePluginsList.
  assert (forall lines acc,
            foldl plugin_line_step acc lines
            = acc ++ (JS.trim <$> filter plugin_entry lines)) as H.
  { induction lines as [|line lines IH]; intros acc.
    - by rewrite app_nil_r.
    - cbn [foldl]. rewrite IH, filter_cons. unfold plugin_line_step.
      destruct (decide (plugin_entry line)) as [Hp|Hp].
      + destruct Hp as (Ht & Hb & Hh & Hx). rewrite Hb, Hh, Hx.
        destruct (JS.trim line) as [|c t] eqn:Et; [done|].
        cbn [JS.truthy andb negb]. rewrite fmap_cons, Et.
        by rewrite <- app_assoc.
      + destruct (JS.truthy (JS.trim line)) eqn:Et; [|done].
        destruct (JS.startsWith (JS.trim line) "[") eqn:Eb; [done|].
        destruct (JS.startsWith (JS.trim line) "#") eqn:Eh; [done|].
        destruct (JS.includes (JS.trim line) ".prx") eqn:Ex; [|done].
        exfalso. apply Hp. repeat split; try done.
        intros E. by rewrite E in Et. }
  apply (H _ []).
Qed.

(** C9. Whenever [createOptimalConfig] is called, it returns a text that
    [validateGoldHENConfig] reports as valid, with score 100 and no
    issue. *)
Theorem createOptimalConfig_valid (w : world) :
  exists text w',
    createOptimalConfig w = (Ok text, w')
    /\ validateGoldHENConfig text
       = {| isValid := true; issues := []; score := 100 |}.
Proof.
  eexists _, _. split; [reflexivity|].
  set (now := clock _ _). clearbody now.
  assert (JS.includes (optimal_config_text now) "enable_plugins_loader=1" = true
          /\ JS.includes (optimal_config_text now) "enable_game_patch_plugin=1" = true
          /\ JS.includes (optimal_config_text now) "enable_homebrew_blocker=1" = false
          /\ JS.includes (optimal_config_text now) "enable_ftp_server=1" = true)
    as (H1 & H2 & H3 & H4).
  { rewrite optimal_config_text_head, !includes_app_sep by by vm_compute.
    assert (JS.includes (toISOString now) "enable_homebrew_blocker=1" = false)
      as ->.
    { apply includes_first_char, all_chars_excludes with iso_char;
        [done|apply all_chars_toISOString]. }
    repeat split; by vm_compute. }
  unfold validateGoldHENConfig, push_if. rewrite H1, H2, H3, H4. reflexivity.
Qed.

(** ** Reasoning about computations *)

Section Computations.

Context {A B : Type}.
Implicit Types (w : world) (t : list event) (P : event -> bool).

Lemma append_trace_nil w : append_trace w [] = w.
Proof. destruct w. unfold append_trace. cbn. by rewrite app_nil_r. Qed.

Lemma append_trace_app w t1 t2 :
  append_trace (append_trace w t1) t2 = append_trace w (t1 ++ t2).
Proof. unfold append_trace. cbn. by rewrite app_assoc. Qed.

Lemma record_append e w : record e w = append_trace w [e].
Proof. reflexivity. Qed.

Lemma bind_Ok (m : M A) (k : A -> M B) w a w' :
  m w = (Ok a, w') -> bind m k w = k a w'.
Proof. unfold bind. by intros ->. Qed.

Lemma bind_Exn (m : M A) (k : A -> M B) w e w' :
  m w = (Exn e, w') -> bind m k w = (Exn e, w').
Proof. unfold bind. by intros ->. Qed.

Lemma try_catch_Ok (m : M A) h w a w' :
  m w = (Ok a, w') -> try_catch m h w = (Ok a, w').
Proof. unfold try_catch. by intros ->. Qed.

Lemma try_catch_Exn (m : M A) h w e w' :
  m w = (Exn e, w') -> try_catch m h w = h e w'.
Proof. unfold try_catch. by intros ->. Qed.

Lemma safe_only P (m : M A) : safe P m -> only P m.
Proof. intros H w. destruct (H w) as (a & t & E & F). eauto. Qed.

Lemma only_weaken P Q (m : M A) :
  (forall e, P e = true -> Q e = true) -> only P m -> only Q m.
Proof.
  intros HPQ H w. destruct (H w) as (r & t & E & F).
  exists r, t. split; [done|].
  rewrite forallb_forall in *. auto.
Qed.

Lemma safe_weaken P Q (m : M A) :
  (forall e, P e = true -> Q e = true) -> safe P m -> safe Q m.
Proof.
  intros HPQ H w. destruct (H w) as (r & t & E & F).
  exists r, t. split; [done|].
  rewrite forallb_forall in *. auto.
Qed.

Lemma safe_ret P (a : A) : safe P (ret a).
Proof. intros w. exists a, []. by rewrite append_trace_nil. Qed.

Lemma only_bind P (m : M A) (k : A -> M B) :
  only P m -> (forall a, only P (k a)) -> only P (bind m k).
Proof.
  intros Hm Hk w. destruct (Hm w) as ([a|e] & t & E & F).
  - destruct (Hk a (append_trace w t)) as (r & t' & E' & F').
    exists r, (t ++ t'). rewrite (bind_Ok _ _ _ _ _ E), E', append_trace_app.
    by rewrite forallb_app, F, F'.
  - exists (Exn e), t. by rewrite (bind_Exn _ _ _ _ _ E).
Qed.

Lemma safe_bind P (m : M A) (k : A -> M B) :
  safe P m -> (forall a, safe P (k a)) -> safe P (bind m k).
Proof.
  intros Hm Hk w. destruct (Hm w) as (a & t & E & F).
  destruct (Hk a (append_trace w t)) as (r & t' & E' & F').
  exists r, (t ++ t'). rewrite (bind_Ok _ _ _ _ _ E), E', append_trace_app.
  by rewrite forallb_app, F, F'.
Qed.

Lemma safe_try_catch P (m : M A) h :
  only P m -> (forall e, safe P (h e)) -> safe P (try_catch m h).
Proof.
  intros Hm Hh w. destruct (Hm w) as ([a|e] & t & E & F).
  - exists a, t. by rewrite (try_catch_Ok _ _ _ _ _ E).
  - destruct (Hh e (append_trace w t)) as (r & t' & E' & F').
    exists r, (t ++ t'). rewrite (try_catch_Exn _ _ _ _ _ E), E', append_trace_app.
    by rewrite forallb_app, F, F'.
Qed.

End Computations.

Section Primitives.

Implicit Types (w : world) (P : event -> bool).

Lemma safe_log P msg : P (Log msg) = true -> safe P (log msg).
Proof. intros H w. exists tt, [Log msg]. cbn. by rewrite H. Qed.

Lemma safe_sleep P ms : P (Sleep ms) = true -> safe P (sleep ms).
Proof. intros H w. exists tt, [Sleep ms]. cbn. by rewrite H. Qed.

Lemma only_sysi_buf P chain call :
  (forall res, P (Syscall call res) = true) -> only P (sysi_buf chain call).
Proof.
  intros H w. unfold sysi_buf.
  destruct (answer chain (trace w) call) as [z s|e] eqn:E.
  - exists (Ok (z, s)), [Syscall call (Returns z s)]. cbn. by rewrite H.
  - exists (Exn e), [Syscall call (Throws e)]. cbn. by rewrite H.
Qed.

Lemma only_sysi P chain call :
  (forall res, P (Syscall call res) = true) -> only P (sysi chain call).
Proof.
  intros H. apply only_bind; [by apply only_sysi_buf|].
  intros a. apply safe_only, safe_ret.
Qed.

Lemma safe_for_of {A} P (xs : list A) body :
  (forall x, safe P (body x)) -> safe P (for_of xs body).
Proof.
  intros H. induction xs as [|x xs IH]; [apply safe_ret|].
  cbn [for_of]. apply safe_bind; auto.
Qed.

Lemma new_Date_safe P : safe P new_Date.
Proof. intros w. exists (clock w (trace w)), []. by rewrite append_trace_nil. Qed.

End Primitives.

(** One step of the analysis of a computation by its syntax. *)
Ltac io_step :=
  lazymatch goal with
  | |- safe _ (bind _ _) => apply safe_bind; [|intros ?]
  | |- only _ (bind _ _) => apply only_bind; [|intros ?]
  | |- safe _ (try_catch _ _) => apply safe_try_catch; [|intros ?]
  | |- safe _ (ret _) => apply safe_ret
  | |- safe _ (log _) => apply safe_log; reflexivity
  | |- safe _ (sleep _) => apply safe_sleep; reflexivity
  | |- safe _ (for_of _ _) => apply safe_for_of; intros ?
  | |- safe _ new_Date => apply new_Date_safe
  | |- only _ (sysi _ _) => apply only_sysi; intros ?; reflexivity
  | |- only _ (sysi_buf _ _) => apply only_sysi_buf; intros ?; reflexivity
  | |- _ (if ?b then _ else _) => destruct b
  | |- _ (let '(_, _) := ?r in _) => destruct r
  | |- _ (match ?o with Some _ => _ | None => _ end) => destruct o
  | |- only _ _ => apply safe_only
  end.

Ltac io := repeat io_step.

(** ** What each function records *)

Section Emissions.

Variable chain : Chain.

Lemma modifyGoldHENSetting_safe path k v :
  safe file_io (modifyGoldHENSetting chain path k v).
Proof. unfold modifyGoldHENSetting. io. Qed.

Lemma unloadPlugins_safe : safe unload_io (unloadPlugins chain).
Proof. unfold unloadPlugins. io. Qed.

Lemma loadPlugins_safe path : safe load_io (loadPlugins chain path).
Proof. unfold loadPlugins. io. Qed.

Lemma file_io_quiet e : file_io e = true -> quiet e = true.
Proof. unfold file_io. by intros [[? ?]%andb_true_iff ?]%andb_true_iff. Qed.

Lemma unload_io_quiet e : unload_io e = true -> quiet e = true.
Proof. unfold unload_io. by intros [? ?]%andb_true_iff. Qed.

Lemma load_io_quiet e : load_io e = true -> quiet e = true.
Proof. unfold load_io. by intros [? ?]%andb_true_iff. Qed.

Lemma forcePluginsReload_safe payload :
  safe quiet (forcePluginsReload chain payload).
Proof.
  unfold forcePluginsReload. io.
  - apply (safe_weaken _ _ _ unload_io_quiet), unloadPlugins_safe.
  - apply (safe_weaken _ _ _ load_io_quiet), loadPlugins_safe.
Qed.

Lemma reactivatePlugins_safe payload :
  safe quiet (reactivatePlugins chain payload).
Proof.
  unfold reactivatePlugins. io.
  - apply (safe_weaken _ _ _ file_io_quiet), modifyGoldHENSetting_safe.
  - apply forcePluginsReload_safe.
Qed.

Lemma fixGoldHENPlugins_safe : safe quiet (fixGoldHENPlugins chain).
Proof. unfold fixGoldHENPlugins. io. apply reactivatePlugins_safe. Qed.

Lemma optimizeGoldHENConfig_safe : safe quiet (optimizeGoldHENConfig chain).
Proof. unfold optimizeGoldHENConfig, createOptimalConfig. io. Qed.

End Emissions.

(** ** The gate and the verifier *)

Section Gate.

Implicit Types (w : world).

Lemma bind_log {B} msg (k : unit -> M B) w :
  bind (log msg) k w = k tt (append_trace w [Log msg]).
Proof. reflexivity. Qed.

Lemma bind_sleep {B} ms (k : unit -> M B) w :
  bind (sleep ms) k w = k tt (append_trace w [Sleep ms]).
Proof. reflexivity. Qed.

Lemma shouldApplyPluginsFix_run w :
  shouldApplyPluginsFix w
  = (Ok (negb (is_item (localStorage w !! flag_key) "true"
               || is_item (sessionStorage w !! flag_key) "true")), w).
Proof.
  unfold shouldApplyPluginsFix, bind, local_getItem, session_getItem.
  destruct (is_item (localStorage w !! flag_key) "true"); [done|].
  by destruct (is_item (sessionStorage w !! flag_key) "true").
Qed.

Lemma shouldApplyPluginsFix_true w :
  fst (shouldApplyPluginsFix w) = Ok true <->
  localStorage w !! flag_key <> Some "true"
  /\ sessionStorage w !! flag_key <> Some "true".
Proof.
  rewrite shouldApplyPluginsFix_run. cbn [fst]. unfold is_item.
  do 2 case_bool_decide; cbn; split; try done; try tauto.
  all: intros [? ?]; done.
Qed.

End Gate.

Section Orchestrator.

Variable chain : Chain.

Lemma verifyFixApplication_unmarked w :
  localStorage w !! flag_key <> Some "true" ->
  sessionStorage w !! flag_key <> Some "true" ->
  exists third,
    verifyFixApplication w
    = (Ok {| VerificationReport.success := false;
             VerificationReport.checks :=
               [local_flag_not_set; session_flag_not_set; third];
             VerificationReport.issues :=
               local_flag_not_set :: session_flag_not_set
               :: List.filter
                    (fun check => negb (VerificationCheck.success check))
                    [third] |}, w).
Proof.
  intros Hl Hs. eexists.
  unfold verifyFixApplication, bind, local_getItem, session_getItem, ret, is_item.
  rewrite (bool_decide_eq_false_2 _ Hl), (bool_decide_eq_false_2 _ Hs).
  reflexivity.
Qed.

(** Past the gate, the run ends in the branch that reports issues. *)
Lemma autoFixGoldHEN_unmarked w :
  localStorage w !! flag_key <> Some "true" ->
  sessionStorage w !! flag_key <> Some "true" ->
  exists third t,
    autoFixGoldHEN chain w
    = (Ok {| FixResult.success := false; FixResult.skipped := None;
             FixResult.pluginsFix := None; FixResult.configOptimized := None;
             FixResult.verified := None;
             FixResult.issues :=
               Some (local_flag_not_set :: session_flag_not_set :: third);
             FixResult.error := None |},
       append_trace w t)
    /\ forallb quiet t = true.
Proof.
  intros Hl Hs. unfold autoFixGoldHEN. rewrite bind_log.
  set (w1 := append_trace w _).
  assert (shouldApplyPluginsFix w1 = (Ok true, w1)) as Egate.
  { rewrite shouldApplyPluginsFix_run. unfold is_item. cbn [w1 append_trace localStorage sessionStorage].
    by rewrite (bool_decide_eq_false_2 _ Hl), (bool_decide_eq_false_2 _ Hs). }
  unfold try_catch. rewrite (bind_Ok _ _ _ _ _ Egate). cbn [negb].
  rewrite !bind_log, bind_sleep, bind_log.
  match goal with
  | |- context [bind (fixGoldHENPlugins chain) ?k ?w'] =>
      destruct (fixGoldHENPlugins_safe chain w') as (b & t1 & E1 & F1);
      rewrite (bind_Ok _ k _ _ _ E1)
  end.
  assert (exists t2,
            (if negb b then log "Warning: Plugins fix failed, but continuing..."
             else ret tt) (append_trace (append_trace (append_trace (append_trace w1
               [Log "Waiting for GoldHEN to fully initialize..."]) [Sleep 1500])
               [Log "Applying plugins reactivation fix..."]) t1)
            = (Ok tt, append_trace (append_trace (append_trace (append_trace
                 (append_trace w1
               [Log "Waiting for GoldHEN to fully initialize..."]) [Sleep 1500])
               [Log "Applying plugins reactivation fix..."]) t1) t2)
            /\ forallb quiet t2 = true) as (t2 & E2 & F2).
  { destruct b; cbn [negb].
    - exists []. by rewrite append_trace_nil.
    - by exists [Log "Warning: Plugins fix failed, but continuing..."]. }
  rewrite (bind_Ok _ _ _ _ _ E2), bind_log.
  match goal with
  | |- context [bind (optimizeGoldHENConfig chain) ?k ?w'] =>
      destruct (optimizeGoldHENConfig_safe chain w') as (b3 & t3 & E3 & F3);
      rewrite (bind_Ok _ k _ _ _ E3)
  end.
  rewrite bind_log.
  match goal with
  | |- context [bind verifyFixApplication ?k ?w'] =>
      destruct (verifyFixApplication_unmarked w' Hl Hs) as (third & E4);
      rewrite (bind_Ok _ k _ _ _ E4)
  end.
  cbn [VerificationReport.success VerificationReport.issues].
  rewrite bind_log. unfold ret, w1. rewrite !append_trace_app.
  eexists _, _. split; [reflexivity|].
  rewrite !forallb_app, F1, F2, F3. reflexivity.
Qed.

(** C1. On every run that the gate lets through ([shouldApplyPluginsFix]
    returns true), [autoFixGoldHEN] returns a result with success=false
    whose first two issues are the local and the session flag checks,
    and [markPluginsFixApplied] is not called: both storages are left as
    they were and its log line is not recorded. *)
Theorem autoFixGoldHEN_never_marks (w : world) :
  fst (shouldApplyPluginsFix w) = Ok true ->
  exists r third t,
    autoFixGoldHEN chain w = (Ok r, append_trace w t)
    /\ FixResult.success r = false
    /\ FixResult.issues r
       = Some (local_flag_not_set :: session_flag_not_set :: third)
    /\ localStorage (append_trace w t) = localStorage w
    /\ sessionStorage (append_trace w t) = sessionStorage w
    /\ Log mark_message ∉ t.
Proof.
  intros [Hl Hs]%shouldApplyPluginsFix_true.
  destruct (autoFixGoldHEN_unmarked w Hl Hs) as (third & t & E & F).
  eexists _, third, t. split; [exact E|]. repeat split.
  intros Hin. rewrite forallb_forall in F.
  apply list_elem_of_In, F in Hin. by vm_compute in Hin.
Qed.

End Orchestrator.

Lemma autoFixGoldHEN_never_marks_witness :
  fst (shouldApplyPluginsFix fresh_world) = Ok true
  /\ exists r third t,
      autoFixGoldHEN idle_chain fresh_world = (Ok r, append_trace fresh_world t)
      /\ FixResult.success r = false
      /\ FixResult.issues r
         = Some (local_flag_not_set :: session_flag_not_set :: third)
      /\ localStorage (append_trace fresh_world t) = localStorage fresh_world
      /\ sessionStorage (append_trace fresh_world t) = sessionStorage fresh_world
      /\ Log mark_message ∉ t.
Proof.
  split; [reflexivity|].
  apply (autoFixGoldHEN_never_marks idle_chain fresh_world). reflexivity.
Defined.

Section GateActions.

Implicit Types (w : world) (a : gate_action).

Lemma shouldApplyPluginsFix_false w :
  fst (shouldApplyPluginsFix w) = Ok false <-> marked w.
Proof.
  rewrite shouldApplyPluginsFix_run. cbn [fst]. unfold is_item, marked.
  do 2 case_bool_decide; cbn; split; try done; try tauto.
  all: by intros [?|?].
Qed.

Lemma shouldApplyPluginsFix_order w :
  shouldApplyPluginsFix_session_first w = shouldApplyPluginsFix w.
Proof.
  rewrite shouldApplyPluginsFix_run.
  unfold shouldApplyPluginsFix_session_first, bind, local_getItem,
    session_getItem.
  destruct (is_item (sessionStorage w !! flag_key) "true");
    destruct (is_item (localStorage w !! flag_key) "true"); done.
Qed.

Lemma markPluginsFixApplied_marked w :
  localStorage (snd (markPluginsFixApplied w)) !! flag_key = Some "true"
  /\ sessionStorage (snd (markPluginsFixApplied w)) !! flag_key = Some "true".
Proof. cbn. by rewrite !lookup_insert_eq. Qed.

Lemma resetPluginsFixFlag_unmarked w :
  fst (shouldApplyPluginsFix (snd (resetPluginsFixFlag w))) = Ok true.
Proof.
  apply shouldApplyPluginsFix_true. cbn. by rewrite !lookup_delete_eq.
Qed.

(** A run of [autoFixGoldHEN] leaves both storages as they were. *)
Lemma autoFixGoldHEN_storages chain w :
  exists r t, autoFixGoldHEN chain w = (Ok r, append_trace w t).
Proof.
  destruct (decide (marked w)) as [Hm|Hm].
  - apply shouldApplyPluginsFix_false in Hm.
    rewrite shouldApplyPluginsFix_run in Hm. cbn [fst] in Hm.
    injection Hm as Hm.
    unfold autoFixGoldHEN. rewrite bind_log. unfold try_catch.
    erewrite bind_Ok; [|apply shouldApplyPluginsFix_run].
    cbn [append_trace localStorage sessionStorage]. rewrite Hm. cbn [negb].
    rewrite bind_log. unfold ret. rewrite append_trace_app. eauto.
  - destruct (autoFixGoldHEN_unmarked chain w) as (third & t & E & _).
    + intros H. apply Hm. by left.
    + intros H. apply Hm. by right.
    + eauto.
Qed.

Lemma run_action_marked a w :
  resets a = false -> marked w -> marked (run_action a w).
Proof.
  intros Ha Hm. destruct a as [| | | | |chain|chain]; try done.
  - unfold run_action. by rewrite shouldApplyPluginsFix_run.
  - left. apply markPluginsFixApplied_marked.
  - destruct Hm as [Hm|Hm]; [left|right]; cbn; [done|].
    by rewrite lookup_insert_ne.
  - unfold run_action.
    destruct (autoFixGoldHEN_storages chain w) as (r & t & ->). done.
Qed.

Lemma run_actions_marked acts w :
  Forall (fun a => resets a = false) acts -> marked w ->
  marked (run_actions acts w).
Proof.
  unfold run_actions. revert w.
  induction acts as [|a acts IH]; intros w Hacts Hm; [done|].
  apply Forall_cons in Hacts as [Ha Hacts]. cbn [foldl].
  apply IH; [done|]. by apply run_action_marked.
Qed.

End GateActions.

(** C4. From every state of the two storages: once [markPluginsFixApplied]
    has run, [shouldApplyPluginsFix] returns false after any actions of
    the scripts that do not run [resetPluginsFixFlag], and returns true
    again once it is run; [shouldApplyPluginsFix] returns false exactly
    when the local or the session storage holds the flag, whichever of
    the two is asked first. *)
Theorem gate_suppresses_rerun (w : world) (acts : list gate_action) :
  Forall (fun a => resets a = false) acts ->
  let w' := run_actions acts (snd (markPluginsFixApplied w)) in
  fst (shouldApplyPluginsFix w') = Ok false
  /\ fst (shouldApplyPluginsFix (snd (resetPluginsFixFlag w'))) = Ok true
  /\ (forall w0, fst (shouldApplyPluginsFix w0) = Ok false <->
                 localStorage w0 !! flag_key = Some "true"
                 \/ sessionStorage w0 !! flag_key = Some "true")
  /\ (forall w0, shouldApplyPluginsFix_session_first w0
                 = shouldApplyPluginsFix w0).
Proof.
  intros Hacts w'. split; [|split; [|split]].
  - apply shouldApplyPluginsFix_false, run_actions_marked; [done|].
    left. apply markPluginsFixApplied_marked.
  - apply resetPluginsFixFlag_unmarked.
  - apply shouldApplyPluginsFix_false.
  - apply shouldApplyPluginsFix_order.
Qed.

Lemma gate_suppresses_rerun_witness :
  let acts := [DoShouldApply; DoAutoFix idle_chain; DoVerify; DoDisplaySuccess] in
  Forall (fun a => resets a = false) acts
  /\ fst (shouldApplyPluginsFix
            (run_actions acts (snd (markPluginsFixApplied fresh_world))))
     = Ok false.
Proof.
  intros acts.
  assert (Forall (fun a => resets a = false) acts) as H
    by (repeat constructor).
  split; [exact H|].
  exact (proj1 (gate_suppresses_rerun fresh_world acts H)).
Defined.

(** ** The configuration patcher *)

Section Patcher.

Variable chain : Chain.
Implicit Types (w : world) (path k v : string).

Lemma modifyGoldHENSetting_run path k v w :
  exists b s,
    modifyGoldHENSetting chain path k v w
    = (Ok b, append_trace w (Log (setting_message k v) :: s))
    /\ forallb file_io s = true.
Proof.
  unfold modifyGoldHENSetting. rewrite bind_log.
  match goal with
  | |- context [try_catch ?m ?h _] =>
      assert (safe file_io (try_catch m h)) as Hs by io
  end.
  destruct (Hs (append_trace w [Log ("Setting " +:+ k +:+ " = " +:+ v)]))
    as (b & s & E & F).
  exists b, s. by rewrite E, append_trace_app.
Qed.

Lemma bind_ret {A B} (a : A) (k : A -> M B) w : bind (ret a) k w = k a w.
Proof. reflexivity. Qed.

Lemma bind_bind {A B C} (m : M A) (k1 : A -> M B) (k2 : B -> M C) w :
  bind (bind m k1) k2 w = bind m (fun a => bind (k1 a) k2) w.
Proof. unfold bind. by destruct (m w) as [[a|e] w']. Qed.

Lemma sysi_buf_Returns call w z s :
  answer chain (trace w) call = Returns z s ->
  sysi_buf chain call w
  = (Ok (z, s), append_trace w [Syscall call (Returns z s)]).
Proof. unfold sysi_buf. by intros ->. Qed.

Lemma sysi_buf_Throws call w e :
  answer chain (trace w) call = Throws e ->
  sysi_buf chain call w = (Exn e, append_trace w [Syscall call (Throws e)]).
Proof. unfold sysi_buf. by intros ->. Qed.

Lemma sysi_Returns call w z s :
  answer chain (trace w) call = Returns z s ->
  sysi chain call w = (Ok z, append_trace w [Syscall call (Returns z s)]).
Proof.
  intros E. unfold sysi. by rewrite (bind_Ok _ _ _ _ _ (sysi_buf_Returns _ _ _ _ E)).
Qed.

Lemma sysi_Throws call w e :
  answer chain (trace w) call = Throws e ->
  sysi chain call w = (Exn e, append_trace w [Syscall call (Throws e)]).
Proof.
  intros E. unfold sysi. by rewrite (bind_Exn _ _ _ _ _ (sysi_buf_Throws _ _ _ E)).
Qed.

End Patcher.

(** Run the next call of a computation, on each answer it may get. *)
Ltac exec_call :=
  rewrite ?append_trace_app; cbn [app];
  lazymatch goal with
  | |- context [bind (sysi ?c ?call) ?k ?w] =>
      let E := fresh "E" in
      destruct (answer c (trace w) call) as [? ?|?] eqn:E;
      [ rewrite (bind_Ok _ k _ _ _ (sysi_Returns c call w _ _ E))
      | rewrite (bind_Exn _ k _ _ _ (sysi_Throws c call w _ E)) ];
      cbn [trace append_trace] in E
  | |- context [bind (sysi_buf ?c ?call) ?k ?w] =>
      let E := fresh "E" in
      destruct (answer c (trace w) call) as [? ?|?] eqn:E;
      [ rewrite (bind_Ok _ k _ _ _ (sysi_buf_Returns c call w _ _ E))
      | rewrite (bind_Exn _ k _ _ _ (sysi_buf_Throws c call w _ E)) ];
      cbn [trace append_trace] in E
  end.

Ltac exec_pure :=
  first [ rewrite bind_log | rewrite bind_sleep | rewrite bind_ret
        | rewrite bind_bind ].

(** Close a path: the world reached is the first one with more events. *)
Ltac exec_done :=
  repeat exec_pure; unfold ret; rewrite ?append_trace_app; cbn [app];
  eexists _, _; split; [reflexivity|].

Section PatcherPaths.

Variable chain : Chain.
Implicit Types (w : world) (path k v : string).

(** Once [open] has returned a descriptor, [close] is called on it
    unless one of the calls throws. *)
Lemma modifyGoldHENSetting_closes path k v w fd buf :
  answer chain (trace w ++ [Log (setting_message k v)]) (sys_open path 0x602)
  = Returns fd buf ->
  (0 <= fd)%Z ->
  exists b t,
    modifyGoldHENSetting chain path k v w = (Ok b, append_trace w t)
    /\ existsb (closes fd) t || existsb threw t = true.
Proof.
  intros Hopen Hfd. unfold setting_message in Hopen.
  unfold modifyGoldHENSetting. rewrite bind_log. unfold try_catch.
  exec_call; rewrite Hopen in E; [injection E as <- <-|done].
  rewrite (proj2 (Z.ltb_ge fd 0) Hfd).
  exec_call; [|exec_done; cbn; by rewrite ?orb_true_r].
  destruct (0 <? retval)%Z.
  - rewrite !bind_bind.
    exec_call; [|exec_done; cbn; by rewrite ?orb_true_r].
    rewrite !bind_bind.
    exec_call; [|exec_done; cbn; by rewrite ?orb_true_r].
    rewrite !bind_bind.
    exec_call; [|exec_done; cbn; by rewrite ?orb_true_r].
    rewrite bind_ret.
    exec_call; exec_done; cbn; rewrite bool_decide_eq_true_2 by done;
      by rewrite ?orb_true_r.
  - rewrite bind_ret.
    exec_call; exec_done; cbn; rewrite bool_decide_eq_true_2 by done;
      by rewrite ?orb_true_r.
Qed.

Lemma modifyGoldHENSetting_skips path k v w fd buf n data :
  answer chain (trace w ++ [Log (setting_message k v)]) (sys_open path 0x602)
  = Returns fd buf ->
  (0 <= fd)%Z ->
  answer chain
    (trace w ++ [Log (setting_message k v);
                 Syscall (sys_open path 0x602) (Returns fd buf)])
    (sys_read fd 0x4000)
  = Returns n data ->
  (n <= 0)%Z ->
  exists res,
    modifyGoldHENSetting chain path k v w
    = (Ok (negb (threw (Syscall (sys_close fd) res))),
       append_trace w (skipped_rewrite path k v fd buf n data res)).
Proof.
  intros Hopen Hfd Hread Hn. unfold setting_message in *.
  unfold modifyGoldHENSetting. rewrite bind_log. unfold try_catch.
  exec_call; rewrite Hopen in E; [injection E as <- <-|done].
  rewrite (proj2 (Z.ltb_ge fd 0) Hfd).
  exec_call; rewrite Hread in E; [injection E as <- <-|done].
  rewrite (proj2 (Z.ltb_ge 0 n) Hn), bind_ret.
  exec_call.
  - exists (Returns retval stored). repeat exec_pure. unfold ret.
    by rewrite ?append_trace_app.
  - exists (Throws error). repeat exec_pure. unfold ret.
    by rewrite ?append_trace_app.
Qed.

End PatcherPaths.

(** C7: the code closes the descriptor on the paths that return, not on
    those that throw. With [open] returning descriptor 3 and [read]
    throwing, [modifyGoldHENSetting] logs the error and returns false
    without calling [close]. *)
Theorem modifyGoldHENSetting_leaks_descriptor :
  modifyGoldHENSetting read_fault_chain "/data/GoldHEN/config.ini"
    "enable_plugins_loader" "0" fresh_world
  = (Ok false,
     append_trace fresh_world
       [ Log "Setting enable_plugins_loader = 0";
         Syscall (sys_open "/data/GoldHEN/config.ini" 0x602)
           (Returns 3 EmptyString);
         Syscall (sys_read 3 0x4000) (Throws "Error: syscall(read) errno: 5");
         Log "Error modifying GoldHEN setting: Error: syscall(read) errno: 5" ])
  /\ existsb (closes 3)
       (trace (snd (modifyGoldHENSetting read_fault_chain
                      "/data/GoldHEN/config.ini" "enable_plugins_loader" "0"
                      fresh_world)))
     = false.
Proof. split; reflexivity. Qed.

(** C8 (amended). Whenever [open] succeeds and [read] returns no byte,
    [modifyGoldHENSetting] does not rewrite the document: the calls that
    it issues are [open], with the flag word 0x602, [read] and [close] on
    the descriptor, and no seek, truncate or write; it returns true
    (false, after logging the error, when [close] throws). The statement
    is about the calls issued by the function, not about what the file
    holds after them. *)
Theorem modifyGoldHENSetting_nothing_read (chain : Chain)
    (path k v : string) (w : world) (fd : Z) (buf : string) (n : Z)
    (data : string) :
  answer chain (trace w ++ [Log (setting_message k v)]) (sys_open path 0x602)
  = Returns fd buf ->
  (0 <= fd)%Z ->
  answer chain
    (trace w ++ [Log (setting_message k v);
                 Syscall (sys_open path 0x602) (Returns fd buf)])
    (sys_read fd 0x4000)
  = Returns n data ->
  (n <= 0)%Z ->
  exists res,
    modifyGoldHENSetting chain path k v w
    = (Ok (negb (threw (Syscall (sys_close fd) res))),
       append_trace w (skipped_rewrite path k v fd buf n data res))
    /\ existsb writes (skipped_rewrite path k v fd buf n data res) = false
    /\ existsb (closes fd) (skipped_rewrite path k v fd buf n data res) = true
    /\ existsb rewrites (skipped_rewrite path k v fd buf n data res) = false.
Proof.
  intros Hopen Hfd Hread Hn.
  destruct (modifyGoldHENSetting_skips chain path k v w fd buf n data
              Hopen Hfd Hread Hn) as (res & E).
  exists res. split; [exact E|].
  unfold skipped_rewrite. split; [|split].
  - by destruct res.
  - cbn. by rewrite bool_decide_eq_true_2.
  - by destruct res.
Qed.

Lemma modifyGoldHENSetting_nothing_read_witness :
  exists res,
    modifyGoldHENSetting empty_file_chain "/data/GoldHEN/config.ini"
      "enable_plugins_loader" "0" fresh_world
    = (Ok (negb (threw (Syscall (sys_close 3) res))),
       append_trace fresh_world
         (skipped_rewrite "/data/GoldHEN/config.ini" "enable_plugins_loader"
            "0" 3 EmptyString 0 EmptyString res))
    /\ existsb writes
         (skipped_rewrite "/data/GoldHEN/config.ini" "enable_plugins_loader"
            "0" 3 EmptyString 0 EmptyString res) = false
    /\ existsb (closes 3)
         (skipped_rewrite "/data/GoldHEN/config.ini" "enable_plugins_loader"
            "0" 3 EmptyString 0 EmptyString res) = true
    /\ existsb rewrites
         (skipped_rewrite "/data/GoldHEN/config.ini" "enable_plugins_loader"
            "0" 3 EmptyString 0 EmptyString res) = false.
Proof.
  apply (modifyGoldHENSetting_nothing_read empty_file_chain
           "/data/GoldHEN/config.ini" "enable_plugins_loader" "0" fresh_world
           3 EmptyString 0 EmptyString); [reflexivity|lia|reflexivity|lia].
Defined.

(** C8 (as stated) fails: on a file that [read] finds empty, the call
    returns true having issued [open], [read] and [close] only; the text
    with the line [key=value] is never written. *)
Lemma modifyGoldHENSetting_empty_file_unchanged :
  let run :=
    modifyGoldHENSetting empty_file_chain "/data/GoldHEN/config.ini"
      "enable_plugins_loader" "0" fresh_world in
  fst run = Ok true
  /\ trace (snd run)
     = [ Log "Setting enable_plugins_loader = 0";
         Syscall (sys_open "/data/GoldHEN/config.ini" 0x602)
           (Returns 3 EmptyString);
         Syscall (sys_read 3 0x4000) (Returns 0 EmptyString);
         Syscall (sys_close 3) (Returns 0 EmptyString) ]
  /\ existsb writes (trace (snd run)) = false
  /\ ~ rewrites_with (updateConfigSetting EmptyString "enable_plugins_loader" "0")
         (trace (snd run)).
Proof.
  intros run. assert (trace (snd run)
     = [ Log "Setting enable_plugins_loader = 0";
         Syscall (sys_open "/data/GoldHEN/config.ini" 0x602)
           (Returns 3 EmptyString);
         Syscall (sys_read 3 0x4000) (Returns 0 EmptyString);
         Syscall (sys_close 3) (Returns 0 EmptyString) ]) as Ht by reflexivity.
  split; [reflexivity|]. split; [exact Ht|]. split; [reflexivity|].
  intros (fd & len & res & Hin). rewrite Ht in Hin.
  repeat (apply elem_of_cons in Hin as [Hin|Hin]; [discriminate|]).
  by apply elem_of_nil in Hin.
Qed.

(** ** The reactivation sequence *)

Section Sequencer.

Variable chain : Chain.
Implicit Types (w : world).

Lemma attempt_events_no_load plugin res res' :
  forallb no_load (attempt_events plugin res res') = true.
Proof.
  unfold attempt_events. destruct res as [h ?|?]; [|done].
  destruct (0 <? h)%Z; [|done]. by destruct res'.
Qed.

Lemma unloadPlugins_run w :
  exists u, unloadPlugins chain w = (Ok tt, append_trace w u) /\ unload_phase u.
Proof.
  assert (forall plugin w,
            exists res res',
              try_catch
                (handle <- sysi chain (sys_dynlib_get_list plugin 0) ;;
                 if (0 <? handle)%Z then
                   sysi chain (sys_dynlib_unload_prx handle) ;;;
                   log ("Unloaded plugin: " +:+ plugin)
                 else ret tt)
                (fun _ => ret tt) w
              = (Ok tt, append_trace w (attempt_events plugin res res')))
    as Hone.
  { clear w. intros plugin w. unfold try_catch.
    exec_call.
    - destruct (0 <? retval)%Z eqn:Eh.
      + exec_call.
        * exists (Returns retval stored), (Returns retval0 stored0).
          unfold log, attempt_events. rewrite Eh, record_append.
          by rewrite !append_trace_app.
        * exists (Returns retval stored), (Throws error).
          unfold ret, attempt_events. rewrite Eh.
          by rewrite !append_trace_app.
      + exists (Returns retval stored), (Throws "").
        unfold ret, attempt_events. by rewrite Eh.
    - exists (Throws error), (Throws ""). reflexivity. }
  unfold unloadPlugins, plugins_to_unload. cbn [for_of].
  destruct (Hone "game_patch.prx" w) as (r1 & r1' & E1).
  rewrite (bind_Ok _ _ _ _ _ E1).
  destruct (Hone "cheat_manager.prx"
              (append_trace w (attempt_events "game_patch.prx" r1 r1')))
    as (r2 & r2' & E2).
  rewrite (bind_Ok _ _ _ _ _ E2).
  match goal with
  | |- context [bind _ _ ?w'] =>
      destruct (Hone "browser_patch.prx" w') as (r3 & r3' & E3)
  end.
  rewrite (bind_Ok _ _ _ _ _ E3). unfold ret. rewrite !append_trace_app.
  eexists. split; [reflexivity|]. by exists r1, r1', r2, r2', r3, r3'.
Qed.

Lemma forcePluginsReload_run payload w :
  exists u l,
    forcePluginsReload chain payload w
    = (Ok true,
       append_trace w
         ([Log "Force reloading GoldHEN plugins..."] ++ u ++ [Sleep 200] ++ l
          ++ [Sleep 200; Log "Plugins reload completed"]))
    /\ unload_phase u /\ forallb load_io l = true.
Proof.
  unfold forcePluginsReload. rewrite bind_log. unfold try_catch.
  match goal with
  | |- context [bind (unloadPlugins chain) ?k ?w'] =>
      destruct (unloadPlugins_run w') as (u & Eu & Hu);
      rewrite (bind_Ok _ k _ _ _ Eu)
  end.
  rewrite bind_sleep.
  match goal with
  | |- context [bind (loadPlugins chain ?p) ?k ?w'] =>
      destruct (loadPlugins_safe chain p w') as ([] & l & El & Hl);
      rewrite (bind_Ok _ k _ _ _ El)
  end.
  rewrite bind_sleep, bind_log. unfold ret. rewrite !append_trace_app.
  exists u, l. by repeat split.
Qed.

(** The loop over any list of operations records them in list order. *)
Lemma operations_in_list_order path (ops : list operation) w :
  exists ss,
    for_of ops (fun operation =>
      match truthy_delay (delay operation) with
      | Some ms =>
          log ("Waiting " +:+ pretty ms +:+ "ms for plugin state change...") ;;;
          sleep ms
      | None =>
          modifyGoldHENSetting chain path
            (str (setting operation)) (str (value operation)) ;;;
          sleep 50
      end) w
    = (Ok tt, append_trace w (sequence_events ops ss))
    /\ length ss = length ops
    /\ Forall (fun s => forallb file_io s = true) ss.
Proof.
  revert w. induction ops as [|op ops IH]; intros w.
  - exists []. cbn [for_of sequence_events]. unfold ret.
    by rewrite append_trace_nil.
  - cbn [for_of].
    destruct (truthy_delay (delay op)) as [ms|] eqn:Ed.
    + rewrite bind_bind, bind_log, bind_sleep.
      match goal with
      | |- context [for_of ops ?body ?w'] =>
          destruct (IH w') as (ss & E & Hlen & Hss)
      end.
      exists ([] :: ss). rewrite E, !append_trace_app.
      cbn [sequence_events length]. unfold operation_events. rewrite Ed.
      repeat split; [by rewrite Hlen|by constructor].
    + rewrite bind_bind.
      destruct (modifyGoldHENSetting_run chain path (str (setting op))
                  (str (value op)) w) as (b & s & Es & Fs).
      rewrite (bind_Ok _ _ _ _ _ Es), bind_sleep.
      match goal with
      | |- context [for_of ops ?body ?w'] =>
          destruct (IH w') as (ss & E & Hlen & Hss)
      end.
      exists (s :: ss). rewrite E, !append_trace_app.
      cbn [sequence_events length]. unfold operation_events. rewrite Ed.
      unfold setting_events.
      repeat split; [|by rewrite Hlen|by constructor].
      do 2 f_equal. repeat (progress (rewrite <- ?app_assoc; cbn [app])).
      reflexivity.
Qed.

(** [reactivatePlugins], for any payload: the operations in list order,
    then the unload attempts, a pause, and the loading. *)
Lemma reactivatePlugins_in_list_order payload w :
  exists ss u l,
    reactivatePlugins chain payload w
    = (Ok tt,
       append_trace w
         ([Log "Starting plugins reactivation sequence..."]
          ++ sequence_events (operations payload) ss
          ++ [Log "Force reloading GoldHEN plugins..."] ++ u
          ++ [Sleep 200] ++ after_unload l))
    /\ length ss = length (operations payload)
    /\ Forall (fun s => forallb file_io s = true) ss
    /\ unload_phase u
    /\ forallb load_io l = true.
Proof.
  unfold reactivatePlugins. rewrite bind_log.
  match goal with
  | |- context [bind (for_of _ _) ?k ?w'] =>
      destruct (operations_in_list_order (config_path payload)
                  (operations payload) w') as (ss & E & Hlen & Hss);
      rewrite (bind_Ok _ k _ _ _ E)
  end.
  match goal with
  | |- context [bind (forcePluginsReload chain ?p) ?kk ?w'] =>
      destruct (forcePluginsReload_run p w') as (u & l & E5 & Hu & Hl);
      rewrite (bind_Ok _ kk _ _ _ E5)
  end.
  exists ss, u, l. split; [|done].
  unfold log. rewrite record_append, !append_trace_app.
  do 2 f_equal. unfold after_unload.
  repeat (progress (rewrite <- ?app_assoc; cbn [app])). reflexivity.
Qed.

End Sequencer.

Section Classes.

Lemma forallb_weaken (P Q : event -> bool) (t : list event) :
  (forall e, P e = true -> Q e = true) ->
  forallb P t = true -> forallb Q t = true.
Proof. intros H. rewrite !forallb_forall. auto. Qed.

Lemma file_io_no_load e : file_io e = true -> no_load e = true.
Proof. unfold file_io. by intros [[? ?]%andb_true_iff ?]%andb_true_iff. Qed.

Lemma load_io_no_unload e : load_io e = true -> no_unload e = true.
Proof. unfold load_io. by intros [? ?]%andb_true_iff. Qed.

Lemma setting_events_no_load k v s :
  forallb file_io s = true -> forallb no_load (setting_events k v s) = true.
Proof.
  intros H. unfold setting_events. cbn [forallb no_load andb].
  rewrite forallb_app, (forallb_weaken _ _ _ file_io_no_load H). done.
Qed.

Lemma unload_phase_no_load u : unload_phase u -> forallb no_load u = true.
Proof.
  intros (r1 & r1' & r2 & r2' & r3 & r3' & ->).
  by rewrite !forallb_app, !attempt_events_no_load.
Qed.

(** In a trace cut at a pause, with no loading before the pause and no
    unloading after it, every unloading event comes before every loading
    event. *)
Lemma unload_before_load (before after : list event) ms i j e1 e2 :
  forallb no_load before = true ->
  forallb no_unload after = true ->
  (before ++ Sleep ms :: after) !! i = Some e1 ->
  (before ++ Sleep ms :: after) !! j = Some e2 ->
  no_unload e1 = false -> no_load e2 = false ->
  (i < j)%nat.
Proof.
  intros Hb Ha Hi Hj H1 H2.
  rewrite forallb_forall in Hb. rewrite forallb_forall in Ha.
  assert (i < length before)%nat as Hlt.
  { destruct (decide (i < length before)%nat) as [|Hge]; [done|].
    rewrite lookup_app_r in Hi by lia.
    destruct (i - length before)%nat as [|i'] eqn:Ei.
    - injection Hi as <-. done.
    - cbn in Hi. apply list_elem_of_lookup_2, list_elem_of_In, Ha in Hi.
      congruence. }
  assert (length before <= j)%nat as Hge; [|lia].
  destruct (decide (length before <= j)%nat) as [|Hlt']; [done|].
  rewrite lookup_app_l in Hj by lia.
  apply list_elem_of_lookup_2, list_elem_of_In, Hb in Hj. congruence.
Qed.

End Classes.

(** C10. In every run of the reactivation sequence the operations are
    issued in the order of the list: the four settings, each followed by
    its pause, with the 100 ms delay after the second; then the three
    unload attempts, in the order of the unload list; then a pause; then
    the loading of the manifest. No plugin is loaded before the pause
    that follows the unload attempts, and no unload attempt is made after
    it: every unload attempt is recorded, with its answer, before any
    call that loads a plugin. *)
Theorem reactivatePlugins_order (chain : Chain) (w : world) :
  exists s1 s2 s3 s4 u l,
    reactivatePlugins chain createPluginFixPayload w
    = (Ok tt,
       append_trace w
         (before_reload s1 s2 s3 s4 u ++ [Sleep 200] ++ after_unload l))
    /\ forallb file_io (s1 ++ s2 ++ s3 ++ s4) = true
    /\ unload_phase u
    /\ forallb load_io l = true
    /\ forallb no_load (before_reload s1 s2 s3 s4 u) = true
    /\ forallb no_unload (after_unload l) = true
    /\ (forall i j e1 e2,
          (before_reload s1 s2 s3 s4 u ++ [Sleep 200] ++ after_unload l) !! i
          = Some e1 ->
          (before_reload s1 s2 s3 s4 u ++ [Sleep 200] ++ after_unload l) !! j
          = Some e2 ->
          no_unload e1 = false -> no_load e2 = false -> (i < j)%nat).
Proof.
  unfold reactivatePlugins. rewrite bind_log.
  cbn [operations createPluginFixPayload for_of config_path].
  cbn [truthy_delay delay setting value set_op delay_op str default].
  unfold id. rewrite decide_False by done.
  change (pretty 100%Z) with "100". rewrite !bind_bind.
  destruct (modifyGoldHENSetting_run chain "/data/GoldHEN/config.ini"
              "enable_plugins_loader" "0"
              (append_trace w [Log "Starting plugins reactivation sequence..."]))
    as (b1 & s1 & E1 & F1).
  rewrite (bind_Ok _ _ _ _ _ E1), bind_sleep, ?bind_bind.
  match goal with
  | |- context [bind (modifyGoldHENSetting chain ?p ?k ?v) ?kk ?w'] =>
      destruct (modifyGoldHENSetting_run chain p k v w') as (b2 & s2 & E2 & F2);
      rewrite (bind_Ok _ kk _ _ _ E2)
  end.
  rewrite bind_sleep, ?bind_bind, bind_log, bind_sleep, ?bind_bind.
  match goal with
  | |- context [bind (modifyGoldHENSetting chain ?p ?k ?v) ?kk ?w'] =>
      destruct (modifyGoldHENSetting_run chain p k v w') as (b3 & s3 & E3 & F3);
      rewrite (bind_Ok _ kk _ _ _ E3)
  end.
  rewrite bind_sleep, ?bind_bind.
  match goal with
  | |- context [bind (modifyGoldHENSetting chain ?p ?k ?v) ?kk ?w'] =>
      destruct (modifyGoldHENSetting_run chain p k v w') as (b4 & s4 & E4 & F4);
      rewrite (bind_Ok _ kk _ _ _ E4)
  end.
  rewrite bind_sleep, bind_ret.
  match goal with
  | |- context [bind (forcePluginsReload chain ?p) ?kk ?w'] =>
      destruct (forcePluginsReload_run chain p w') as (u & l & E5 & Hu & Hl);
      rewrite (bind_Ok _ kk _ _ _ E5)
  end.
  exists s1, s2, s3, s4, u, l.
  assert (forallb no_load (before_reload s1 s2 s3 s4 u) = true) as Hbefore.
  { unfold before_reload.
    rewrite !forallb_app, (setting_events_no_load _ _ _ F1),
      (setting_events_no_load _ _ _ F2), (setting_events_no_load _ _ _ F3),
      (setting_events_no_load _ _ _ F4), (unload_phase_no_load _ Hu).
    done. }
  assert (forallb no_unload (after_unload l) = true) as Hafter.
  { unfold after_unload.
    by rewrite forallb_app, (forallb_weaken _ _ _ load_io_no_unload Hl). }
  split; [|split; [by rewrite !forallb_app, F1, F2, F3, F4|]].
  2:{ repeat split; try done. intros i j e1 e2.
      by apply unload_before_load. }
  unfold log. rewrite record_append, !append_trace_app.
  do 2 f_equal. unfold before_reload, after_unload, setting_events, setting_message.
  repeat (progress (rewrite <- ?app_assoc; cbn [app])). reflexivity.
Qed.

(** ** More on the configuration document *)

Section Documents.

Implicit Types (a b s needle k v text : string) (lines : list string).

Lemma prefix_app_mono needle a b :
  String.prefix needle a = true -> String.prefix needle (a +:+ b) = true.
Proof.
  revert a. induction needle as [|c n IH]; intros a; [by rewrite !prefix_empty|].
  destruct a as [|d a]; [done|].
  rewrite app_cons, !prefix_cons. intros [-> H]%andb_true_iff.
  by rewrite (IH _ H).
Qed.

Lemma includes_app_l a b needle :
  JS.includes a needle = true -> JS.includes (a +:+ b) needle = true.
Proof.
  induction a as [|c a IH].
  - cbn [JS.includes]. rewrite orb_false_r. intros H.
    apply includes_prefix. by apply (prefix_app_mono needle EmptyString b).
  - rewrite app_cons. cbn [JS.includes]. intros [H|H]%orb_true_iff.
    + rewrite <- app_cons, (prefix_app_mono _ _ _ H). done.
    + by rewrite (IH H), orb_true_r.
Qed.

Lemma includes_app_r a b needle :
  JS.includes b needle = true -> JS.includes (a +:+ b) needle = true.
Proof.
  intros H. induction a as [|c a IH]; [done|].
  rewrite app_cons. cbn [JS.includes]. by rewrite IH, orb_true_r.
Qed.

Lemma includes_join lines line needle :
  line ∈ lines -> JS.includes line needle = true ->
  JS.includes (JS.join lines) needle = true.
Proof.
  intros Hin Hl. induction lines as [|l ls IH]; [by apply elem_of_nil in Hin|].
  destruct ls as [|l' ls].
  - apply list_elem_of_singleton in Hin as ->. done.
  - change (JS.join (l :: l' :: ls))
      with (l +:+ String JS.nl (JS.join (l' :: ls))).
    apply elem_of_cons in Hin as [->|Hin].
    + by apply includes_app_l.
    + apply includes_app_r. cbn [JS.includes]. by rewrite IH, orb_true_r.
Qed.

Lemma join_snoc lines x :
  lines <> [] -> JS.join (lines ++ [x]) = JS.join lines +:+ String JS.nl x.
Proof.
  induction lines as [|l ls IH]; [done|]. intros _.
  destruct ls as [|l' ls]; [done|].
  change (JS.join ((l :: l' :: ls) ++ [x]))
    with (l +:+ String JS.nl (JS.join ((l' :: ls) ++ [x]))).
  rewrite IH by done.
  change (JS.join (l :: l' :: ls))
    with (l +:+ String JS.nl (JS.join (l' :: ls))).
  by rewrite app_assoc', app_cons.
Qed.

(** For a needle without line break, searching the text is searching
    its lines. *)
Lemma includes_join_lines lines needle :
  lines <> [] -> one_line needle ->
  JS.includes (JS.join lines) needle
  = existsb (fun line => JS.includes line needle) lines.
Proof.
  intros Hne Hn. induction lines as [|l ls IH]; [done|].
  destruct ls as [|l' ls]; [cbn; by rewrite orb_false_r|].
  change (JS.join (l :: l' :: ls))
    with (l +:+ String JS.nl (JS.join (l' :: ls))).
  rewrite includes_app_sep by done. rewrite IH by done. done.
Qed.

Lemma first_match_existsb k lines :
  is_Some (first_match k lines)
  <-> existsb (fun line => JS.includes line k) lines = true.
Proof.
  induction lines as [|l ls IH].
  - rewrite first_match_nil. cbn. split; [by intros [? ?]|done].
  - rewrite first_match_cons. cbn [existsb].
    destruct (JS.includes l k); cbn [orb]; [by split; eauto|].
    rewrite <- IH. by rewrite fmap_is_Some.
Qed.

Lemma upsert_lines_has_line lines k v :
  setting_line k v ∈ upsert_lines lines k v.
Proof.
  induction lines as [|l ls IH].
  - rewrite upsert_lines_nil. apply list_elem_of_here.
  - rewrite upsert_lines_cons. destruct (JS.includes l k).
    + apply list_elem_of_here.
    + by apply list_elem_of_further.
Qed.

Lemma upsert_lines_keeps lines k v line :
  line ∈ lines -> JS.includes line k = false ->
  line ∈ upsert_lines lines k v.
Proof.
  intros Hin Hl. induction lines as [|l ls IH]; [by apply elem_of_nil in Hin|].
  rewrite upsert_lines_cons. apply elem_of_cons in Hin as [->|Hin].
  - rewrite Hl. apply list_elem_of_here.
  - destruct (JS.includes l k).
    + by apply list_elem_of_further.
    + apply list_elem_of_further. auto.
Qed.

Lemma upsert_lines_length lines k v :
  length (upsert_lines lines k v)
  = (length lines
     + if existsb (fun line => JS.includes line k) lines then 0 else 1)%nat.
Proof.
  induction lines as [|l ls IH]; [done|].
  rewrite upsert_lines_cons. cbn [existsb].
  destruct (JS.includes l k); cbn [orb length]; [lia|].
  rewrite IH. lia.
Qed.

(** A line of the result: the upsert keeps every line that does not
    contain the key. *)
Lemma updateConfigSetting_keeps_line text k v line :
  one_line k -> one_line v ->
  line ∈ JS.split text -> JS.includes line k = false ->
  line ∈ JS.split (updateConfigSetting text k v).
Proof.
  intros Hk Hv Hin Hl. rewrite updateConfigSetting_upsert, split_join.
  - by apply upsert_lines_keeps.
  - apply upsert_lines_not_nil.
  - apply upsert_lines_one_line; [done..|apply split_lines_one_line].
Qed.

Lemma updateConfigSetting_new_line text k v :
  one_line k -> one_line v ->
  setting_line k v ∈ JS.split (updateConfigSetting text k v).
Proof.
  intros Hk Hv. rewrite updateConfigSetting_upsert, split_join.
  - apply upsert_lines_has_line.
  - apply upsert_lines_not_nil.
  - apply upsert_lines_one_line; [done..|apply split_lines_one_line].
Qed.

Lemma includes_of_line text line :
  line ∈ JS.split text -> JS.includes text line = true.
Proof.
  intros Hin. rewrite <- (join_split text) at 1.
  apply includes_join with line; [done|].
  apply includes_prefix. rewrite <- (app_empty_r line) at 2.
  apply prefix_app_self.
Qed.

End Documents.

(** X1. After the upsert of (key, value) the document contains the text
    [key=value], whatever the document, the key and the value. *)
Theorem updateConfigSetting_includes_setting (text k v : string) :
  JS.includes (updateConfigSetting text k v) (setting_line k v) = true.
Proof.
  rewrite updateConfigSetting_upsert.
  apply includes_join with (setting_line k v).
  - apply upsert_lines_has_line.
  - apply includes_prefix. rewrite <- (app_empty_r (setting_line k v)) at 2.
    apply prefix_app_self.
Qed.

(** X2. When the key occurs nowhere in the document, the upsert keeps the
    document as it is and appends a line break and [key=value]; so the
    upsert into the empty document gives a first empty line. *)
Theorem updateConfigSetting_absent_key (text k v : string) :
  JS.includes text k = false ->
  updateConfigSetting text k v = text +:+ String JS.nl (setting_line k v).
Proof.
  intros Habsent. rewrite updateConfigSetting_upsert. unfold upsert_lines.
  destruct (first_match k (JS.split text)) as [i|] eqn:E.
  - apply first_match_Some in E as (line & Hi & Hin & _).
    apply list_elem_of_lookup_2 in Hi.
    pose proof (includes_join _ _ _ Hi Hin) as H.
    rewrite join_split in H. congruence.
  - rewrite join_snoc by apply split_not_nil. by rewrite join_split.
Qed.

Lemma updateConfigSetting_absent_key_witness :
  JS.includes EmptyString "enable_ftp_server" = false
  /\ updateConfigSetting EmptyString "enable_ftp_server" "1"
     = String JS.nl "enable_ftp_server=1".
Proof.
  split; [reflexivity|].
  exact (updateConfigSetting_absent_key EmptyString "enable_ftp_server" "1"
           eq_refl).
Defined.

(** X3. For a key and a value without line break, the upsert changes the
    number of lines by nothing when the key occurs in the document and by
    one when it does not, and every line that does not contain the key is
    still a line of the result. *)
Theorem updateConfigSetting_line_count (text k v : string) :
  one_line k -> one_line v ->
  length (JS.split (updateConfigSetting text k v))
  = (length (JS.split text) + if JS.includes text k then 0 else 1)%nat
  /\ (forall line, line ∈ JS.split text -> JS.includes line k = false ->
                   line ∈ JS.split (updateConfigSetting text k v)).
Proof.
  intros Hk Hv. split.
  - rewrite updateConfigSetting_upsert, split_join.
    + rewrite upsert_lines_length.
      rewrite <- (includes_join_lines (JS.split text) k)
        by (done || apply split_not_nil).
      by rewrite join_split.
    + apply upsert_lines_not_nil.
    + apply upsert_lines_one_line; [done..|apply split_lines_one_line].
  - intros line. by apply updateConfigSetting_keeps_line.
Qed.

Lemma updateConfigSetting_line_count_witness :
  (one_line "ftp_port" /\ one_line "21")
  /\ length (JS.split (updateConfigSetting "[Settings]" "ftp_port" "21")) = 2%nat.
Proof.
  split; [by vm_compute|].
  exact (proj1 (updateConfigSetting_line_count "[Settings]" "ftp_port" "21"
                  eq_refl eq_refl)).
Defined.

(** X5. The score of the validation is never clamped: for every text it is
    100 minus 20 per issue, there are at most four issues, and the score
    lies between 20 and 100. *)
Theorem validateGoldHENConfig_bounds (config_text : string) :
  let r := validateGoldHENConfig config_text in
  score r = (100 - 20 * Z.of_nat (length (issues r)))%Z
  /\ (length (issues r) <= 4)%nat
  /\ (20 <= score r <= 100)%Z.
Proof.
  unfold validateGoldHENConfig, push_if.
  destruct (JS.includes config_text "enable_plugins_loader=1"),
    (JS.includes config_text "enable_game_patch_plugin=1"),
    (JS.includes config_text "enable_homebrew_blocker=1"),
    (JS.includes config_text "enable_ftp_server=1");
    cbn; repeat split; lia.
Qed.

(** ** Backups and reports *)

Section Reports.

Implicit Types (s text needle : string) (w : world).

Lemma replace_colon_dot_chars s :
  all_chars iso_char s = true ->
  all_chars stamp_char (replace_colon_dot s) = true.
Proof.
  induction s as [|c s IH]; [done|].
  cbn [all_chars replace_colon_dot]. intros [Hc Hs]%andb_true_iff.
  rewrite (IH Hs), andb_true_r. clear IH Hs.
  destruct c as [[] [] [] [] [] [] [] []]; by vm_compute in Hc |- *.
Qed.

Lemma stamp_excludes now c :
  stamp_char c = false ->
  JS.includes (replace_colon_dot (toISOString now)) (String c EmptyString)
  = false.
Proof.
  intros Hc. apply all_chars_excludes with stamp_char; [exact Hc|].
  apply replace_colon_dot_chars, all_chars_toISOString.
Qed.

(** A setting name is not found in the first line of a backup. *)
Lemma backup_header_excludes now needle :
  JS.includes
    ("# GoldHEN Configuration Backup - " +:+ replace_colon_dot (toISOString now))
    (String "e" needle) = false.
Proof.
  change ("# GoldHEN Configuration Backup - " +:+ ?x)
    with ("# GoldHEN Configuration Backup -" +:+ String " " x).
  apply includes_first_char. rewrite includes_app_sep by done.
  by rewrite stamp_excludes.
Qed.

Lemma backup_header_one_line now :
  one_line
    ("# GoldHEN Configuration Backup - " +:+ replace_colon_dot (toISOString now)).
Proof.
  apply one_line_app. split; [done|]. by apply stamp_excludes.
Qed.

Lemma backup_content_includes now text needle :
  one_line (String "e" needle) ->
  JS.includes
    (("# GoldHEN Configuration Backup - " +:+ replace_colon_dot (toISOString now)
      +:+ String JS.nl "") +:+ text)
    (String "e" needle)
  = JS.includes text (String "e" needle).
Proof.
  intros Hn. rewrite !app_assoc'. rewrite <- app_assoc'.
  change (String JS.nl "" +:+ text) with (String JS.nl text).
  rewrite includes_app_sep by done.
  by rewrite backup_header_excludes.
Qed.

Lemma optimal_config_text_includes now needle :
  JS.includes (String "e" needle) " " = false ->
  one_line (String "e" needle) ->
  JS.includes (optimal_config_text now) (String "e" needle)
  = JS.includes optimal_head (String "e" needle).
Proof.
  intros Hsp Hnl.
  rewrite optimal_config_text_head, !includes_app_sep by done.
  assert (JS.includes (toISOString now) (String "e" needle) = false) as ->.
  { apply includes_first_char, all_chars_excludes with iso_char;
      [done|apply all_chars_toISOString]. }
  cbn [JS.includes]. by rewrite !orb_false_r.
Qed.

End Reports.

(** X6. [createConfigBackup] changes nothing in the world; the backup it
    returns is the original text under one header line, so dropping the
    first line of the backup gives the original text back; the backup
    validates and is recommended upon exactly as the original; and
    neither ':' nor '.' occurs in the time stamp of the file name. *)
Theorem createConfigBackup_round_trip (config_text : string) (w : world) :
  exists stamp,
    createConfigBackup config_text w
    = (Ok {| Backup.filename := "goldhen_config_backup_" +:+ stamp +:+ ".ini";
             Backup.content :=
               ("# GoldHEN Configuration Backup - " +:+ stamp +:+ String JS.nl "")
               +:+ config_text |}, w)
    /\ JS.join
         (tail (JS.split
                  (("# GoldHEN Configuration Backup - " +:+ stamp
                    +:+ String JS.nl "") +:+ config_text)))
       = config_text
    /\ validateGoldHENConfig
         (("# GoldHEN Configuration Backup - " +:+ stamp +:+ String JS.nl "")
          +:+ config_text)
       = validateGoldHENConfig config_text
    /\ getOptimizationRecommendations
         (("# GoldHEN Configuration Backup - " +:+ stamp +:+ String JS.nl "")
          +:+ config_text)
       = getOptimizationRecommendations config_text
    /\ JS.includes stamp ":" = false
    /\ JS.includes stamp "." = false.
Proof.
  exists (replace_colon_dot (toISOString (clock w (trace w)))).
  set (now := clock w (trace w)).
  split; [reflexivity|]. split; [|split; [|split; [|split]]].
  - rewrite !app_assoc'. rewrite <- app_assoc'.
    change (String JS.nl "" +:+ config_text) with (String JS.nl config_text).
    rewrite split_app_nl by apply backup_header_one_line.
    apply join_split.
  - unfold validateGoldHENConfig. by rewrite !backup_content_includes.
  - unfold getOptimizationRecommendations.
    by rewrite !backup_content_includes.
  - by apply stamp_excludes.
  - by apply stamp_excludes.
Qed.

(** X7. The report that [generateConfigReport] makes of the text of
    [createOptimalConfig] is clean at every time: the text is valid with
    score 100, no recommendation is made, and the four critical settings
    are enabled. *)
Theorem generateConfigReport_of_optimal (w : world) :
  exists text w1 report,
    createOptimalConfig w = (Ok text, w1)
    /\ generateConfigReport text w1 = (Ok report, w1)
    /\ ConfigReport.validation report
       = {| isValid := true; issues := []; score := 100 |}
    /\ ConfigReport.recommendations report = []
    /\ ConfigReport.critical_settings report
       = {| CriticalSettings.plugins_loader := true;
            CriticalSettings.game_patch := true;
            CriticalSettings.ftp_server := true;
            CriticalSettings.bin_loader := true |}
    /\ ConfigReport.config_size report = JS.length text.
Proof.
  eexists _, _, _. split; [reflexivity|]. split; [reflexivity|].
  set (now := clock _ _). clearbody now.
  cbn [ConfigReport.validation ConfigReport.recommendations
       ConfigReport.critical_settings ConfigReport.config_size].
  unfold validateGoldHENConfig, getOptimizationRecommendations, push_if,
    recommend_if.
  rewrite !optimal_config_text_includes by done.
  repeat split.
Qed.

(** ** Trimming and the manifest *)

Section Manifest.

Implicit Types (s line : string) (c : ascii).

Lemma trimStart_head s :
  trimStart_shape s.
Proof.
  unfold trimStart_shape. induction s as [|c s IH]; [by left|].
  cbn [JS.trimStart]. destruct (JS.is_white c) eqn:E; [exact IH|].
  right. by exists c, s.
Qed.

Lemma trimEnd_head c s :
  JS.is_white c = false -> exists t, JS.trimEnd (String c s) = String c t.
Proof.
  intros Hc. cbn [JS.trimEnd]. rewrite Hc. destruct (JS.trimEnd s); eauto.
Qed.

Lemma trimEnd_idem s : JS.trimEnd (JS.trimEnd s) = JS.trimEnd s.
Proof.
  induction s as [|c s IH]; [done|]. cbn [JS.trimEnd].
  destruct (JS.trimEnd s) as [|d u] eqn:E.
  - destruct (JS.is_white c) eqn:Ec; [done|]. cbn [JS.trimEnd]. by rewrite Ec.
  - cbn [JS.trimEnd]. cbn [JS.trimEnd] in IH. by rewrite IH.
Qed.

Lemma trim_idem s : JS.trim (JS.trim s) = JS.trim s.
Proof.
  unfold JS.trim. destruct (trimStart_head s) as [->|(c & t & -> & Hc)]; [done|].
  destruct (trimEnd_head c t Hc) as (u & Hu). rewrite Hu.
  cbn [JS.trimStart]. rewrite Hc, <- Hu. apply trimEnd_idem.
Qed.

Lemma trimStart_one_line s : one_line s -> one_line (JS.trimStart s).
Proof.
  induction s as [|c s IH]; [done|]. intros H.
  cbn [JS.trimStart]. destruct (JS.is_white c); [|done].
  apply one_line_cons in H as [_ H]. auto.
Qed.

Lemma trimEnd_one_line s : one_line s -> one_line (JS.trimEnd s).
Proof.
  induction s as [|c s IH]; [done|]. intros [Hc Hs]%one_line_cons.
  cbn [JS.trimEnd]. specialize (IH Hs).
  destruct (JS.trimEnd s) as [|d u].
  - destruct (JS.is_white c); [done|]. by apply one_line_cons.
  - by apply one_line_cons.
Qed.

Lemma trim_one_line s : one_line s -> one_line (JS.trim s).
Proof. intros H. by apply trimEnd_one_line, trimStart_one_line. Qed.

(** The loop of [parsePluginsList] as a filter. *)
Lemma parsePluginsList_filter text :
  parsePluginsList text = JS.trim <$> filter plugin_entry (JS.split text).
Proof.
  unfold parsePluginsList.
  assert (forall lines acc,
            foldl plugin_line_step acc lines
            = acc ++ (JS.trim <$> filter plugin_entry lines)) as H.
  { induction lines as [|line lines IH]; intros acc; [by rewrite app_nil_r|].
    cbn [foldl]. rewrite IH, filter_cons. unfold plugin_line_step.
    destruct (decide (plugin_entry line)) as [Hp|Hp].
    - destruct Hp as (Ht & -> & -> & ->).
      destruct (JS.trim line) as [|c t] eqn:Et; [done|].
      cbn [JS.truthy andb negb]. rewrite fmap_cons, Et.
      by rewrite <- app_assoc.
    - destruct (JS.truthy (JS.trim line)) eqn:Et; [|done].
      destruct (JS.startsWith (JS.trim line) "[") eqn:Eb; [done|].
      destruct (JS.startsWith (JS.trim line) "#") eqn:Eh; [done|].
      destruct (JS.includes (JS.trim line) ".prx") eqn:Ex; [|done].
      exfalso. apply Hp. repeat split; try done.
      intros E. by rewrite E in Et. }
  apply (H _ []).
Qed.

Lemma parsePluginsList_elem text p :
  p ∈ parsePluginsList text ->
  plugin_entry p /\ JS.trim p = p /\ one_line p.
Proof.
  rewrite parsePluginsList_filter. intros Hin.
  apply list_elem_of_fmap in Hin as (line & -> & Hin).
  apply list_elem_of_filter in Hin as [Hentry Hin].
  split; [|split].
  - unfold plugin_entry. by rewrite trim_idem.
  - apply trim_idem.
  - apply trim_one_line.
    pose proof (split_lines_one_line text) as Hall.
    rewrite Forall_forall in Hall. by apply Hall.
Qed.

End Manifest.

(** X8. Every path returned by [parsePluginsList] is not empty, has no
    white space at either end, has no line break, does not start with
    '[' or '#' and contains '.prx'; and parsing the returned paths,
    joined by line breaks, returns them again. *)
Theorem parsePluginsList_idempotent (plugins_text : string) :
  (forall p, p ∈ parsePluginsList plugins_text ->
     p <> EmptyString /\ JS.trim p = p /\ one_line p
     /\ JS.startsWith p "[" = false /\ JS.startsWith p "#" = false
     /\ JS.includes p ".prx" = true)
  /\ parsePluginsList (JS.join (parsePluginsList plugins_text))
     = parsePluginsList plugins_text.
Proof.
  split.
  - intros p Hin.
    destruct (parsePluginsList_elem _ _ Hin) as (Hentry & Ht & Hl).
    unfold plugin_entry in Hentry. rewrite Ht in Hentry.
    destruct Hentry as (? & ? & ? & ?). by repeat split.
  - destruct (parsePluginsList plugins_text) as [|p ps] eqn:E; [done|].
    rewrite <- E.
    assert (Forall (fun p => plugin_entry p /\ JS.trim p = p /\ one_line p)
              (parsePluginsList plugins_text)) as Hall.
    { apply Forall_forall. intros q. apply parsePluginsList_elem. }
    rewrite parsePluginsList_filter at 1. rewrite split_join.
    + clear E. induction Hall as [|q qs (Hq & Ht & _) _ IH]; [done|].
      rewrite filter_cons_True by done. rewrite fmap_cons, Ht. by f_equal.
    + by rewrite E.
    + eapply Forall_impl; [exact Hall|]. by intros q (_ & _ & ?).
Qed.

(** ** The catalogue of titles *)

Section Titles.

Implicit Types (a b s t : string).

Lemma lower_char_idem c : lower_char (lower_char c) = lower_char c.
Proof. destruct c as [[] [] [] [] [] [] [] []]; by vm_compute. Qed.

Lemma toLowerCase_idem s : toLowerCase (toLowerCase s) = toLowerCase s.
Proof.
  induction s as [|c s IH]; [done|].
  cbn [toLowerCase]. by rewrite lower_char_idem, IH.
Qed.

Lemma toLowerCase_app a b :
  toLowerCase (a +:+ b) = toLowerCase a +:+ toLowerCase b.
Proof.
  induction a as [|c a IH]; [done|].
  rewrite app_cons. cbn [toLowerCase]. by rewrite IH, app_cons.
Qed.

Lemma includes_self s : JS.includes s s = true.
Proof.
  apply includes_prefix. rewrite <- (app_empty_r s) at 2. apply prefix_app_self.
Qed.

Lemma includes_middle a s b : JS.includes (a +:+ s +:+ b) s = true.
Proof. apply includes_app_r, includes_app_l, includes_self. Qed.

End Titles.

(** X9. [isProblematicGame] does not depend on the case of the letters of
    the title (for titles of code units below 256): the title, its
    lower-case form and any title with the same lower-case form get the
    same answer; and every title that contains a title of the catalogue,
    as it is written there or in lower case, is problematic. *)
Theorem isProblematicGame_case_insensitive (title : string) :
  isProblematicGame (toLowerCase title) = isProblematicGame title
  /\ (forall other, toLowerCase other = toLowerCase title ->
        isProblematicGame other = isProblematicGame title)
  /\ (forall game a b, game ∈ PROBLEMATIC_GAMES ->
        isProblematicGame (a +:+ game +:+ b) = true
        /\ isProblematicGame (a +:+ toLowerCase game +:+ b) = true).
Proof.
  split; [|split].
  - unfold isProblematicGame. by rewrite toLowerCase_idem.
  - intros other H. unfold isProblematicGame. by rewrite H.
  - intros game a b Hin. apply list_elem_of_In in Hin.
    split; unfold isProblematicGame; apply existsb_exists; exists game;
      (split; [done|]);
      rewrite !toLowerCase_app, ?toLowerCase_idem; apply includes_middle.
Qed.

(** ** The runs of the configuration patcher *)

Section PatcherRuns.

Variable chain : Chain.
Implicit Types (w : world) (path k v : string).

(** Every run of [modifyGoldHENSetting] is one of the eight of
    [modify_run]; none throws. *)
Lemma modifyGoldHENSetting_runs path k v w :
  exists b t,
    modifyGoldHENSetting chain path k v w = (Ok b, append_trace w t)
    /\ modify_run path k v b t.
Proof.
  unfold modifyGoldHENSetting. rewrite bind_log. unfold try_catch.
  exec_call; [|exec_done; apply run_open_throws].
  destruct (retval <? 0)%Z eqn:Efd.
  { exec_done. apply run_open_fails. lia. }
  assert (0 <= retval)%Z as Hfd by lia.
  exec_call; [|exec_done; by apply run_read_throws].
  destruct (0 <? retval0)%Z eqn:En.
  - assert (0 < retval0)%Z as Hn by lia. rewrite !bind_bind.
    exec_call; [|exec_done; by apply run_lseek_throws].
    rewrite !bind_bind.
    exec_call; [|exec_done; by apply run_ftruncate_throws].
    rewrite !bind_bind.
    exec_call;
      [|exec_done;
        by apply (run_write_throws path k v retval stored retval0 stored0
                    retval1 stored1 retval2 stored2)].
    rewrite bind_ret.
    exec_call; exec_done.
    + by apply (run_written path k v retval stored retval0 stored0
                  retval1 stored1 retval2 stored2 retval3 stored3
                  (Returns retval4 stored4)).
    + by apply (run_written path k v retval stored retval0 stored0
                  retval1 stored1 retval2 stored2 retval3 stored3
                  (Throws error)).
  - assert (retval0 <= 0)%Z as Hn by lia. rewrite bind_ret.
    exec_call; exec_done.
    + by apply (run_nothing_read path k v retval stored retval0 stored0
                  (Returns retval1 stored1)).
    + by apply (run_nothing_read path k v retval stored retval0 stored0
                  (Throws error)).
Qed.

End PatcherRuns.

(** X10. [modifyGoldHENSetting] never throws, whatever the calls answer;
    it returns true exactly when the last thing it did was a [close] that
    returned, and then no call threw; when it returns false the last
    thing it did was to log a warning or an error. *)
Theorem modifyGoldHENSetting_true_iff_closed (chain : Chain)
    (path k v : string) (w : world) :
  exists b t,
    modifyGoldHENSetting chain path k v w = (Ok b, append_trace w t)
    /\ (b = true <->
        exists fd r s, last t = Some (Syscall (sys_close fd) (Returns r s)))
    /\ (b = true -> existsb threw t = false)
    /\ (b = false -> exists msg, last t = Some (Log msg)).
Proof.
  destruct (modifyGoldHENSetting_runs chain path k v w) as (b & t & E & Hrun).
  exists b, t. split; [exact E|].
  destruct Hrun as [e|fd buf Hfd|fd buf e Hfd|fd buf n data [r s|e] Hfd Hn
                   |fd buf n data e Hfd Hn|fd buf n data r1 b1 e Hfd Hn
                   |fd buf n data r1 b1 r2 b2 e Hfd Hn
                   |fd buf n data r1 b1 r2 b2 r3 b3 [r s|e] Hfd Hn];
    cbn; (split; [split; [try done|]|split; [try done|]]);
    try (intros (? & ? & ? & [=])); try (intros _; by eauto); try done.
  all: try (intros _; by eexists _, _, _).
Qed.

(** X11. Whenever [modifyGoldHENSetting] writes, it has opened the file
    and read something from it, has sought to the start and truncated the
    file, and writes, once, the upsert of (key, value) into the text that
    it read, with the length of that text; the text written contains
    [key=value]. *)
Theorem modifyGoldHENSetting_writes_upsert (chain : Chain)
    (path k v : string) (w : world) :
  exists b t,
    modifyGoldHENSetting chain path k v w = (Ok b, append_trace w t)
    /\ (existsb writes t = true ->
        exists fd buf n data r1 r2 b1 b2 res tail,
          t = rewrite_events path k v fd buf n data r1 r2 b1 b2 res ++ tail
          /\ (0 <= fd)%Z /\ (0 < n)%Z
          /\ existsb writes tail = false
          /\ JS.includes (updateConfigSetting (read_string data n) k v)
               (setting_line k v) = true).
Proof.
  destruct (modifyGoldHENSetting_runs chain path k v w) as (b & t & E & Hrun).
  exists b, t. split; [exact E|].
  assert (forall text, JS.includes (updateConfigSetting text k v)
                         (setting_line k v) = true) as Hinc.
  { intros text. rewrite updateConfigSetting_upsert.
    apply includes_join with (setting_line k v);
      [apply upsert_lines_has_line|apply includes_self]. }
  destruct Hrun as [e|fd buf Hfd|fd buf e Hfd|fd buf n data [r s|e] Hfd Hn
                   |fd buf n data e Hfd Hn|fd buf n data r1 b1 e Hfd Hn
                   |fd buf n data r1 b1 r2 b2 e Hfd Hn
                   |fd buf n data r1 b1 r2 b2 r3 b3 res Hfd Hn];
    try (cbn; discriminate).
  - intros _. eexists fd, buf, n, data, r1, r2, b1, b2, _, _.
    split; [reflexivity|]. by repeat split.
  - intros _. eexists fd, buf, n, data, r1, r2, b1, b2, _, _.
    split; [reflexivity|]. repeat split; try done. by destruct res.
Qed.

(** X12. When [open] throws or returns a negative descriptor,
    [modifyGoldHENSetting] returns false having issued no other call: it
    records the call and one line, the error or the warning. *)
Theorem modifyGoldHENSetting_open_failure (chain : Chain)
    (path k v : string) (w : world) (res : outcome) :
  answer chain (trace w ++ [Log (setting_message k v)]) (sys_open path 0x602)
  = res ->
  match res with Returns fd _ => (fd < 0)%Z | Throws _ => True end ->
  modifyGoldHENSetting chain path k v w
  = (Ok false,
     append_trace w
       [ Log (setting_message k v);
         Syscall (sys_open path 0x602) res;
         match res with
         | Returns _ _ => Log ("Warning: Could not open config file: " +:+ path)
         | Throws e => modify_error e
         end ]).
Proof.
  intros <- Hres. unfold setting_message in *.
  unfold modifyGoldHENSetting. rewrite bind_log. unfold try_catch.
  exec_call; rewrite E in Hres |- *.
  - rewrite (proj2 (Z.ltb_lt retval 0) Hres). rewrite bind_log.
    unfold ret. by rewrite !append_trace_app.
  - rewrite bind_log. unfold ret. by rewrite !append_trace_app.
Qed.

Lemma modifyGoldHENSetting_open_failure_witness :
  modifyGoldHENSetting
    {| answer := fun _ _ => Returns (-1) EmptyString |}
    "/data/GoldHEN/config.ini" "enable_plugins_loader" "0" fresh_world
  = (Ok false,
     append_trace fresh_world
       [ Log (setting_message "enable_plugins_loader" "0");
         Syscall (sys_open "/data/GoldHEN/config.ini" 0x602)
           (Returns (-1) EmptyString);
         Log "Warning: Could not open config file: /data/GoldHEN/config.ini" ]).
Proof.
  apply (modifyGoldHENSetting_open_failure
           {| answer := fun _ _ => Returns (-1) EmptyString |}
           "/data/GoldHEN/config.ini" "enable_plugins_loader" "0" fresh_world
           (Returns (-1) EmptyString)); [reflexivity|cbn; lia].
Defined.

(** ** Unloading and loading plugins *)

(** Close a run that ends with logging or returning. *)
Ltac run_leaf :=
  cbv beta iota; unfold log, ret;
  rewrite ?record_append, ?append_trace_app; cbn [app];
  eexists; split; [reflexivity|].

Section Plugins.

Variable chain : Chain.
Implicit Types (w : world).

Lemma attempt_events_looked_up plugin res res' :
  omap looked_up (attempt_events plugin res res') = [plugin].
Proof.
  unfold attempt_events. destruct res as [h s|e]; [|done].
  destruct (0 <? h)%Z; [|done]. by destruct res'.
Qed.

Lemma attempt_events_unloaded plugin res res' :
  forall h, h ∈ omap unloaded_handle (attempt_events plugin res res') ->
    (0 < h)%Z /\ exists s, res = Returns h s.
Proof.
  unfold attempt_events. intros h. destruct res as [h' s|e]; cbn.
  - destruct (0 <? h')%Z eqn:Eh; cbn.
    + destruct res'; cbn; intros ->%list_elem_of_singleton;
        (split; [lia|eauto]).
    + by intros ?%elem_of_nil.
  - by intros ?%elem_of_nil.
Qed.

(** The loop of [loadPlugins]: one call per path, in order, whatever
    the calls answer. *)
Lemma load_loop_run (paths : list string) w :
  exists t,
    for_of paths (fun plugin_path =>
      try_catch
        (handle <- sysi chain (sys_dynlib_load_prx plugin_path 0) ;;
         if (0 <? handle)%Z then log ("Loaded plugin: " +:+ plugin_path)
         else ret tt)
        (fun error =>
           log ("Error loading plugin " +:+ plugin_path +:+ ": " +:+ error))) w
    = (Ok tt, append_trace w t)
    /\ omap loaded_path t = paths
    /\ forallb load_or_log t = true.
Proof.
  revert w. induction paths as [|p ps IH]; intros w.
  - exists []. cbn [for_of]. unfold ret. by rewrite append_trace_nil.
  - cbn [for_of].
    assert (exists t1,
              try_catch
                (handle <- sysi chain (sys_dynlib_load_prx p 0) ;;
                 if (0 <? handle)%Z then log ("Loaded plugin: " +:+ p)
                 else ret tt)
                (fun error =>
                   log ("Error loading plugin " +:+ p +:+ ": " +:+ error)) w
              = (Ok tt, append_trace w t1)
              /\ omap loaded_path t1 = [p]
              /\ forallb load_or_log t1 = true) as (t1 & E1 & H1 & F1).
    { unfold try_catch. exec_call.
      - destruct (0 <? retval)%Z; by run_leaf.
      - by run_leaf. }
    rewrite (bind_Ok _ _ _ _ _ E1).
    destruct (IH (append_trace w t1)) as (t2 & E2 & H2 & F2).
    exists (t1 ++ t2). rewrite E2, append_trace_app.
    split; [done|]. rewrite omap_app, H1, H2, forallb_app, F1, F2. done.
Qed.

(** The runs of [loadPlugins]. *)
Lemma loadPlugins_runs path w :
  exists t,
    loadPlugins chain path w = (Ok tt, append_trace w t)
    /\ (omap loaded_path t = []
        \/ exists fd buf n data r b tail,
             t = manifest_read path fd buf n data r b ++ tail
             /\ (0 <= fd)%Z /\ (0 < n)%Z
             /\ omap loaded_path tail = parsePluginsList (read_string data n)
             /\ forallb load_or_log tail = true).
Proof.
  unfold loadPlugins, try_catch.
  exec_call; [|run_leaf; by left].
  destruct (0 <=? retval)%Z eqn:Efd; [|run_leaf; by left].
  exec_call; [|run_leaf; by left].
  exec_call; [|run_leaf; by left].
  destruct (0 <? retval0)%Z eqn:En; [|run_leaf; by left].
  rewrite !append_trace_app. cbn [app]. cbv zeta beta.
  match goal with
  | |- context [for_of ?paths ?body ?w'] =>
      destruct (load_loop_run paths w') as (t & E' & Hp & Hf)
  end.
  unfold try_catch in E'. rewrite E', append_trace_app. eexists. split; [reflexivity|].
  right. exists retval, stored, retval0, stored0, retval1, stored1, t.
  split; [reflexivity|]. repeat split; try done; lia.
Qed.

End Plugins.

(** X13. [loadPlugins] never throws; either it asks for no plugin to be
    loaded, or [open], [read] and [close] have returned, something was
    read, and after the [close] it asks, once each and in the order of the
    manifest, for the paths of [parsePluginsList] to be loaded: a path
    whose loading fails or throws does not stop the next ones. *)
Theorem loadPlugins_loads_manifest (chain : Chain) (path : string)
    (w : world) :
  exists t,
    loadPlugins chain path w = (Ok tt, append_trace w t)
    /\ (omap loaded_path t = []
        \/ exists fd buf n data r b tail,
             t = manifest_read path fd buf n data r b ++ tail
             /\ (0 <= fd)%Z /\ (0 < n)%Z
             /\ omap loaded_path tail = parsePluginsList (read_string data n)
             /\ forallb load_or_log tail = true).
Proof. apply loadPlugins_runs. Qed.

(** X14. [unloadPlugins] never throws; it looks up the three plugins of
    its list, in order, whatever the calls answer; it asks at most three
    times for a plugin to be unloaded, each time with a positive handle
    that a look-up has just returned. *)
Theorem unloadPlugins_attempts (chain : Chain) (w : world) :
  exists u,
    unloadPlugins chain w = (Ok tt, append_trace w u)
    /\ omap looked_up u = plugins_to_unload
    /\ (length (omap unloaded_handle u) <= 3)%nat
    /\ (forall h, h ∈ omap unloaded_handle u ->
          (0 < h)%Z
          /\ exists plugin s,
               Syscall (sys_dynlib_get_list plugin 0) (Returns h s) ∈ u).
Proof.
  destruct (unloadPlugins_run chain w)
    as (u & E & r1 & r1' & r2 & r2' & r3 & r3' & ->).
  eexists. split; [exact E|]. split; [|split].
  - by rewrite !omap_app, !attempt_events_looked_up.
  - rewrite !omap_app, !length_app.
    assert (forall p r r',
              (length (omap unloaded_handle (attempt_events p r r')) <= 1)%nat)
      as H.
    { intros p r r'. unfold attempt_events. destruct r as [h s|e]; [|cbn; lia].
      destruct (0 <? h)%Z; [|cbn; lia]. destruct r'; cbn; lia. }
    pose proof (H "game_patch.prx" r1 r1').
    pose proof (H "cheat_manager.prx" r2 r2').
    pose proof (H "browser_patch.prx" r3 r3'). lia.
  - intros h. rewrite !omap_app, !elem_of_app.
    intros [Hin|[Hin|Hin]];
      apply attempt_events_unloaded in Hin as (Hpos & s & ->);
      (split; [done|]); eexists _, s; rewrite !elem_of_app.
    + left. apply list_elem_of_here.
    + right; left. apply list_elem_of_here.
    + right; right. apply list_elem_of_here.
Qed.

(** X15. [forcePluginsReload] and [fixGoldHENPlugins] return true on
    every run, whatever the calls answer, even when all of them throw:
    every failure is caught below them. *)
Theorem fixGoldHENPlugins_always_true (chain : Chain) (w : world) :
  (exists t, fixGoldHENPlugins chain w = (Ok true, append_trace w t))
  /\ (forall payload,
        exists t, forcePluginsReload chain payload w
                  = (Ok true, append_trace w t)).
Proof.
  split.
  - unfold fixGoldHENPlugins. rewrite bind_log. unfold try_catch.
    match goal with
    | |- context [bind (reactivatePlugins chain ?p) ?k ?w'] =>
        destruct (reactivatePlugins_in_list_order chain p w')
          as (ss & u & l & E & _);
        rewrite (bind_Ok _ k _ _ _ E)
    end.
    rewrite bind_log. unfold ret. rewrite !append_trace_app. eauto.
  - intros payload.
    destruct (forcePluginsReload_run chain payload w) as (u & l & E & _).
    eauto.
Qed.

(** ** Runs of the orchestrator *)

Section OrchestratorRuns.

Variable chain : Chain.
Implicit Types (w : world).


Lemma verifyFixApplication_run w :
  verifyFixApplication w
  = (Ok (report_of (is_item (localStorage w !! flag_key) "true")
                   (is_item (sessionStorage w !! flag_key) "true")
                   (is_item (localStorage w !! "ExploitLoaded") "yes")), w).
Proof. reflexivity. Qed.

(** Past the gate, the result carries the issues of the verifier, run on
    the storages as they were. *)
Lemma autoFixGoldHEN_reports w :
  fst (shouldApplyPluginsFix w) = Ok true ->
  exists t,
    autoFixGoldHEN chain w
    = (Ok (issues_result
             (VerificationReport.issues
                (report_of false false
                   (is_item (localStorage w !! "ExploitLoaded") "yes")))),
       append_trace w t)
    /\ forallb quiet t = true.
Proof.
  intros [Hl Hs]%shouldApplyPluginsFix_true.
  unfold autoFixGoldHEN. rewrite bind_log.
  set (w1 := append_trace w _).
  assert (shouldApplyPluginsFix w1 = (Ok true, w1)) as Egate.
  { rewrite shouldApplyPluginsFix_run. unfold is_item.
    cbn [w1 append_trace localStorage sessionStorage].
    by rewrite (bool_decide_eq_false_2 _ Hl), (bool_decide_eq_false_2 _ Hs). }
  unfold try_catch. rewrite (bind_Ok _ _ _ _ _ Egate). cbn [negb].
  rewrite !bind_log, bind_sleep, bind_log.
  match goal with
  | |- context [bind (fixGoldHENPlugins chain) ?k ?w'] =>
      destruct (fixGoldHENPlugins_safe chain w') as (b & t1 & E1 & F1);
      rewrite (bind_Ok _ k _ _ _ E1)
  end.
  assert (forall (k : unit -> M FixResult.t) w',
            exists t2,
              bind (if negb b
                    then log "Warning: Plugins fix failed, but continuing..."
                    else ret tt) k w'
              = k tt (append_trace w' t2)
              /\ forallb quiet t2 = true) as Hwarn.
  { intros k w'. destruct b; cbn [negb].
    - exists []. by rewrite bind_ret, append_trace_nil.
    - eexists. rewrite bind_log. by split. }
  match goal with
  | |- context [bind (if negb b then _ else _) ?k ?w'] =>
      destruct (Hwarn k w') as (t2 & E2 & F2); rewrite E2; clear E2
  end.
  cbv beta. rewrite bind_log.
  match goal with
  | |- context [bind (optimizeGoldHENConfig chain) ?k ?w'] =>
      destruct (optimizeGoldHENConfig_safe chain w') as (b3 & t3 & E3 & F3);
      rewrite (bind_Ok _ k _ _ _ E3)
  end.
  rewrite bind_log.
  match goal with
  | |- context [bind verifyFixApplication ?k ?w'] =>
      rewrite (bind_Ok _ k _ _ _ (verifyFixApplication_run w'))
  end.
  clear Egate. unfold w1. cbn [append_trace localStorage sessionStorage].
  unfold is_item.
  rewrite !(bool_decide_eq_false_2 _ Hl), !(bool_decide_eq_false_2 _ Hs).
  cbn [report_of VerificationReport.success forallb VerificationCheck.success
       andb].
  rewrite bind_log. unfold ret. rewrite !append_trace_app.
  eexists. split; [reflexivity|].
  rewrite !forallb_app, F1, F2, F3. reflexivity.
Qed.

End OrchestratorRuns.

(** X16. When the gate is closed ([shouldApplyPluginsFix] returns false),
    [autoFixGoldHEN] returns success=true, skipped=true at once: it logs
    two lines, issues no system call, does not wait, and leaves both
    storages as they were. *)
Theorem autoFixGoldHEN_skips (chain : Chain) (w : world) :
  fst (shouldApplyPluginsFix w) = Ok false ->
  autoFixGoldHEN chain w
  = (Ok skipped_result,
     append_trace w
       [ Log "=== Starting Auto GoldHEN Fix ===";
         Log "GoldHEN plugins fix already applied this session, skipping..." ]).
Proof.
  intros Hgate. rewrite shouldApplyPluginsFix_run in Hgate.
  cbn [fst] in Hgate. injection Hgate as Hgate.
  unfold autoFixGoldHEN. rewrite bind_log. unfold try_catch.
  erewrite bind_Ok; [|apply shouldApplyPluginsFix_run].
  cbn [append_trace localStorage sessionStorage]. rewrite Hgate. cbn [negb].
  rewrite bind_log. unfold ret. by rewrite append_trace_app.
Qed.

Lemma autoFixGoldHEN_skips_witness :
  fst (shouldApplyPluginsFix marked_world) = Ok false
  /\ autoFixGoldHEN idle_chain marked_world
     = (Ok skipped_result,
        append_trace marked_world
          [ Log "=== Starting Auto GoldHEN Fix ===";
            Log "GoldHEN plugins fix already applied this session, skipping..." ]).
Proof.
  split; [reflexivity|].
  apply (autoFixGoldHEN_skips idle_chain marked_world). reflexivity.
Defined.

(** X17. On every run, whatever the calls answer, [autoFixGoldHEN]
    returns either the skipped result or a failure with the issues of the
    verifier, never the result of a successful application; it leaves
    both storages as they were, so the gate is after the run where it was
    before it. *)
Theorem autoFixGoldHEN_gate_unchanged (chain : Chain) (w : world) :
  exists r t,
    autoFixGoldHEN chain w = (Ok r, append_trace w t)
    /\ (r = skipped_result
        \/ exists loaded,
             r = issues_result
                   (VerificationReport.issues (report_of false false loaded)))
    /\ FixResult.verified r = None
    /\ (FixResult.success r = true <-> FixResult.skipped r = Some true)
    /\ localStorage (append_trace w t) = localStorage w
    /\ sessionStorage (append_trace w t) = sessionStorage w
    /\ fst (shouldApplyPluginsFix (append_trace w t))
       = fst (shouldApplyPluginsFix w).
Proof.
  destruct (fst (shouldApplyPluginsFix w)) as [[|]|e] eqn:Egate.
  - destruct (autoFixGoldHEN_reports chain w Egate) as (t & E & _).
    eexists _, t. split; [exact E|]. split; [right; eauto|].
    rewrite shouldApplyPluginsFix_run in Egate |- *.
    repeat split; try done.
  - eexists _, _. split; [by apply autoFixGoldHEN_skips|].
    split; [by left|].
    rewrite shouldApplyPluginsFix_run in Egate |- *.
    repeat split; try done.
  - rewrite shouldApplyPluginsFix_run in Egate. done.
Qed.

(** X18. [forceReapplyFix] never succeeds: on every run it returns
    success=false with the three checks of the verifier as issues, the
    flag and [ExploitLoaded] being removed from both storages before the
    fix is run again; they are still absent after it. *)
Theorem forceReapplyFix_fails (chain : Chain) (w : world) :
  exists w',
    forceReapplyFix chain w
    = (Ok (issues_result
             [local_flag_not_set; session_flag_not_set; exploit_not_loaded]),
       w')
    /\ localStorage w' = delete "ExploitLoaded" (delete flag_key (localStorage w))
    /\ sessionStorage w'
       = delete "ExploitLoaded" (delete flag_key (sessionStorage w))
    /\ fst (shouldApplyPluginsFix w') = Ok true
    /\ exists t, trace w' = trace w ++ t.
Proof.
  set (w0 := append_trace w [Log "Force reapplying GoldHEN fix..."]).
  set (w1 := with_session (delete "ExploitLoaded")
               (with_local (delete "ExploitLoaded")
                  (append_trace
                     (with_session (delete flag_key)
                        (with_local (delete flag_key) w0))
                     [Log "GoldHEN plugins fix flag reset"]))).
  assert (forceReapplyFix chain w = autoFixGoldHEN chain w1) as ->
    by reflexivity.
  assert (localStorage w1
          = delete "ExploitLoaded" (delete flag_key (localStorage w))) as Hl
    by reflexivity.
  assert (sessionStorage w1
          = delete "ExploitLoaded" (delete flag_key (sessionStorage w))) as Hs
    by reflexivity.
  assert (fst (shouldApplyPluginsFix w1) = Ok true) as Hgate.
  { apply shouldApplyPluginsFix_true. rewrite Hl, Hs. unfold flag_key.
    rewrite !(lookup_delete_ne _ "ExploitLoaded") by done.
    by rewrite !lookup_delete_eq. }
  destruct (autoFixGoldHEN_reports chain w1 Hgate) as (t & E & _).
  rewrite Hl, lookup_delete_eq in E.
  exists (append_trace w1 t). split; [exact E|].
  split; [exact Hl|]. split; [exact Hs|]. split.
  - rewrite shouldApplyPluginsFix_run.
    rewrite shouldApplyPluginsFix_run in Hgate. exact Hgate.
  - cbn [trace append_trace w1 with_session with_local w0].
    eexists. rewrite <- !app_assoc. reflexivity.
Qed.

(** X19. [verifyFixApplication] changes nothing; right after
    [markPluginsFixApplied] it succeeds exactly when the local storage
    holds ExploitLoaded = 'yes', and right after [resetPluginsFixFlag] it
    fails, with the two flag checks among its issues. *)
Theorem verifyFixApplication_after_mark (w : world) :
  (exists r, verifyFixApplication w = (Ok r, w)
             /\ length (VerificationReport.checks r) = 3%nat
             /\ (VerificationReport.success r = true
                 <-> VerificationReport.issues r = []))
  /\ (exists r, verifyFixApplication (snd (markPluginsFixApplied w))
                = (Ok r, snd (markPluginsFixApplied w))
                /\ VerificationReport.success r
                   = is_item (localStorage w !! "ExploitLoaded") "yes")
  /\ (exists r third, verifyFixApplication (snd (resetPluginsFixFlag w))
                      = (Ok r, snd (resetPluginsFixFlag w))
                      /\ VerificationReport.success r = false
                      /\ VerificationReport.issues r
                         = local_flag_not_set :: session_flag_not_set :: third).
Proof.
  split; [|split].
  - eexists. split; [apply verifyFixApplication_run|]. split; [done|].
    destruct (is_item (localStorage w !! flag_key) "true"),
      (is_item (sessionStorage w !! flag_key) "true"),
      (is_item (localStorage w !! "ExploitLoaded") "yes"); by cbn.
  - eexists. split; [apply verifyFixApplication_run|].
    change (localStorage (snd (markPluginsFixApplied w)))
      with (<[flag_key := "true"]> (localStorage w)).
    change (sessionStorage (snd (markPluginsFixApplied w)))
      with (<[flag_key := "true"]> (sessionStorage w)).
    rewrite !lookup_insert_eq. unfold flag_key.
    rewrite lookup_insert_ne by done. unfold is_item at 1 2.
    rewrite !bool_decide_eq_true_2 by done. cbn. by rewrite andb_true_r.
  - eexists _, _. split; [apply verifyFixApplication_run|].
    change (localStorage (snd (resetPluginsFixFlag w)))
      with (delete flag_key (localStorage w)).
    change (sessionStorage (snd (resetPluginsFixFlag w)))
      with (delete flag_key (sessionStorage w)).
    rewrite !lookup_delete_eq. unfold is_item at 1 2.
    rewrite !bool_decide_eq_false_2 by done. by split.
Qed.

(** ** Writing the canonical configuration, and the debug report *)

Section Canonical.


End Canonical.




(** X21. [debugGoldHENIssues] only reports: it never throws, leaves both
    storages as they were, logs the four items as they are stored (an
    absent item as 'null'), opens the configuration file read-only,
    closes the descriptor when [open] returned one, issues no other
    call, and lists the ten titles of the catalogue. *)
Theorem debugGoldHENIssues_read_only (chain : Chain) (w : world) :
  exists res res',
    debugGoldHENIssues chain w
    = (Ok tt,
       append_trace w (debug_header w ++ probe_events res res' ++ debug_footer)).
Proof.
  unfold debugGoldHENIssues.
  rewrite bind_log.
  assert (forall {B} key (k : option string -> M B) w0,
            bind (local_getItem key) k w0 = k (localStorage w0 !! key) w0)
    as Hlocal by reflexivity.
  assert (forall {B} key (k : option string -> M B) w0,
            bind (session_getItem key) k w0 = k (sessionStorage w0 !! key) w0)
    as Hsession by reflexivity.
  rewrite Hlocal, bind_log, Hlocal, bind_log, Hsession, Hsession,
    !bind_log.
  cbn [localStorage sessionStorage append_trace].
  assert (forall w0 : world,
            exists res res',
              try_catch
                (fd <- sysi chain (sys_open "/data/GoldHEN/config.ini" 0) ;;
                 if (0 <=? fd)%Z then
                   log "GoldHEN config file accessible" ;;;
                   sysi chain (sys_close fd) ;;;
                   ret tt
                 else log "Warning: GoldHEN config file not accessible")
                (fun error => log ("Error checking config: " +:+ error)) w0
              = (Ok tt, append_trace w0 (probe_events res res'))) as Hprobe.
  { intros w0. unfold try_catch.
    exec_call.
    - destruct (0 <=? retval)%Z eqn:Efd.
      + rewrite bind_log. exec_call.
        * exists (Returns retval stored), (Returns retval0 stored0).
          unfold ret, probe_events. rewrite Efd.
          by rewrite !append_trace_app.
        * exists (Returns retval stored), (Throws error).
          unfold log, probe_events. rewrite Efd, record_append.
          by rewrite !append_trace_app.
      + exists (Returns retval stored), (Throws "").
        unfold log, probe_events. rewrite Efd, record_append.
        by rewrite !append_trace_app.
    - exists (Throws error), (Throws "").
      unfold log, probe_events. rewrite record_append.
      by rewrite !append_trace_app. }
  match goal with
  | |- context [bind (try_catch _ _) ?k ?w0] =>
      destruct (Hprobe w0) as (res & res' & E);
      rewrite (bind_Ok _ k _ _ _ E)
  end.
  exists res, res'. clear E Hprobe.
  rewrite bind_log. unfold PROBLEMATIC_GAMES. cbn [forEach_from].
  repeat progress (rewrite ?bind_bind, ?bind_log, ?bind_ret).
  unfold log. rewrite record_append, !append_trace_app.
  unfold debug_header, debug_footer. cbn [localStorage sessionStorage].
  f_equal.
Qed.

(** X22. [exportConfiguration] changes nothing and returns the text it
    was given together with a backup and a report that agree with it: the
    backup, less its first line, is the exported text, and validating the
    backup, or asking recommendations for it, gives what the exported
    report holds. *)
Theorem exportConfiguration_consistent (config_text : string) (w : world) :
  exists e,
    exportConfiguration config_text w = (Ok e, w)
    /\ ConfigExport.config e = config_text
    /\ JS.join (tail (JS.split (Backup.content (ConfigExport.backup e))))
       = ConfigExport.config e
    /\ validateGoldHENConfig (Backup.content (ConfigExport.backup e))
       = ConfigReport.validation (ConfigExport.report e)
    /\ getOptimizationRecommendations
         (Backup.content (ConfigExport.backup e))
       = ConfigReport.recommendations (ConfigExport.report e)
    /\ ConfigReport.config_size (ConfigExport.report e)
       = JS.length (ConfigExport.config e).
Proof.
  eexists. split; [reflexivity|].
  cbn [ConfigExport.config ConfigExport.backup ConfigExport.report
       Backup.content ConfigReport.validation ConfigReport.recommendations
       ConfigReport.config_size].
  set (now := clock w (trace w)).
  split; [done|]. split; [|split; [|split; [|done]]].
  - rewrite !app_assoc'. rewrite <- app_assoc'.
    change (String JS.nl "" +:+ config_text) with (String JS.nl config_text).
    rewrite split_app_nl by apply backup_header_one_line.
    apply join_split.
  - unfold validateGoldHENConfig. by rewrite !backup_content_includes.
  - unfold getOptimizationRecommendations.
    by rewrite !backup_content_includes.
Qed.

(** ** The upsert, line by line, and the canonical text *)

Section Peeling.

Implicit Types (line rest k v : string).

Lemma join_cons_split line rest :
  JS.join (line :: JS.split rest) = line +:+ String JS.nl rest.
Proof.
  pose proof (split_not_nil rest) as Hne.
  destruct (JS.split rest) as [|l ls] eqn:E; [done|].
  change (JS.join (line :: l :: ls))
    with (line +:+ String JS.nl (JS.join (l :: ls))).
  by rewrite <- E, join_split.
Qed.

Lemma updateConfigSetting_first_line line rest k v :
  one_line line -> JS.includes line k = true ->
  updateConfigSetting (line +:+ String JS.nl rest) k v
  = setting_line k v +:+ String JS.nl rest.
Proof.
  intros Hl Hin. rewrite updateConfigSetting_upsert, split_app_nl by done.
  rewrite upsert_lines_cons, Hin. apply join_cons_split.
Qed.

Lemma updateConfigSetting_next_line line rest k v :
  one_line line -> JS.includes line k = false ->
  updateConfigSetting (line +:+ String JS.nl rest) k v
  = line +:+ String JS.nl (updateConfigSetting rest k v).
Proof.
  intros Hl Hin. rewrite !updateConfigSetting_upsert, split_app_nl by done.
  rewrite upsert_lines_cons, Hin.
  pose proof (upsert_lines_not_nil (JS.split rest) k v) as Hne.
  by destruct (upsert_lines (JS.split rest) k v) as [|l ls].
Qed.

End Peeling.

(** X23. The upsert reads the document line by line: when the first line
    contains the key, that line becomes [key=value] and the rest of the
    document is left as it is, whatever it holds; when it does not, the
    first line is kept and the upsert goes on in the rest. *)
Theorem updateConfigSetting_line_by_line (line rest k v : string) :
  one_line line ->
  updateConfigSetting (line +:+ String JS.nl rest) k v
  = if JS.includes line k
    then setting_line k v +:+ String JS.nl rest
    else line +:+ String JS.nl (updateConfigSetting rest k v).
Proof.
  intros Hl. destruct (JS.includes line k) eqn:E.
  - by apply updateConfigSetting_first_line.
  - by apply updateConfigSetting_next_line.
Qed.

Lemma updateConfigSetting_line_by_line_witness :
  one_line "[Settings]"
  /\ updateConfigSetting ("[Settings]" +:+ String JS.nl "ftp_port=21")
       "ftp_port" "2121"
     = "[Settings]" +:+ String JS.nl "ftp_port=2121".
Proof.
  split; [reflexivity|].
  rewrite (updateConfigSetting_line_by_line "[Settings]" "ftp_port=21"
             "ftp_port" "2121" eq_refl).
  reflexivity.
Defined.

(** X25. At every time the text of [createOptimalConfig] is made of the
    line [[Settings]], one line [key=value] for each entry of
    [OPTIMAL_GOLDHEN_CONFIG] in the order of the catalogue, an empty
    line, the line [[Advanced]], three comment lines of which the last
    holds the time stamp, and a final line break; each key of the
    catalogue is defined by exactly one line. *)
Theorem createOptimalConfig_lines (w : world) :
  exists text w',
    createOptimalConfig w = (Ok text, w')
    /\ JS.split text = optimal_lines (toISOString (clock w' (trace w')))
    /\ Forall (fun '(key, value) =>
                 List.filter (defines key) (JS.split text)
                 = [setting_line key value])
         OPTIMAL_GOLDHEN_CONFIG.
Proof.
  eexists _, _. split; [reflexivity|].
  cbn [trace append_trace record clock].
  set (now := clock w _).
  assert (JS.split (optimal_config_text now) = optimal_lines (toISOString now))
    as Hsplit.
  { assert (optimal_config_text now = JS.join (optimal_lines (toISOString now)))
      as -> by reflexivity.
    apply split_join; [done|].
    unfold optimal_lines. cbn [map app OPTIMAL_GOLDHEN_CONFIG].
    repeat (constructor; [first [done|idtac]|]); [|constructor].
    apply one_line_app. split; [done|].
    apply all_chars_excludes with iso_char; [done|apply all_chars_toISOString]. }
  split; [exact Hsplit|]. rewrite Hsplit.
  unfold optimal_lines, OPTIMAL_GOLDHEN_CONFIG. cbn [map app].
  repeat (constructor; [reflexivity|]). constructor.
Qed.

(** X27. [resetPluginsFixFlag] undoes [markPluginsFixApplied]: after both,
    each storage is as after the reset alone, that is, the storage
    without the flag, so a world in which the flag was absent gets its
    storages back; marking twice is marking once; neither touches
    another key than the flag. *)
Theorem mark_reset_round_trip (w : world) :
  let marked := snd (markPluginsFixApplied w) in
  let cleared := snd (resetPluginsFixFlag marked) in
  localStorage cleared = delete flag_key (localStorage w)
  /\ sessionStorage cleared = delete flag_key (sessionStorage w)
  /\ (localStorage w !! flag_key = None -> localStorage cleared = localStorage w)
  /\ (sessionStorage w !! flag_key = None ->
      sessionStorage cleared = sessionStorage w)
  /\ localStorage (snd (markPluginsFixApplied marked)) = localStorage marked
  /\ sessionStorage (snd (markPluginsFixApplied marked)) = sessionStorage marked
  /\ (forall key, key <> flag_key ->
        localStorage marked !! key = localStorage w !! key
        /\ sessionStorage marked !! key = sessionStorage w !! key
        /\ localStorage cleared !! key = localStorage w !! key
        /\ sessionStorage cleared !! key = sessionStorage w !! key).
Proof.
  intros marked cleared.
  assert (localStorage marked = <[flag_key := "true"]> (localStorage w)) as Hml
    by reflexivity.
  assert (sessionStorage marked = <[flag_key := "true"]> (sessionStorage w))
    as Hms by reflexivity.
  assert (localStorage cleared = delete flag_key (localStorage marked)) as Hcl
    by reflexivity.
  assert (sessionStorage cleared = delete flag_key (sessionStorage marked))
    as Hcs by reflexivity.
  rewrite Hcl, Hcs, Hml, Hms, !delete_insert_eq.
  split; [done|]. split; [done|].
  split; [by apply delete_id|]. split; [by apply delete_id|].
  split; [apply insert_insert_eq|]. split; [apply insert_insert_eq|].
  intros key Hkey.
  rewrite !lookup_insert_ne, !lookup_delete_ne by done. done.
Qed.

(** ** The validation score and the required settings *)

Section Score.

Implicit Types (s text line : string).

(** For a text without line break, searching the document is searching
    its lines. *)
Lemma includes_split text s :
  one_line s ->
  JS.includes text s = existsb (fun line => JS.includes line s) (JS.split text).
Proof.
  intros Hs. rewrite <- (join_split text) at 1.
  apply includes_join_lines; [apply split_not_nil|done].
Qed.

(** A line of the document is found by the search. *)
Lemma has_line_includes text s :
  existsb (fun line => String.eqb line s) (JS.split text) = true ->
  JS.includes text s = true.
Proof.
  intros (line & Hin & Heq)%existsb_exists.
  apply String.eqb_eq in Heq as ->.
  apply includes_of_line. by apply list_elem_of_In.
Qed.

(** When the text occurs only as a whole line, the search finds it
    exactly when the document has that line. *)
Lemma includes_on_own_line text s :
  one_line s -> on_own_line s text = true ->
  JS.includes text s
  = existsb (fun line => String.eqb line s) (JS.split text).
Proof.
  intros Hs Hown. rewrite (includes_split _ _ Hs).
  unfold on_own_line in Hown.
  induction (JS.split text) as [|line lines IH]; [done|].
  cbn [forallb existsb] in *. apply andb_true_iff in Hown as [Hl Hls].
  rewrite (IH Hls). f_equal.
  destruct (JS.includes line s) eqn:Ei, (String.eqb line s) eqn:Ee;
    try done.
  apply String.eqb_eq in Ee as ->. by rewrite includes_self in Ei.
Qed.

End Score.

(** C5 (amended). For every configuration text, the score reported by
    [validateGoldHENConfig] is max(0, 100 - 20 * len(issues)), the issues
    being the messages, in order, of the tests that fail among four
    searches of the whole text: [enable_plugins_loader=1],
    [enable_game_patch_plugin=1] and [enable_ftp_server=1] must occur in
    it, [enable_homebrew_blocker=1] must not. The score is 100 exactly
    when there is no issue, and the text is valid exactly when there is
    no issue. A document that misses k of the three required settings
    scores at least 80 - 20k; when each of the four texts occurs in the
    document only as a whole line, it scores max(0, 100 - 20(k + b)),
    where b is 1 if the document has the line
    [enable_homebrew_blocker=1] and 0 otherwise. *)
Theorem validateGoldHENConfig_score (config_text : string) :
  let r := validateGoldHENConfig config_text in
  let k := Z.of_nat (missing_required config_text) in
  let b := if blocker_enabled config_text then 1%Z else 0%Z in
  score r = Z.max 0 (100 - 20 * Z.of_nat (length (issues r)))
  /\ issues r = (List.filter fst (required_checks config_text)).*2
  /\ (score r = 100%Z <-> issues r = [])
  /\ (isValid r = true <-> issues r = [])
  /\ (80 - 20 * k <= score r)%Z
  /\ (settings_on_own_lines config_text = true ->
      score r = Z.max 0 (100 - 20 * (k + b))).
Proof.
  intros r k b.
  assert (score r = Z.max 0 (100 - 20 * Z.of_nat (length (issues r)))
          /\ issues r = (List.filter fst (required_checks config_text)).*2
          /\ (score r = 100%Z <-> issues r = [])
          /\ (isValid r = true <-> issues r = [])) as (H1 & H2 & H3 & H4).
  { subst r. unfold validateGoldHENConfig, required_checks, push_if.
    destruct (JS.includes config_text "enable_plugins_loader=1"),
      (JS.includes config_text "enable_game_patch_plugin=1"),
      (JS.includes config_text "enable_homebrew_blocker=1"),
      (JS.includes config_text "enable_ftp_server=1");
      cbn; repeat split; try done; try lia. }
  do 4 (split; [done|]). clear H1 H2 H3 H4.
  subst r k b.
  unfold missing_required, blocker_enabled, has_setting.
  cbn [required_settings List.filter].
  change (setting_line "enable_plugins_loader" "1")
    with "enable_plugins_loader=1".
  change (setting_line "enable_game_patch_plugin" "1")
    with "enable_game_patch_plugin=1".
  change (setting_line "enable_ftp_server" "1") with "enable_ftp_server=1".
  change (setting_line "enable_homebrew_blocker" "1")
    with "enable_homebrew_blocker=1".
  split.
  - pose proof (has_line_includes config_text "enable_plugins_loader=1") as Hl.
    pose proof (has_line_includes config_text "enable_game_patch_plugin=1")
      as Hp.
    pose proof (has_line_includes config_text "enable_ftp_server=1") as Hf.
    unfold validateGoldHENConfig, push_if.
    destruct (existsb _ (JS.split config_text)) in Hl |- *;
      destruct (existsb _ (JS.split config_text)) in Hp |- *;
      destruct (existsb _ (JS.split config_text)) in Hf |- *;
      rewrite ?(Hl eq_refl), ?(Hp eq_refl), ?(Hf eq_refl);
      destruct (JS.includes config_text "enable_plugins_loader=1"),
        (JS.includes config_text "enable_game_patch_plugin=1"),
        (JS.includes config_text "enable_homebrew_blocker=1"),
        (JS.includes config_text "enable_ftp_server=1");
      cbn; lia.
  - unfold settings_on_own_lines. cbn [forallb].
    intros [Hl [Hp [Hb [Hf _]%andb_true_iff]%andb_true_iff]%andb_true_iff]
             %andb_true_iff.
    unfold validateGoldHENConfig, push_if.
    rewrite (includes_on_own_line _ "enable_plugins_loader=1" eq_refl Hl),
      (includes_on_own_line _ "enable_game_patch_plugin=1" eq_refl Hp),
      (includes_on_own_line _ "enable_homebrew_blocker=1" eq_refl Hb),
      (includes_on_own_line _ "enable_ftp_server=1" eq_refl Hf).
    destruct (existsb _ (JS.split config_text)),
      (existsb _ (JS.split config_text)),
      (existsb _ (JS.split config_text)),
      (existsb _ (JS.split config_text)); cbn; lia.
Qed.

Lemma validateGoldHENConfig_score_witness :
  settings_on_own_lines partial_config = true
  /\ missing_required partial_config = 2%nat
  /\ blocker_enabled partial_config = true
  /\ score (validateGoldHENConfig partial_config) = 40%Z.
Proof.
  split; [reflexivity|]. split; [reflexivity|]. split; [reflexivity|].
  destruct (validateGoldHENConfig_score partial_config)
    as (_ & _ & _ & _ & _ & H).
  rewrite (H eq_refl). reflexivity.
Defined.

(** C5 (as stated) fails: the score does not count the required settings
    that the document is missing. A document with the three required
    settings and the line [enable_homebrew_blocker=1] misses none and
    scores 80, not 100; the document [enable_plugins_loader=10] misses
    the three of them and scores 60, not 40, the loader being found in
    the text. *)
Lemma validateGoldHENConfig_score_counts_blocker :
  (missing_required blocked_config = 0%nat
   /\ score (validateGoldHENConfig blocked_config) = 80%Z
   /\ score (validateGoldHENConfig blocked_config)
      <> Z.max 0 (100 - 20 * Z.of_nat (missing_required blocked_config)))
  /\ (missing_required loader_ten_config = 3%nat
      /\ score (validateGoldHENConfig loader_ten_config) = 60%Z
      /\ score (validateGoldHENConfig loader_ten_config)
         <> Z.max 0 (100 - 20 * Z.of_nat (missing_required loader_ten_config))).
Proof. repeat split; try reflexivity; by vm_compute. Qed.

(** ** The texts read and written by the fix sequence *)

Section FixSequence.

Variable chain : Chain.
Implicit Types (w : world) (path k v : string).

Lemma unloadPlugins_no_config_io : safe no_config_io (unloadPlugins chain).
Proof. unfold unloadPlugins. io. Qed.

Lemma loadPlugins_no_config_io path :
  safe no_config_io (loadPlugins chain path).
Proof. unfold loadPlugins. io. Qed.

Lemma forcePluginsReload_no_config_io payload :
  safe no_config_io (forcePluginsReload chain payload).
Proof.
  unfold forcePluginsReload. io.
  - apply unloadPlugins_no_config_io.
  - apply loadPlugins_no_config_io.
Qed.

Lemma no_config_io_texts (t : list event) :
  forallb no_config_io t = true ->
  omap config_read t = [] /\ omap written_text t = [].
Proof.
  induction t as [|e t IH]; [done|]. cbn [forallb].
  intros [He Ht]%andb_true_iff. destruct (IH Ht) as [IH1 IH2].
  unfold no_config_io in He. cbn [omap list_omap].
  destruct (config_read e), (written_text e); try done.
Qed.

(** What a run of [modifyGoldHENSetting] reads and writes: nothing; or
    a text, and then nothing or the upsert into that text. *)
Lemma modify_run_texts path k v b t :
  modify_run path k v b t ->
  (omap config_read t = [] /\ omap written_text t = [])
  \/ exists r,
       omap config_read t = [r]
       /\ (omap written_text t = []
           \/ omap written_text t = [updateConfigSetting r k v]).
Proof.
  intros Hrun.
  destruct Hrun as [e|fd buf Hfd|fd buf e Hfd|fd buf n data res Hfd Hn
                   |fd buf n data e Hfd Hn|fd buf n data r1 b1 e Hfd Hn
                   |fd buf n data r1 b1 r2 b2 e Hfd Hn
                   |fd buf n data r1 b1 r2 b2 r3 b3 res Hfd Hn];
    unfold rewrite_events, close_events, modify_error;
    try (destruct res); cbn;
    try (rewrite (proj2 (Z.ltb_ge 0 n) Hn));
    try (rewrite (proj2 (Z.ltb_lt 0 n) Hn));
    try (left; done);
    right; eexists; split; try reflexivity; auto.
Qed.

(** The run of [reactivatePlugins] on the payload of the fix: four runs
    of [modifyGoldHENSetting], then events that neither read the
    configuration nor write. *)
Lemma reactivatePlugins_fix_runs w :
  exists b1 b2 b3 b4 t1 t2 t3 t4 rest,
    reactivatePlugins chain createPluginFixPayload w
    = (Ok tt,
       append_trace w
         ([Log "Starting plugins reactivation sequence..."]
          ++ t1 ++ [Sleep 50] ++ t2 ++ [Sleep 50]
          ++ [Log "Waiting 100ms for plugin state change..."; Sleep 100]
          ++ t3 ++ [Sleep 50] ++ t4 ++ [Sleep 50] ++ rest))
    /\ modify_run "/data/GoldHEN/config.ini" "enable_plugins_loader" "0" b1 t1
    /\ modify_run "/data/GoldHEN/config.ini" "enable_game_patch_plugin" "0"
         b2 t2
    /\ modify_run "/data/GoldHEN/config.ini" "enable_plugins_loader" "1" b3 t3
    /\ modify_run "/data/GoldHEN/config.ini" "enable_game_patch_plugin" "1"
         b4 t4
    /\ forallb no_config_io rest = true.
Proof.
  unfold reactivatePlugins. rewrite bind_log.
  cbn [operations createPluginFixPayload for_of config_path].
  cbn [truthy_delay delay setting value set_op delay_op str default].
  unfold id. rewrite decide_False by done.
  change (pretty 100%Z) with "100". rewrite !bind_bind.
  destruct (modifyGoldHENSetting_runs chain "/data/GoldHEN/config.ini"
              "enable_plugins_loader" "0"
              (append_trace w [Log "Starting plugins reactivation sequence..."]))
    as (b1 & t1 & E1 & R1).
  rewrite (bind_Ok _ _ _ _ _ E1), bind_sleep, ?bind_bind.
  match goal with
  | |- context [bind (modifyGoldHENSetting chain ?p ?k ?v) ?kk ?w'] =>
      destruct (modifyGoldHENSetting_runs chain p k v w') as (b2 & t2 & E2 & R2);
      rewrite (bind_Ok _ kk _ _ _ E2)
  end.
  rewrite bind_sleep, ?bind_bind, bind_log, bind_sleep, ?bind_bind.
  match goal with
  | |- context [bind (modifyGoldHENSetting chain ?p ?k ?v) ?kk ?w'] =>
      destruct (modifyGoldHENSetting_runs chain p k v w') as (b3 & t3 & E3 & R3);
      rewrite (bind_Ok _ kk _ _ _ E3)
  end.
  rewrite bind_sleep, ?bind_bind.
  match goal with
  | |- context [bind (modifyGoldHENSetting chain ?p ?k ?v) ?kk ?w'] =>
      destruct (modifyGoldHENSetting_runs chain p k v w') as (b4 & t4 & E4 & R4);
      rewrite (bind_Ok _ kk _ _ _ E4)
  end.
  rewrite bind_sleep, bind_ret.
  match goal with
  | |- context [bind (forcePluginsReload chain ?p) ?kk ?w'] =>
      destruct (forcePluginsReload_no_config_io p w') as (b5 & t5 & E5 & F5);
      rewrite (bind_Ok _ kk _ _ _ E5)
  end.
  exists b1, b2, b3, b4, t1, t2, t3, t4,
    (t5 ++ [Log "Plugins reactivation sequence completed"]).
  split; [|repeat split; try done].
  - unfold log. rewrite record_append, !append_trace_app.
    do 2 f_equal;
      repeat (progress (rewrite <- ?app_assoc; cbn [app])); reflexivity.
  - rewrite !forallb_app, F5. done.
Qed.

Lemma events_of_run {A} (m : M A) w (a : result A) t :
  m w = (a, append_trace w t) -> events_of m w = t.
Proof.
  intros E. unfold events_of. rewrite E. cbn [snd append_trace trace].
  by rewrite drop_app_length.
Qed.

(** In a run of the fix sequence in which four texts are read from the
    configuration and four are written, each setting operation writes
    the upsert of its setting into the text that it read. *)
Lemma fix_sequence_texts w r1 r2 r3 r4 x1 x2 x3 x4 :
  let events := events_of (reactivatePlugins chain createPluginFixPayload) w in
  omap config_read events = [r1; r2; r3; r4] ->
  omap written_text events = [x1; x2; x3; x4] ->
  x1 = updateConfigSetting r1 "enable_plugins_loader" "0"
  /\ x2 = updateConfigSetting r2 "enable_game_patch_plugin" "0"
  /\ x3 = updateConfigSetting r3 "enable_plugins_loader" "1"
  /\ x4 = updateConfigSetting r4 "enable_game_patch_plugin" "1".
Proof.
  intros events.
  destruct (reactivatePlugins_fix_runs w)
    as (b1 & b2 & b3 & b4 & t1 & t2 & t3 & t4 & rest
        & E & R1 & R2 & R3 & R4 & Hrest).
  subst events. rewrite (events_of_run _ _ _ _ E).
  rewrite !omap_app.
  destruct (no_config_io_texts _ Hrest) as [-> ->].
  cbn [omap list_omap config_read written_text app].
  rewrite !app_nil_r.
  destruct (modify_run_texts _ _ _ _ _ R1) as [[-> ->]|(y1 & -> & [->| ->])],
    (modify_run_texts _ _ _ _ _ R2) as [[-> ->]|(y2 & -> & [->| ->])],
    (modify_run_texts _ _ _ _ _ R3) as [[-> ->]|(y3 & -> & [->| ->])],
    (modify_run_texts _ _ _ _ _ R4) as [[-> ->]|(y4 & -> & [->| ->])];
    cbn [app]; intros Hr Hw; try discriminate.
  by simplify_eq.
Qed.

(** The last two upserts of the fix sequence, one after the other. *)
Lemma enable_upserts_lines text :
  let fixed :=
    updateConfigSetting
      (updateConfigSetting text "enable_plugins_loader" "1")
      "enable_game_patch_plugin" "1" in
  JS.includes fixed "enable_plugins_loader=1" = true
  /\ JS.includes fixed "enable_game_patch_plugin=1" = true.
Proof.
  intros fixed. split.
  - apply includes_of_line.
    apply updateConfigSetting_keeps_line; [done..| |by vm_compute].
    apply (updateConfigSetting_new_line _ "enable_plugins_loader" "1"); done.
  - apply includes_of_line.
    apply (updateConfigSetting_new_line _ "enable_game_patch_plugin" "1"); done.
Qed.

(** The four upserts of the fix sequence, one after the other, on a
    document that begins with both plugins enabled. *)
Lemma fix_upserts_enabled_head rest :
  updateConfigSetting
    (updateConfigSetting
       (updateConfigSetting
          (updateConfigSetting (enabled_head rest)
             "enable_plugins_loader" "0")
          "enable_game_patch_plugin" "0")
       "enable_plugins_loader" "1")
    "enable_game_patch_plugin" "1"
  = enabled_head rest.
Proof.
  unfold enabled_head.
  rewrite (updateConfigSetting_next_line "[Settings]") by done.
  rewrite (updateConfigSetting_first_line "enable_plugins_loader=1") by done.
  rewrite (updateConfigSetting_next_line "[Settings]") by done.
  rewrite (updateConfigSetting_next_line
             (setting_line "enable_plugins_loader" "0")) by done.
  rewrite (updateConfigSetting_first_line "enable_game_patch_plugin=1")
    by done.
  rewrite (updateConfigSetting_next_line "[Settings]") by done.
  rewrite (updateConfigSetting_first_line
             (setting_line "enable_plugins_loader" "0")) by done.
  rewrite (updateConfigSetting_next_line "[Settings]") by done.
  rewrite (updateConfigSetting_next_line
             (setting_line "enable_plugins_loader" "1")) by done.
  rewrite (updateConfigSetting_first_line
             (setting_line "enable_game_patch_plugin" "0")) by done.
  reflexivity.
Qed.

End FixSequence.

(** X4. In a run of [reactivatePlugins] on the payload of the fix in
    which each of the four setting operations reads some text from the
    configuration and writes, each one writes the upsert of its setting
    into the text that it read. If moreover the last one read the text
    that the one before it wrote, the text written last contains
    [enable_plugins_loader=1] and [enable_game_patch_plugin=1], and the
    validation of that text reports neither the loader nor the patch
    issue and a score of at least 60. *)
Theorem fix_sequence_enables_plugins (chain : Chain) (w : world)
    (r1 r2 r3 r4 x1 x2 x3 x4 : string) :
  let events := events_of (reactivatePlugins chain createPluginFixPayload) w in
  omap config_read events = [r1; r2; r3; r4] ->
  omap written_text events = [x1; x2; x3; x4] ->
  (x1 = updateConfigSetting r1 "enable_plugins_loader" "0"
   /\ x2 = updateConfigSetting r2 "enable_game_patch_plugin" "0"
   /\ x3 = updateConfigSetting r3 "enable_plugins_loader" "1"
   /\ x4 = updateConfigSetting r4 "enable_game_patch_plugin" "1")
  /\ (r4 = x3 ->
      JS.includes x4 "enable_plugins_loader=1" = true
      /\ JS.includes x4 "enable_game_patch_plugin=1" = true
      /\ ~ In "Plugins loader disabled - games may not work properly"
             (issues (validateGoldHENConfig x4))
      /\ ~ In "Game patch plugin disabled - compatibility issues expected"
             (issues (validateGoldHENConfig x4))
      /\ (60 <= score (validateGoldHENConfig x4))%Z).
Proof.
  intros events Hr Hw.
  destruct (fix_sequence_texts chain w r1 r2 r3 r4 x1 x2 x3 x4 Hr Hw)
    as (E1 & E2 & E3 & E4).
  split; [done|]. intros E.
  destruct (enable_upserts_lines r3) as [Hl Hp].
  rewrite <- E3, <- E, <- E4 in Hl, Hp.
  split; [done|]. split; [done|].
  unfold validateGoldHENConfig, push_if. rewrite Hl, Hp. cbn [negb].
  destruct (JS.includes x4 "enable_homebrew_blocker=1"),
    (JS.includes x4 "enable_ftp_server=1"); cbn;
    repeat split; try lia; intros H;
    repeat (destruct H as [H|H]; [discriminate|]); done.
Qed.

Lemma fix_sequence_enables_plugins_witness :
  let events :=
    events_of (reactivatePlugins (file_chain "[Settings]")
                 createPluginFixPayload) fresh_world in
  let x4 :=
    JS.join [ "[Settings]"; "enable_plugins_loader=1";
              "enable_game_patch_plugin=1" ] in
  last (omap written_text events) = Some x4
  /\ JS.includes x4 "enable_plugins_loader=1" = true
  /\ JS.includes x4 "enable_game_patch_plugin=1" = true
  /\ (60 <= score (validateGoldHENConfig x4))%Z.
Proof.
  intros events x4. split; [by vm_compute|].
  destruct (fix_sequence_enables_plugins (file_chain "[Settings]") fresh_world
              "[Settings]"
              (JS.join ["[Settings]"; "enable_plugins_loader=0"])
              (JS.join [ "[Settings]"; "enable_plugins_loader=0";
                         "enable_game_patch_plugin=0" ])
              (JS.join [ "[Settings]"; "enable_plugins_loader=1";
                         "enable_game_patch_plugin=0" ])
              (JS.join ["[Settings]"; "enable_plugins_loader=0"])
              (JS.join [ "[Settings]"; "enable_plugins_loader=0";
                         "enable_game_patch_plugin=0" ])
              (JS.join [ "[Settings]"; "enable_plugins_loader=1";
                         "enable_game_patch_plugin=0" ])
              x4)
    as [_ H]; [by vm_compute|by vm_compute|].
  destruct (H eq_refl) as (Hl & Hp & _ & _ & Hs). done.
Defined.

(** X24. In a run of [reactivatePlugins] on the payload of the fix in
    which each of the four setting operations reads some text from the
    configuration and writes, and each one after the first reads the
    text that the one before it wrote: when the text read first begins
    with the lines [[Settings]], [enable_plugins_loader=1] and
    [enable_game_patch_plugin=1], the text written last is the text read
    first; such is the text of [createOptimalConfig], at every time. *)
Theorem fix_sequence_keeps_canonical (chain : Chain) (w : world)
    (r1 r2 r3 r4 x1 x2 x3 x4 : string) :
  let events := events_of (reactivatePlugins chain createPluginFixPayload) w in
  omap config_read events = [r1; r2; r3; r4] ->
  omap written_text events = [x1; x2; x3; x4] ->
  r2 = x1 -> r3 = x2 -> r4 = x3 ->
  (forall rest, r1 = enabled_head rest -> x4 = r1)
  /\ (forall now, r1 = optimal_config_text now -> x4 = r1).
Proof.
  intros events Hr Hw -> -> ->.
  destruct (fix_sequence_texts chain w r1 x1 x2 x3 x1 x2 x3 x4 Hr Hw)
    as (E1 & E2 & E3 & E4).
  assert (forall rest, r1 = enabled_head rest -> x4 = r1) as H.
  { intros rest ->. rewrite E4, E3, E2, E1.
    apply fix_upserts_enabled_head. }
  split; [exact H|]. intros now ->. by eapply H.
Qed.

Lemma fix_sequence_keeps_canonical_witness :
  let start := enabled_head "enable_ftp_server=1" in
  let events :=
    events_of (reactivatePlugins (file_chain start) createPluginFixPayload)
      fresh_world in
  head (omap config_read events) = Some start
  /\ last (omap written_text events) = Some start.
Proof.
  intros start events.
  assert (omap config_read events
          = [ start;
              updateConfigSetting start "enable_plugins_loader" "0";
              JS.join [ "[Settings]"; "enable_plugins_loader=0";
                        "enable_game_patch_plugin=0"; "enable_ftp_server=1" ];
              JS.join [ "[Settings]"; "enable_plugins_loader=1";
                        "enable_game_patch_plugin=0"; "enable_ftp_server=1" ] ])
    as Hr by (by vm_compute).
  assert (omap written_text events
          = [ updateConfigSetting start "enable_plugins_loader" "0";
              JS.join [ "[Settings]"; "enable_plugins_loader=0";
                        "enable_game_patch_plugin=0"; "enable_ftp_server=1" ];
              JS.join [ "[Settings]"; "enable_plugins_loader=1";
                        "enable_game_patch_plugin=0"; "enable_ftp_server=1" ];
              JS.join [ "[Settings]"; "enable_plugins_loader=1";
                        "enable_game_patch_plugin=1"; "enable_ftp_server=1" ] ])
    as Hw by (by vm_compute).
  destruct (fix_sequence_keeps_canonical (file_chain start) fresh_world
              _ _ _ _ _ _ _ _ Hr Hw eq_refl eq_refl eq_refl) as [H _].
  rewrite Hr, Hw. split; [reflexivity|].
  cbn [last]. rewrite (H "enable_ftp_server=1" eq_refl). reflexivity.
Defined.

(** X26. For every payload whose settings and values are strings and
    whose delays are integers that a JavaScript number holds exactly,
    [reactivatePlugins] never throws and runs the operations in the
    order of the list: for each one the wait of its delay, or its
    setting followed by a pause of 50 ms; then the unload attempts, a
    pause of 200 ms, and the loading. A delay of 0, like an absent
    delay, does not make an operation a delay: the operation is run as a
    setting, named 'undefined' when it has no name. *)
Theorem reactivatePlugins_any_payload (chain : Chain) (payload : fix_payload)
    (w : world) :
  integer_delays payload = true ->
  (exists ss u l,
     reactivatePlugins chain payload w
     = (Ok tt,
        append_trace w
          ([Log "Starting plugins reactivation sequence..."]
           ++ sequence_events (operations payload) ss
           ++ [Log "Force reloading GoldHEN plugins..."] ++ u
           ++ [Sleep 200] ++ after_unload l))
     /\ length ss = length (operations payload)
     /\ Forall (fun s => forallb file_io s = true) ss
     /\ unload_phase u
     /\ forallb load_io l = true)
  /\ (forall s, operation_events (delay_op 0) s
                = setting_events "undefined" "undefined" s).
Proof.
  intros _. split; [apply reactivatePlugins_in_list_order|done].
Qed.

Lemma reactivatePlugins_any_payload_witness :
  integer_delays sample_payload = true
  /\ exists ss u l,
       reactivatePlugins idle_chain sample_payload fresh_world
       = (Ok tt,
          append_trace fresh_world
            ([Log "Starting plugins reactivation sequence..."]
             ++ sequence_events (operations sample_payload) ss
             ++ [Log "Force reloading GoldHEN plugins..."] ++ u
             ++ [Sleep 200] ++ after_unload l))
       /\ length ss = length (operations sample_payload)
       /\ Forall (fun s => forallb file_io s = true) ss
       /\ unload_phase u
       /\ forallb load_io l = true.
Proof.
  split; [reflexivity|].
  apply (reactivatePlugins_any_payload idle_chain sample_payload fresh_world
           eq_refl).
Defined.
